(** * Vector store, similarity search and note indexer

    A shallow embedding of the TypeScript sources of the Obsidian
    vector-embedding chatbot: [VectorDatabase] (the insertion-ordered map of
    entries, its persistence, cosine similarity and top-K search, its
    statistics and the re-indexing test), [GeminiService] (embeddings, in
    batches, and the chat) and [NoteIndexer] (full, incremental and single
    indexing, preprocessing of the markdown text and tag extraction).

    Conventions of the embedding.
    - A JavaScript [number] holding a similarity or a vector component is a
      binary64 value: Rocq's primitive [float], whose operations are the
      IEEE 754 ones with rounding to nearest even, as in JavaScript.
    - Time stamps ([mtime], [modified]) are integer milliseconds: [Z].
    - A JavaScript string is a [string]; each [ascii] stands for one UTF-16
      code unit below 256.  White space and line terminators above 255 are
      therefore outside the model.
    - A [Map] is an association list in insertion order.
    - An [async] method is its sequential run: awaits are transparent, and
      no other call runs in between.
    - A call that may throw returns an [Outcome].
    - The vault is a snapshot: the list of markdown files and the outcome
      of reading each do not change during a call.  The embedding provider
      is a state machine, so that its answers may change from one request
      to the next.
    - Notices and console output are left out. *)

From Stdlib Require Import List String Ascii ZArith Floats Lia Bool Arith.
From Stdlib Require Import Sorted Permutation.
From Stdlib Require Import DecimalString.
Import ListNotations.

Set Implicit Arguments.
Set Warnings "-abstract-large-number".

(* ================================================================== *)
(** * Part I: the embedding *)
(* ================================================================== *)

(** ** Results of calls that may throw *)

Inductive Outcome (A : Type) : Type :=
| Ok (a : A)
| Threw.

Arguments Ok {A} a.
Arguments Threw {A}.

(** ** JavaScript strings *)

Module JsString.

Local Open Scope string_scope.

(** [\s] of a regular expression, and the characters [trim] strips:
    TAB, LF, VT, FF, CR, SPACE and NBSP (the ones below 256). *)
Definition isSpace (c : ascii) : bool :=
  let n := nat_of_ascii c in
  (((9 <=? n) && (n <=? 13)) || (n =? 32) || (n =? 160))%nat.

(** Line terminators: LF and CR. *)
Definition isLineTerminator (c : ascii) : bool :=
  let n := nat_of_ascii c in
  ((n =? 10) || (n =? 13))%nat.

(** [\w]: ASCII letters, digits and underscore. *)
Definition isWord (c : ascii) : bool :=
  let n := nat_of_ascii c in
  (((48 <=? n) && (n <=? 57)) || ((65 <=? n) && (n <=? 90))
   || ((97 <=? n) && (n <=? 122)) || (n =? 95))%nat.

Definition isEmpty (s : string) : bool :=
  match s with
  | EmptyString => true
  | String _ _ => false
  end.

(** A string is truthy when it is not empty. *)
Definition truthy (s : string) : bool := negb (isEmpty s).

Fixpoint trimStart (s : string) : string :=
  match s with
  | EmptyString => EmptyString
  | String c s' => if isSpace c then trimStart s' else s
  end.

Fixpoint trimEnd (s : string) : string :=
  match s with
  | EmptyString => EmptyString
  | String c s' =>
      let t := trimEnd s' in
      if isSpace c && isEmpty t then EmptyString else String c t
  end.

(** [s.trim()] *)
Definition trim (s : string) : string := trimEnd (trimStart s).

(** [s.substring(0, n)] *)
Fixpoint take (n : nat) (s : string) : string :=
  match n, s with
  | S k, String c s' => String c (take k s')
  | _, _ => EmptyString
  end.

(** [s.substring(n)] *)
Fixpoint drop (n : nat) (s : string) : string :=
  match n, s with
  | S k, String _ s' => drop k s'
  | _, _ => s
  end.

(** [s.split(sep)] for a one-character separator: never an empty list. *)
Fixpoint split (sep : ascii) (s : string) : list string :=
  match s with
  | EmptyString => [EmptyString]
  | String c s' =>
      if Ascii.eqb c sep then EmptyString :: split sep s'
      else
        match split sep s' with
        | w :: ws => String c w :: ws
        | [] => [String c EmptyString]
        end
  end.

(** [s1.startsWith(s2)], used to state properties. *)
Definition startsWith (p s : string) : bool := String.prefix p s.

End JsString.

(** ** Regular expressions

    The expressions of the sources are sequences of literal characters and
    of quantified character classes, with at most one capture group, which
    wraps one quantified class, and an optional [^] in front.  [match_here]
    is the backtracking matcher of ECMAScript restricted to this shape:
    a greedy quantifier tries the longest repetition first, a lazy one the
    shortest. *)

Module Regex.

Import JsString.
Local Open Scope string_scope.

Inductive quant : Type := Greedy | Lazy.

Inductive item : Type :=
| Lit (c : ascii)
| Rep (cls : ascii -> bool) (lo : nat) (hi : option nat) (q : quant) (cap : bool).

Definition pattern : Type := list item.

(** Where a match may start: anywhere, at the start of a line ([^] with the
    [m] flag) or at the start of the input ([^] without it). *)
Inductive anchor : Type := Anywhere | LineStart | InputStart.

Record regex : Type := { anch : anchor; body : pattern }.

Definition below (n : nat) (hi : option nat) : bool :=
  match hi with
  | None => true
  | Some h => (n <? h)%nat
  end.

(** The repetition of a class, [n] characters taken so far and [acc] the
    text taken; [k] matches what follows the repetition. *)
Fixpoint rep_loop (cls : ascii -> bool) (lo : nat) (hi : option nat) (q : quant)
  (cap : bool) (k : string -> option (option string * string))
  (s : string) (n : nat) (acc : string) {struct s}
  : option (option string * string) :=
  let stop (_ : unit) :=
    if (lo <=? n)%nat then
      match k s with
      | Some (g, r) => Some (if cap then Some acc else g, r)
      | None => None
      end
    else None in
  let more (_ : unit) :=
    match s with
    | String d s' =>
        if cls d && below n hi
        then rep_loop cls lo hi q cap k s' (S n) (acc ++ String d EmptyString)
        else None
    | EmptyString => None
    end in
  match q with
  | Greedy =>
      match more tt with
      | Some r => Some r
      | None => stop tt
      end
  | Lazy =>
      match stop tt with
      | Some r => Some r
      | None => more tt
      end
  end.

(** [match_here p s]: the first way, in backtracking order, to match [p] at
    the start of [s]; the capture (if the pattern has a group) and the rest
    of the input after the match. *)
Fixpoint match_here (p : pattern) (s : string) {struct p}
  : option (option string * string) :=
  match p with
  | [] => Some (None, s)
  | Lit c :: p' =>
      match s with
      | String d s' => if Ascii.eqb c d then match_here p' s' else None
      | EmptyString => None
      end
  | Rep cls lo hi q cap :: p' =>
      rep_loop cls lo hi q cap (match_here p') s 0 EmptyString
  end.

Definition anchor_ok (a : anchor) (prev : option ascii) : bool :=
  match a, prev with
  | Anywhere, _ => true
  | LineStart, None => true
  | LineStart, Some c => isLineTerminator c
  | InputStart, None => true
  | InputStart, Some _ => false
  end.

(** A match of [r] that starts exactly here, [prev] being the character
    before this position. *)
Definition match_at (r : regex) (prev : option ascii) (s : string)
  : option (option string * string) :=
  if anchor_ok (anch r) prev then match_here (body r) s else None.

(** The text matched, given the input at the start of the match and the
    rest after it. *)
Definition matched (s rest : string) : string :=
  take (String.length s - String.length rest) s.

(** [exec]: the leftmost match at or after this position, as
    (text before, capture, text matched, rest). *)
Fixpoint exec_from (r : regex) (prev : option ascii) (s : string)
  : option (string * option string * string * string) :=
  match match_at r prev s with
  | Some (g, rest) => Some (EmptyString, g, matched s rest, rest)
  | None =>
      match s with
      | EmptyString => None
      | String c s' =>
          match exec_from r (Some c) s' with
          | Some (before, g, m, rest) => Some (String c before, g, m, rest)
          | None => None
          end
      end
  end.

Definition exec (r : regex) (s : string) := exec_from r None s.

(** A replacement string: literal text and [$1]. *)
Inductive piece : Type :=
| Text (t : string)
| Group1.

Definition template : Type := list piece.

Definition expand (t : template) (g : option string) : string :=
  fold_right
    (fun p acc =>
       match p with
       | Text t => t ++ acc
       | Group1 => match g with Some c => c ++ acc | None => acc end
       end) EmptyString t.

(** [s.replace(r, t)] without the [g] flag: the first match only. *)
Definition replace_first (r : regex) (t : template) (s : string) : string :=
  match exec r s with
  | Some (before, g, _, rest) => before ++ expand t g ++ rest
  | None => s
  end.

(** [s.replace(r, t)] with the [g] flag.  [skip] counts the characters still
    to pass over because they belong to the match found last; a match is
    looked for only where [skip] is 0.  An empty match copies one character
    and goes on, as [lastIndex] is advanced by one. *)
Fixpoint replace_all_from (r : regex) (t : template) (prev : option ascii)
  (skip : nat) (s : string) {struct s} : string :=
  match skip with
  | S k =>
      match s with
      | String c s' => replace_all_from r t (Some c) k s'
      | EmptyString => EmptyString
      end
  | O =>
      match match_at r prev s with
      | Some (g, rest) =>
          expand t g ++
          match String.length s - String.length rest, s with
          | S k, String c s' => replace_all_from r t (Some c) k s'
          | O, String c s' => String c (replace_all_from r t (Some c) 0 s')
          | _, EmptyString => EmptyString
          end
      | None =>
          match s with
          | String c s' => String c (replace_all_from r t (Some c) 0 s')
          | EmptyString => EmptyString
          end
      end
  end.

Definition replace_all (r : regex) (t : template) (s : string) : string :=
  replace_all_from r t None 0 s.

(** [s.match(r)] with the [g] flag: the texts matched, in order (the empty
    list stands for [null]). *)
Fixpoint match_all_from (r : regex) (prev : option ascii) (skip : nat)
  (s : string) {struct s} : list string :=
  match skip with
  | S k =>
      match s with
      | String c s' => match_all_from r (Some c) k s'
      | EmptyString => []
      end
  | O =>
      match match_at r prev s with
      | Some (_, rest) =>
          matched s rest ::
          match String.length s - String.length rest, s with
          | S k, String c s' => match_all_from r (Some c) k s'
          | O, String c s' => match_all_from r (Some c) 0 s'
          | _, EmptyString => []
          end
      | None =>
          match s with
          | String c s' => match_all_from r (Some c) 0 s'
          | EmptyString => []
          end
      end
  end.

Definition match_all (r : regex) (s : string) : list string :=
  match_all_from r None 0 s.

(** Character classes of the sources. *)
Definition any (_ : ascii) : bool := true.
Definition only (c d : ascii) : bool := Ascii.eqb c d.
Definition except (c d : ascii) : bool := negb (Ascii.eqb c d).
Definition dot (c : ascii) : bool := negb (isLineTerminator c).

Definition lits (s : string) : pattern := map Lit (list_ascii_of_string s).

Definition star (cls : ascii -> bool) : item := Rep cls 0 None Greedy false.
Definition lazy_star (cls : ascii -> bool) : item := Rep cls 0 None Lazy false.
Definition plus (cls : ascii -> bool) : item := Rep cls 1 None Greedy false.
Definition opt (cls : ascii -> bool) : item := Rep cls 0 (Some 1) Greedy false.
Definition one (cls : ascii -> bool) : item := Rep cls 1 (Some 1) Greedy false.
Definition at_least (n : nat) (cls : ascii -> bool) : item :=
  Rep cls n None Greedy false.
Definition group_plus (cls : ascii -> bool) : item := Rep cls 1 None Greedy true.
Definition group_star (cls : ascii -> bool) : item := Rep cls 0 None Greedy true.
Definition group_lazy_star (cls : ascii -> bool) : item :=
  Rep cls 0 None Lazy true.

End Regex.

(** ** The text pipeline of [NoteIndexer] *)

(** A file of the vault, as the sources use it: [file.path],
    [file.basename] and [file.stat.mtime]. *)
Record TFile : Type := { path : string; basename : string; mtime : Z }.

Module NoteText.

Import JsString Regex.
Local Open Scope string_scope.

Definition LF : ascii := ascii_of_nat 10.
Definition nl : string := String LF EmptyString.

(** [/^---[\s\S]*?---\n?/m] *)
Definition re_frontmatter_block : regex :=
  {| anch := LineStart;
     body := (lits "---" ++ [lazy_star any] ++ lits "---" ++ [opt (only LF)])%list |}.

(** [/```[\s\S]*?```/g] *)
Definition re_code_block : regex :=
  {| anch := Anywhere;
     body := (lits "```" ++ [lazy_star any] ++ lits "```")%list |}.

(** [/`[^`]+`/g] *)
Definition re_inline_code : regex :=
  {| anch := Anywhere;
     body := (lits "`" ++ [plus (except "`")] ++ lits "`")%list |}.

(** [/^#+\s+/gm] *)
Definition re_header : regex :=
  {| anch := LineStart; body := [plus (only "#"); plus isSpace] |}.

(** [/\[([^\]]+)\]\([^)]+\)/g] *)
Definition re_link : regex :=
  {| anch := Anywhere;
     body := (lits "[" ++ [group_plus (except "]")] ++ lits "](" ++
              [plus (except ")")] ++ lits ")")%list |}.

(** The image pattern: as [re_link] with [!] in front and a group that may
    be empty (a starred class instead of a plussed one). *)
Definition re_image : regex :=
  {| anch := Anywhere;
     body := (lits "![" ++ [group_star (except "]")] ++ lits "](" ++
              [plus (except ")")] ++ lits ")")%list |}.

(** [/\*\*([^*]+)\*\*/g] *)
Definition re_bold_star : regex :=
  {| anch := Anywhere;
     body := (lits "**" ++ [group_plus (except "*")] ++ lits "**")%list |}.

(** [/\*([^*]+)\*/g] *)
Definition re_italic_star : regex :=
  {| anch := Anywhere;
     body := (lits "*" ++ [group_plus (except "*")] ++ lits "*")%list |}.

(** [/__([^_]+)__/g] *)
Definition re_bold_underscore : regex :=
  {| anch := Anywhere;
     body := (lits "__" ++ [group_plus (except "_")] ++ lits "__")%list |}.

(** [/_([^_]+)_/g] *)
Definition re_italic_underscore : regex :=
  {| anch := Anywhere;
     body := (lits "_" ++ [group_plus (except "_")] ++ lits "_")%list |}.

(** [/\n{3,}/g] *)
Definition re_blank_lines : regex :=
  {| anch := Anywhere; body := [at_least 3 (only LF)] |}.

(** The markdown clean-up of [preprocessContent], before the header is
    added: the ten [replace] calls in the order of the source. *)
Definition stripMarkdown (content : string) : string :=
  let content := replace_first re_frontmatter_block [] content in
  let content := replace_all re_code_block [Text "[code block]"] content in
  let content := replace_all re_inline_code [Text "[inline code]"] content in
  let content := replace_all re_header [] content in
  let content := replace_all re_link [Group1] content in
  let content := replace_all re_image [Text "[image: "; Group1; Text "]"] content in
  let content := replace_all re_bold_star [Group1] content in
  let content := replace_all re_italic_star [Group1] content in
  let content := replace_all re_bold_underscore [Group1] content in
  let content := replace_all re_italic_underscore [Group1] content in
  content.

(** The header `Title: ${file.basename}\nPath: ${file.path}`. *)
Definition header (file : TFile) : string :=
  "Title: " ++ basename file ++ nl ++ "Path: " ++ path file.

(** [NoteIndexer.preprocessContent] *)
Definition preprocessContent (content : string) (file : TFile) : string :=
  let content := stripMarkdown content in
  let content := header file ++ nl ++ nl ++ content in
  let content := replace_all re_blank_lines [Text (nl ++ nl)] content in
  trim content.

(** [/#[\w-]+/g] *)
Definition isTagChar (c : ascii) : bool := isWord c || Ascii.eqb c "-".

Definition re_hashtag : regex :=
  {| anch := Anywhere; body := (lits "#" ++ [plus isTagChar])%list |}.

(** [/^---\n([\s\S]*?)\n---/] *)
Definition re_frontmatter : regex :=
  {| anch := InputStart;
     body := (lits "---" ++ [Lit LF] ++ [group_lazy_star any] ++ [Lit LF] ++
              lits "---")%list |}.

(** [/tags:\s*\[(.*?)\]/] *)
Definition re_tags : regex :=
  {| anch := Anywhere;
     body := (lits "tags:" ++ [star isSpace] ++ lits "[" ++
              [group_lazy_star dot] ++ lits "]")%list |}.

(** The global pattern of one single or double quote character. *)
Definition isQuote (c : ascii) : bool :=
  Ascii.eqb c "'" || Ascii.eqb c (ascii_of_nat 34).

Definition re_quote : regex := {| anch := Anywhere; body := [one isQuote] |}.

(** The capture of a match that has one. *)
Definition group1 (g : option string) : string :=
  match g with
  | Some c => c
  | None => EmptyString
  end.

(** [[...new Set(tags)]]: the first occurrence of each tag, in order. *)
Definition dedupe (tags : list string) : list string :=
  fold_left
    (fun seen t => if existsb (String.eqb t) seen then seen else (seen ++ [t])%list)
    tags [].

(** The hashtags of a text, without the [#]. *)
Definition hashtags (content : string) : list string :=
  map (drop 1) (match_all re_hashtag content).

(** The tags of the [tags: [...]] list of a front-matter block that starts
    the text; the empty list when there is no such block or list. *)
Definition frontmatterTags (content : string) : list string :=
  match exec re_frontmatter content with
  | Some (_, g, _, _) =>
      let frontmatter := group1 g in
      match exec re_tags frontmatter with
      | Some (_, g', _, _) =>
          map (fun t => replace_all re_quote [] (trim t)) (split "," (group1 g'))
      | None => []
      end
  | None => []
  end.

(** [NoteIndexer.extractTags] *)
Definition extractTags (content : string) : list string :=
  dedupe (hashtags content ++ frontmatterTags content)%list.

End NoteText.

(** ** The data model of the vector database *)

Record VectorEntry : Type :=
  { id : string;
    embedding : list float;
    content : string;
    title : string;
    modified : Z;
    tags : option (list string) }.

Record SearchResult : Type :=
  { note : VectorEntry;
    similarity : float }.

(** ** JavaScript [Map] with string keys

    An association list in insertion order.  [set] on a key that is present
    replaces the value in place; on a new key it appends. *)

Module JsMap.

Section Ops.
Variable V : Type.

Definition t : Type := list (string * V).

Definition empty : t := [].

Fixpoint get (k : string) (m : t) : option V :=
  match m with
  | [] => None
  | (k', v) :: m' => if String.eqb k' k then Some v else get k m'
  end.

Fixpoint set (k : string) (v : V) (m : t) : t :=
  match m with
  | [] => [(k, v)]
  | (k', v') :: m' =>
      if String.eqb k' k then (k, v) :: m' else (k', v') :: set k v m'
  end.

Definition delete (k : string) (m : t) : t :=
  filter (fun kv => negb (String.eqb (fst kv) k)) m.

Definition has (k : string) (m : t) : bool :=
  match get k m with
  | Some _ => true
  | None => false
  end.

Definition keys (m : t) : list string := map fst m.
Definition values (m : t) : list V := map snd m.
Definition size (m : t) : nat := List.length m.

End Ops.

Arguments empty {V}.

End JsMap.

(** ** Arrays *)

Module JsArray.

Section Ops.
Variable A : Type.

(** [a.slice(0, k)] for an integer [k]: a negative [k] counts from the end. *)
Definition slice0 (k : Z) (a : list A) : list A :=
  if (k <? 0)%Z
  then firstn (List.length a - Z.to_nat (- k)) a
  else firstn (Z.to_nat k) a.

(** [a.sort(compareFn)].  The sort of ECMAScript is stable, and [b] goes
    before [a] only when [compareFn(a, b) > 0]; a comparator result of [NaN]
    counts as 0.  For a consistent comparator every stable sort gives this
    result; the insertion sort below is the model for all of them. *)
Fixpoint insert (compareFn : A -> A -> float) (x : A) (l : list A) : list A :=
  match l with
  | [] => [x]
  | y :: l' =>
      if (0 <? compareFn x y)%float
      then y :: insert compareFn x l'
      else x :: l
  end.

Definition sort (compareFn : A -> A -> float) (a : list A) : list A :=
  fold_right (insert compareFn) [] a.

(** The batches [a.slice(i, i + size)] for [i = 0, size, 2 size, ...] below
    [a.length]: the loop runs at most [a.length] times. *)
Fixpoint batches (fuel size : nat) (a : list A) : list (list A) :=
  match fuel with
  | O => []
  | S fuel' =>
      match a with
      | [] => []
      | _ :: _ => firstn size a :: batches fuel' size (skipn size a)
      end
  end.

Definition batchesOf (size : nat) (a : list A) : list (list A) :=
  batches (List.length a) size a.

End Ops.

End JsArray.

(** ** [VectorDatabase] *)

(** The file [vectors.json] as the adapter shows it: absent, unreadable
    (the read or [JSON.parse] throws), or a record with its [vectors]. *)
Inductive DiskFile : Type :=
| NoFile
| Unreadable
| Saved (vectors : list VectorEntry).

(** The adapter: the file, whether a write succeeds, and the number of
    flushes attempted so far. *)
Record Adapter : Type :=
  { file : DiskFile;
    writable : bool;
    flushes : nat }.

Record VectorDatabase : Type :=
  { db : JsMap.t VectorEntry;
    loaded : bool;
    adapter : Adapter }.

Module VectorDb.

Local Open Scope float_scope.

Definition with_db (m : JsMap.t VectorEntry) (s : VectorDatabase) : VectorDatabase :=
  {| db := m; loaded := loaded s; adapter := adapter s |}.

(** [loadDatabase]: the entries of the file are set into the map; a failure
    empties the map.  Either way the database is loaded afterwards. *)
Definition loadDatabase (s : VectorDatabase) : VectorDatabase :=
  match file (adapter s) with
  | NoFile => {| db := db s; loaded := true; adapter := adapter s |}
  | Unreadable => {| db := JsMap.empty; loaded := true; adapter := adapter s |}
  | Saved vectors =>
      {| db := fold_left (fun m entry => JsMap.set (id entry) entry m) vectors (db s);
         loaded := true;
         adapter := adapter s |}
  end.

(** [if (!this.loaded) await this.loadDatabase()] *)
Definition ensureLoaded (s : VectorDatabase) : VectorDatabase :=
  if loaded s then s else loadDatabase s.

(** [saveDatabase]: writes the values of the map, or throws. *)
Definition saveDatabase (s : VectorDatabase) : Outcome unit * VectorDatabase :=
  let a := adapter s in
  if writable a
  then (Ok tt,
        {| db := db s; loaded := loaded s;
           adapter := {| file := Saved (JsMap.values (db s));
                         writable := writable a;
                         flushes := S (flushes a) |} |})
  else (Threw,
        {| db := db s; loaded := loaded s;
           adapter := {| file := file a;
                         writable := writable a;
                         flushes := S (flushes a) |} |}).

Definition addVector (entry : VectorEntry) (s : VectorDatabase)
  : Outcome unit * VectorDatabase :=
  let s := ensureLoaded s in
  saveDatabase (with_db (JsMap.set (id entry) entry (db s)) s).

Definition addVectors (entries : list VectorEntry) (s : VectorDatabase)
  : Outcome unit * VectorDatabase :=
  let s := ensureLoaded s in
  saveDatabase
    (with_db (fold_left (fun m entry => JsMap.set (id entry) entry m) entries (db s)) s).

Definition removeVector (k : string) (s : VectorDatabase)
  : Outcome unit * VectorDatabase :=
  let s := ensureLoaded s in
  saveDatabase (with_db (JsMap.delete k (db s)) s).

Definition getVector (k : string) (s : VectorDatabase)
  : option VectorEntry * VectorDatabase :=
  let s := ensureLoaded s in
  (JsMap.get k (db s), s).

(** The loop of [cosineSimilarity] over two arrays of the same length:
    (dotProduct, normA, normB). *)
Fixpoint sums (a b : list float) (acc : float * float * float)
  : float * float * float :=
  match a, b with
  | x :: a', y :: b' =>
      let '(dotProduct, normA, normB) := acc in
      sums a' b' (dotProduct + x * y, normA + x * x, normB + y * y)
  | _, _ => acc
  end.

Definition cosineSimilarity (a b : list float) : float :=
  if negb (List.length a =? List.length b)%nat then 0
  else
    let '(dotProduct, normA, normB) := sums a b (0, 0, 0) in
    if (normA =? 0) || (normB =? 0) then 0
    else dotProduct / (sqrt normA * sqrt normB).

Definition nonEmpty (A : Type) (l : list A) : bool :=
  match l with
  | [] => false
  | _ :: _ => true
  end.

(** The loop of [search] over [this.db.values()]. *)
Definition scan (queryEmbedding : list float) (entries : list VectorEntry)
  : list SearchResult :=
  fold_left
    (fun results entry =>
       if nonEmpty (embedding entry)
       then (results ++
             [{| note := entry;
                 similarity := cosineSimilarity queryEmbedding (embedding entry) |}])%list
       else results)
    entries [].

(** [(a, b) => b.similarity - a.similarity] *)
Definition bySimilarity (a b : SearchResult) : float :=
  similarity b - similarity a.

(** [search(queryEmbedding, topK)], [topK] an integer. *)
Definition search (queryEmbedding : list float) (topK : Z) (s : VectorDatabase)
  : list SearchResult * VectorDatabase :=
  let s := ensureLoaded s in
  match queryEmbedding with
  | [] => ([], s)
  | _ :: _ =>
      let results := scan queryEmbedding (JsMap.values (db s)) in
      (JsArray.slice0 topK (JsArray.sort bySimilarity results), s)
  end.

Definition clear (s : VectorDatabase) : Outcome unit * VectorDatabase :=
  saveDatabase (with_db JsMap.empty s).

Definition getAllNoteIds (s : VectorDatabase) : list string * VectorDatabase :=
  let s := ensureLoaded s in
  (JsMap.keys (db s), s).

(** [!entry || file.stat.mtime > entry.modified] *)
Definition newOrModified (m : JsMap.t VectorEntry) (f : TFile) : bool :=
  match JsMap.get (path f) m with
  | None => true
  | Some entry => (modified entry <? mtime f)%Z
  end.

(** [getModifiedNotes], [files] being [this.app.vault.getMarkdownFiles()]. *)
Definition getModifiedNotes (files : list TFile) (s : VectorDatabase)
  : list TFile * VectorDatabase :=
  let s := ensureLoaded s in
  (fold_left
     (fun modifiedFiles f =>
        if newOrModified (db s) f then (modifiedFiles ++ [f])%list else modifiedFiles)
     files [],
   s).

(** [new Set(...).has(id)] *)
Definition setHas (paths : list string) (k : string) : bool :=
  existsb (String.eqb k) paths.

(** [removeDeletedNotes], [files] being [this.app.vault.getMarkdownFiles()]. *)
Definition removeDeletedNotes (files : list TFile) (s : VectorDatabase)
  : Outcome nat * VectorDatabase :=
  let s := ensureLoaded s in
  let currentPaths := map path files in
  let toDelete :=
    fold_left
      (fun acc k => if negb (setHas currentPaths k) then (acc ++ [k])%list else acc)
      (JsMap.keys (db s)) [] in
  let s := with_db (fold_left (fun m k => JsMap.delete k m) toDelete (db s)) s in
  if (0 <? List.length toDelete)%nat
  then
    match saveDatabase s with
    | (Ok _, s') => (Ok (List.length toDelete), s')
    | (Threw, s') => (Threw, s')
    end
  else (Ok (List.length toDelete), s).

End VectorDb.

(** ** The other operations of [VectorDatabase] *)

Record DatabaseStats : Type :=
  { totalNotes : nat;
    lastUpdated : option string }.

Module VectorDbStats.

(** The loop of [getStats]: the greatest [modified], starting from 0. *)
Definition latestTime (entries : list VectorEntry) : Z :=
  fold_left
    (fun latest entry => if (latest <? modified entry)%Z then modified entry else latest)
    entries 0%Z.

(** [getStats].  [toLocaleString] stands for
    [new Date(latestTime).toLocaleString()], which depends on the locale of
    the host. *)
Definition getStats (toLocaleString : Z -> string) (s : VectorDatabase)
  : DatabaseStats * VectorDatabase :=
  let s := VectorDb.ensureLoaded s in
  let lastUpdated :=
    if (0 <? JsMap.size (db s))%nat
    then
      let latest := latestTime (JsMap.values (db s)) in
      if (0 <? latest)%Z then Some (toLocaleString latest) else None
    else None in
  ({| totalNotes := JsMap.size (db s); lastUpdated := lastUpdated |}, s).

(** The sampling loop of [needsReindexing] over [i = 0, 1, ...]:
    [Math.floor(Math.random() * files.length)] is [random i] reduced modulo
    the number of files, an index below it; reading [file.path] of a missing
    element would throw. *)
Fixpoint sampleLoop (random : nat -> nat) (files : list TFile)
  (m : JsMap.t VectorEntry) (turns : list nat) : Outcome bool :=
  match turns with
  | [] => Ok false
  | i :: turns' =>
      match nth_error files (random i mod List.length files) with
      | None => Threw
      | Some f =>
          if VectorDb.newOrModified m f then Ok true
          else sampleLoop random files m turns'
      end
  end.

(** [needsReindexing], [files] being [this.app.vault.getMarkdownFiles()]. *)
Definition needsReindexing (random : nat -> nat) (files : list TFile)
  (s : VectorDatabase) : Outcome bool * VectorDatabase :=
  let s := VectorDb.ensureLoaded s in
  if (JsMap.size (db s) =? 0)%nat then (Ok true, s)
  else if negb (List.length files =? JsMap.size (db s))%nat then (Ok true, s)
  else
    let samplSize := Nat.min 10 (List.length files) in
    (sampleLoop random files (db s) (seq 0 samplSize), s).

End VectorDbStats.

(** ** [GeminiService]: embeddings *)

(** The embedding model of the provider, [embeddingModel.embedContent]: a
    request either yields the values of the embedding or throws, and may
    change the state [P] of the provider (quota, rate limiter, outage). *)
Definition EmbeddingModel (P : Type) : Type :=
  string -> P -> Outcome (list float) * P.

Module Gemini.

Import JsString.

Section Service.
Variable P : Type.
Variable embedContent : EmbeddingModel P.

(** [generateEmbedding]: an empty text gets the empty embedding without a
    request; a failure of the provider is thrown again. *)
Definition generateEmbedding (text : string) (p : P) : Outcome (list float) * P :=
  let cleanText := take 10000 (trim text) in
  if isEmpty cleanText then (Ok [], p) else embedContent cleanText p.

(** [batch.map(text => this.generateEmbedding(text))]: the requests of a
    batch are all issued, in order. *)
Fixpoint issueAll (batch : list string) (p : P)
  : list (Outcome (list float)) * P :=
  match batch with
  | [] => ([], p)
  | text :: batch' =>
      let (o, p1) := generateEmbedding text p in
      let (os, p2) := issueAll batch' p1 in
      (o :: os, p2)
  end.

(** [Promise.all]: the results in order, or a rejection when one rejects. *)
Fixpoint promiseAll (A : Type) (os : list (Outcome A)) : Outcome (list A) :=
  match os with
  | [] => Ok []
  | Threw :: _ => Threw
  | Ok a :: os' =>
      match promiseAll os' with
      | Ok l => Ok (a :: l)
      | Threw => Threw
      end
  end.

(** One turn of the loop of [generateEmbeddings]: the embeddings of the
    batch, or an empty embedding for each of its texts when it fails. *)
Definition embedBatch (batch : list string) (p : P) : list (list float) * P :=
  let (os, p') := issueAll batch p in
  match promiseAll os with
  | Ok batchResults => (batchResults, p')
  | Threw => (map (fun _ => []) batch, p')
  end.

(** [generateEmbeddings]: batches of 5 (the delay between batches has no
    effect on the result). *)
Definition generateEmbeddings (texts : list string) (p : P)
  : list (list float) * P :=
  fold_left
    (fun (st : list (list float) * P) batch =>
       let (embeddings, p) := st in
       let (batchResults, p') := embedBatch batch p in
       ((embeddings ++ batchResults)%list, p'))
    (JsArray.batchesOf 5 texts) ([], p).

End Service.

End Gemini.

(** ** [GeminiService.chat] *)

Module GeminiChat.

Local Open Scope string_scope.

(** [ChatMessage]: the role, the content and the optional context. *)
Inductive Role : Type := User | Assistant | System.

Record ChatMessage : Type :=
  { role : Role;
    content : string;
    context : option (list string) }.

(** A message in the format of the provider: [{ role, parts: [{ text }] }]
    with the role [user] or [model]. *)
Inductive GeminiRole : Type := RoleUser | RoleModel.

Record Content : Type :=
  { geminiRole : GeminiRole;
    text : string }.

(** The chat model: [startChat] with a history and a temperature, then
    [sendMessage] with a text, and the text of the response or an error. *)
Definition ChatModel : Type := float -> list Content -> string -> Outcome string.

(** [this.settings.temperature || 0.7]: an undefined temperature, 0 and
    NaN are falsy. *)
Definition temperatureOrDefault (temperature : option float) : float :=
  match temperature with
  | None => 0x1.6666666666666p-1%float
  | Some t => if (t =? 0)%float || is_nan t then 0x1.6666666666666p-1%float else t
  end.

Definition TAB : string := String (ascii_of_nat 9) EmptyString.
Definition NL : string := String (ascii_of_nat 10) EmptyString.

(** The indentation of the lines of the template in the source. *)
Definition indent : string := TAB ++ TAB ++ TAB.

(** [`[Note ${i + 1}]: ${note}`] *)
Definition noteLine (i : nat) (note : string) : string :=
  "[Note " ++ NilZero.string_of_uint (Nat.to_uint (i + 1)) ++ "]: " ++ note.

(** [context.map((note, i) => ...)] *)
Definition noteLines (context : list string) : list string :=
  map (fun inote => noteLine (fst inote) (snd inote))
      (combine (seq 0 (List.length context)) context).

(** The template of [systemPrompt]. *)
Definition systemPrompt (context : list string) : string :=
  "You are a helpful assistant that answers questions about the user's Obsidian notes." ++ NL ++
  indent ++ "Use the following relevant note excerpts to answer the user's question." ++ NL ++
  indent ++ "Always cite which notes you're referencing when providing information. If you are not using notes then say that you are not." ++ NL ++
  NL ++
  indent ++ "Relevant notes context:" ++ NL ++
  indent ++ String.concat (NL ++ NL) (noteLines context) ++ NL ++
  NL ++
  indent ++ "Now answer the user's question based on the above context.".

Definition acknowledgement : string :=
  "I understand. I'll answer questions based on the provided note excerpts and cite my sources.".

Definition formatMessage (msg : ChatMessage) : Content :=
  {| geminiRole := match role msg with User => RoleUser | _ => RoleModel end;
     text := content msg |}.

(** [formattedMessages]: the messages in the format of the provider, with
    the prompt and its acknowledgement in front when there is context. *)
Definition formattedMessages (messages : list ChatMessage) (context : list string)
  : list Content :=
  let formatted := map formatMessage messages in
  if (0 <? List.length context)%nat
  then {| geminiRole := RoleUser; text := systemPrompt context |}
       :: {| geminiRole := RoleModel; text := acknowledgement |}
       :: formatted
  else formatted.

(** [chat]: the history is [formattedMessages.slice(0, -1)], the text sent
    is the content of [messages[messages.length - 1]]; reading the content
    of a missing last message throws, and every error is thrown again. *)
Definition chat (model : ChatModel) (temperature : option float)
  (messages : list ChatMessage) (context : list string) : Outcome string :=
  let history := JsArray.slice0 (-1) (formattedMessages messages context) in
  match nth_error messages (List.length messages - 1) with
  | Some lastMessage =>
      model (temperatureOrDefault temperature) history (content lastMessage)
  | None => Threw
  end.

End GeminiChat.

(** ** [NoteIndexer] *)

(** What the indexer sees of the application: the markdown files of the
    vault and the outcome of reading each. *)
Record App : Type :=
  { markdownFiles : list TFile;
    cachedRead : TFile -> Outcome string }.

Record NoteIndexer : Type :=
  { vectorDb : VectorDatabase;
    isIndexing : bool }.

Module Indexer.

Import JsString NoteText.

Section Run.
Variable P : Type.
Variable embedContent : EmbeddingModel P.
Variable app : App.

(** The first loop of [processBatch]: the files read and preprocessed.  A
    file whose read throws is skipped, and so is one whose text is empty
    after preprocessing. *)
Definition readBatch (files : list TFile) : list (TFile * string) :=
  fold_left
    (fun fileData f =>
       match cachedRead app f with
       | Ok c =>
           let processedContent := preprocessContent c f in
           if truthy (trim processedContent)
           then (fileData ++ [(f, processedContent)])%list
           else fileData
       | Threw => fileData
       end)
    files [].

Definition makeEntry (f : TFile) (text : string) (e : list float) : VectorEntry :=
  {| id := path f;
     embedding := e;
     content := take 3000 text;
     title := basename f;
     modified := mtime f;
     tags := Some (extractTags text) |}.

(** The second loop of [processBatch]: [fileData[i]] with [embeddings[i]];
    only a non-empty embedding makes an entry. *)
Definition makeEntries (fileData : list (TFile * string))
  (embeddings : list (list float)) : list VectorEntry :=
  fold_left
    (fun entries (ifd : nat * (TFile * string)) =>
       let '(i, (f, text)) := ifd in
       match nth_error embeddings i with
       | Some e =>
           if VectorDb.nonEmpty e
           then (entries ++ [makeEntry f text e])%list
           else entries
       | None => entries
       end)
    (combine (seq 0 (List.length fileData)) fileData) [].

(** [processBatch] *)
Definition processBatch (files : list TFile) (p : P) : list VectorEntry * P :=
  let fileData := readBatch files in
  match fileData with
  | [] => ([], p)
  | _ :: _ =>
      let (embeddings, p') :=
        Gemini.generateEmbeddings embedContent (map snd fileData) p in
      (makeEntries fileData embeddings, p')
  end.

(** The loop of [indexAllNotes] over the batches of files:
    (entries, indexed, provider). *)
Definition runBatches (batches : list (list TFile)) (p : P)
  : list VectorEntry * nat * P :=
  fold_left
    (fun (st : list VectorEntry * nat * P) batch =>
       let '(entries, indexed, p) := st in
       let (batchEntries, p') := processBatch batch p in
       ((entries ++ batchEntries)%list, indexed + List.length batchEntries, p'))
    batches ([], 0, p).

Definition idle (s : VectorDatabase) : NoteIndexer :=
  {| vectorDb := s; isIndexing := false |}.

(** [indexAllNotes]: the number of notes indexed, or the error thrown by
    the database.  The [finally] clears [isIndexing] on every path through
    the [try]; the guard in front of it returns without touching it. *)
Definition indexAllNotes (ix : NoteIndexer) (p : P) : Outcome nat * NoteIndexer * P :=
  if isIndexing ix then (Ok 0, ix, p)
  else
    match VectorDb.removeDeletedNotes (markdownFiles app) (vectorDb ix) with
    | (Threw, s) => (Threw, idle s, p)
    | (Ok _, s) =>
        let files := markdownFiles app in
        if (List.length files =? 0)%nat then (Ok 0, idle s, p)
        else
          let '(entries, indexed, p') := runBatches (JsArray.batchesOf 5 files) p in
          if (0 <? List.length entries)%nat
          then
            match VectorDb.addVectors entries s with
            | (Ok _, s') => (Ok indexed, idle s', p')
            | (Threw, s') => (Threw, idle s', p')
            end
          else (Ok indexed, idle s, p')
    end.

(** [indexModifiedNotes] *)
Definition indexModifiedNotes (ix : NoteIndexer) (p : P)
  : Outcome nat * NoteIndexer * P :=
  if isIndexing ix then (Ok 0, ix, p)
  else
    let (modifiedFiles, s) :=
      VectorDb.getModifiedNotes (markdownFiles app) (vectorDb ix) in
    if (List.length modifiedFiles =? 0)%nat then (Ok 0, idle s, p)
    else
      let (entries, p') := processBatch modifiedFiles p in
      if (0 <? List.length entries)%nat
      then
        match VectorDb.addVectors entries s with
        | (Ok _, s') => (Ok (List.length entries), idle s', p')
        | (Threw, s') => (Threw, idle s', p')
        end
      else (Ok 0, idle s, p').

(** [indexSingleNote] *)
Definition indexSingleNote (f : TFile) (ix : NoteIndexer) (p : P)
  : bool * NoteIndexer * P :=
  let (entries, p') := processBatch [f] p in
  match entries with
  | entry :: _ =>
      match VectorDb.addVector entry (vectorDb ix) with
      | (Ok _, s') => (true, {| vectorDb := s'; isIndexing := isIndexing ix |}, p')
      | (Threw, s') => (false, {| vectorDb := s'; isIndexing := isIndexing ix |}, p')
      end
  | [] => (false, ix, p')
  end.

End Run.

End Indexer.

(** ** Vocabulary of the properties *)

(** The ids of the live documents: the paths of the markdown files. *)
Definition live (files : list TFile) (k : string) : bool :=
  VectorDb.setHas (map path files) k.

(** A text has a character that [trim] does not strip. *)
Fixpoint hasText (s : string) : bool :=
  match s with
  | EmptyString => false
  | String c s' => negb (JsString.isSpace c) || hasText s'
  end.

(** A name without line feed. *)
Fixpoint noLineFeed (s : string) : bool :=
  match s with
  | EmptyString => true
  | String c s' => negb (Ascii.eqb NoteText.LF c) && noLineFeed s'
  end.

(** A name that is not empty and whose last character is not white space,
    as a path that ends in [.md]. *)
Fixpoint endsInText (s : string) : bool :=
  match s with
  | EmptyString => false
  | String c EmptyString => negb (JsString.isSpace c)
  | String _ s' => endsInText s'
  end.

(** A file whose base name and path have no line feed and whose path does
    not end in white space. *)
Definition plainName (f : TFile) : bool :=
  noLineFeed (basename f) && noLineFeed (path f) && endsInText (path f).

(** The files of a batch that can be read, each with its preprocessed text. *)
Definition readable (app : App) (files : list TFile) : list (TFile * string) :=
  flat_map
    (fun f =>
       match cachedRead app f with
       | Ok c => [(f, NoteText.preprocessContent c f)]
       | Threw => []
       end)
    files.

(** Every character of a text is in a class. *)
Fixpoint allIn (cls : ascii -> bool) (s : string) : bool :=
  match s with
  | EmptyString => true
  | String c s' => cls c && allIn cls s'
  end.

(** The first character of a text is not in a class, or the text is
    empty. *)
Definition stopsAt (cls : ascii -> bool) (s : string) : bool :=
  match s with
  | EmptyString => true
  | String c _ => negb (cls c)
  end.

(** The replacement of [re_blank_lines]: two line feeds. *)
Definition two_lines : Regex.template :=
  [Regex.Text (NoteText.nl ++ NoteText.nl)%string].

(** The [Promise.all] of a batch of texts rejects: a request of the batch
    fails. *)
Definition batchRejects (P : Type) (embedContent : EmbeddingModel P)
  (texts : list string) (p : P) : bool :=
  match Gemini.promiseAll (fst (Gemini.issueAll embedContent texts p)) with
  | Ok _ => false
  | Threw => true
  end.

(** *** Numbers *)

(** The order of [SFcompare] as a key: the class first (minus infinity,
    negative, zero, positive, plus infinity), then the exponent and the
    mantissa, both negated for a negative number. *)
Definition SFkey (x : spec_float) : Z * Z * Z :=
  match x with
  | S754_nan => (0, 0, 0)
  | S754_zero _ => (0, 0, 0)
  | S754_infinity true => (-2, 0, 0)
  | S754_infinity false => (2, 0, 0)
  | S754_finite true m e => (-1, - e, - Zpos m)
  | S754_finite false m e => (1, e, Zpos m)
  end%Z.

Definition key (x : float) : Z * Z * Z := SFkey (Prim2SF x).

(** Lexicographic comparison of keys. *)
Definition lex3 (a b : Z * Z * Z) : comparison :=
  let '(a1, a2, a3) := a in
  let '(b1, b2, b3) := b in
  match (a1 ?= b1)%Z with
  | Eq => match (a2 ?= b2)%Z with
          | Eq => (a3 ?= b3)%Z
          | c => c
          end
  | c => c
  end.

Definition lt3 (a b : Z * Z * Z) : Prop :=
  let '(a1, a2, a3) := a in
  let '(b1, b2, b3) := b in
  (a1 < b1 \/ (a1 = b1 /\ (a2 < b2 \/ (a2 = b2 /\ a3 < b3))))%Z.

(** A vector all of whose components are zero (plus or minus). *)
Definition allZero (a : list float) : bool :=
  forallb (fun x => (x =? 0)%float) a.

(** The sum of the squares of the components, as the loop of
    [cosineSimilarity] adds them up. *)
Definition squaredNorm (a : list float) : float :=
  fold_left (fun acc x => (acc + x * x)%float) a 0%float.

(** *** Ranking *)

(** A comparator that puts the higher score first. *)
Definition byScore (A : Type) (score : A -> float) (a b : A) : float :=
  (score b - score a)%float.

(** The second has no higher score than the first. *)
Definition descending (A : Type) (score : A -> float) (a b : A) : Prop :=
  (score b <=? score a)%float = true.

(** No score is NaN. *)
Definition numbers (A : Type) (score : A -> float) (l : list A) : Prop :=
  Forall (fun a => is_nan (score a) = false) l.

(** The elements with a score equal to [v]. *)
Definition tiedAt (A : Type) (score : A -> float) (v : float) (l : list A)
  : list A :=
  filter (fun a => (score a =? v)%float) l.

(** The candidates of a search, in the order of the map, and their ranking
    before the cut at [topK]. *)
Definition candidates (q : list float) (s : VectorDatabase) : list SearchResult :=
  VectorDb.scan q (JsMap.values (db (VectorDb.ensureLoaded s))).

Definition ranked (q : list float) (s : VectorDatabase) : list SearchResult :=
  JsArray.sort VectorDb.bySimilarity (candidates q s).

(** ** Example inputs *)

Module Examples.

Import NoteText.
Local Open Scope string_scope.

(** A markdown file with an ordinary name. *)
Definition planFile : TFile :=
  {| path := "notes/plan.md"; basename := "plan"; mtime := 1700000000000 |}.

(** A markdown file whose name has three line feeds in a row. *)
Definition oddFile : TFile :=
  {| path := "a" ++ nl ++ nl ++ nl ++ "b.md";
     basename := "a" ++ nl ++ nl ++ nl ++ "b";
     mtime := 1700000000000 |}.

(** A note with two tags in its front matter and a hashtag in its text. *)
Definition taggedNote : string :=
  "---" ++ nl ++ "tags: [project, 'draft']" ++ nl ++ "---" ++ nl ++
  "Ideas for the #roadmap" ++ nl.

(** A vault with [planFile] only, whose text is [taggedNote]. *)
Definition planApp : App :=
  {| markdownFiles := [planFile]; cachedRead := fun _ => Ok taggedNote |}.

(** A provider without state that answers every request with the same
    embedding. *)
Definition steadyModel : EmbeddingModel unit :=
  fun _ p => (Ok [1%float; 0%float], p).

(** A provider without state that fails every request. *)
Definition failingModel : EmbeddingModel unit :=
  fun _ p => (Threw, p).

(** An entry for a path, with an embedding and a time stamp. *)
Definition entryOf (k : string) (e : list float) (t : Z) : VectorEntry :=
  {| id := k; embedding := e; content := k; title := k; modified := t;
     tags := None |}.

Definition fileOf (k : string) (t : Z) : TFile :=
  {| path := k; basename := k; mtime := t |}.

(** A loaded store with entries for [a.md] and [b.md]. *)
Definition twoNotes : VectorDatabase :=
  {| db := [("a.md", entryOf "a.md" [1%float; 0%float] 10);
            ("b.md", entryOf "b.md" [0%float; 1%float] 10)];
     loaded := true;
     adapter := {| file := NoFile; writable := true; flushes := 0 |} |}.

(** An indexer in the middle of a run. *)
Definition busyIndexer : NoteIndexer :=
  {| vectorDb := twoNotes; isIndexing := true |}.

(** A provider that counts its requests and fails the sixth to the tenth
    of them. *)
Definition flakyModel : EmbeddingModel nat :=
  fun _ n =>
    (if ((5 <=? n) && (n <? 10))%nat then Threw else Ok [1%float; 0%float], S n).

(** A vault of eleven notes, [n0.md] to [n10.md]: three batches. *)
Definition elevenFiles : list TFile :=
  map (fun k => fileOf (k ++ ".md") 10)
      ["n0"; "n1"; "n2"; "n3"; "n4"; "n5"; "n6"; "n7"; "n8"; "n9"; "n10"].

Definition elevenApp : App :=
  {| markdownFiles := elevenFiles; cachedRead := fun f => Ok (basename f) |}.

(** An empty store that is loaded, and an indexer at rest over it. *)
Definition emptyStore : VectorDatabase :=
  {| db := []; loaded := true;
     adapter := {| file := NoFile; writable := true; flushes := 0 |} |}.

Definition idleIndexer : NoteIndexer :=
  {| vectorDb := emptyStore; isIndexing := false |}.

End Examples.

(** ** Vocabulary of the store, the indexer and the text *)

(** *** The store *)

(** At most one entry for an id, stored under its id. *)
Definition wellKeyed (m : JsMap.t VectorEntry) : Prop :=
  NoDup (JsMap.keys m) /\ Forall (fun kv => fst kv = id (snd kv)) m.


(** The last entry of a list that has the id [k]. *)
Definition lastWithId (k : string) (entries : list VectorEntry) : option VectorEntry :=
  find (fun entry => String.eqb (id entry) k) (rev entries).

(** The map that setting the entries one after the other builds. *)
Definition setAll (entries : list VectorEntry) (m : JsMap.t VectorEntry)
  : JsMap.t VectorEntry :=
  fold_left (fun m entry => JsMap.set (id entry) entry m) entries m.

(** *** Indexing *)

(** One list is the other with some elements left out. *)
Inductive Subseq (A : Type) : list A -> list A -> Prop :=
| Subseq_nil : Subseq [] []
| Subseq_skip x l1 l2 : Subseq l1 l2 -> Subseq l1 (x :: l2)
| Subseq_keep x l1 l2 : Subseq l1 l2 -> Subseq (x :: l1) (x :: l2).

(** The entries made of the files read and of the embeddings of their
    texts, pair by pair: an empty embedding makes no entry. *)
Definition entriesOf (fileData : list (TFile * string))
  (embeddings : list (list float)) : list VectorEntry :=
  flat_map
    (fun fe : TFile * string * list float =>
       let '(f, text, e) := fe in
       if VectorDb.nonEmpty e then [Indexer.makeEntry f text e] else [])
    (combine fileData embeddings).

(** What identifies the version of a note: of an entry, and of a file. *)
Definition entryKey (entry : VectorEntry) : string * string * Z :=
  (id entry, title entry, modified entry).

Definition fileKey (f : TFile) : string * string * Z :=
  (path f, basename f, mtime f).

(** *** Blank lines *)

(** After [n] line feeds, no run of line feeds of the text reaches three. *)
Fixpoint blankLinesOk (n : nat) (s : string) : bool :=
  match s with
  | EmptyString => true
  | String c s' =>
      if Ascii.eqb NoteText.LF c
      then (n <? 2)%nat && blankLinesOk (S n) s'
      else blankLinesOk 0 s'
  end.

(** *** More example inputs *)


(** Five texts: one full batch. *)
Definition fiveTexts : list string :=
  ["one"; "two"; "three"; "four"; "five"]%string.

(* ================================================================== *)
(** * Part II: properties *)
(* ================================================================== *)

(** ** Loops that push onto an array *)

Section PushLoops.
Variables A B : Type.

(** A loop that pushes the elements passing a test is a [filter]. *)
Lemma fold_push_filter (test : A -> bool) (l init : list A) :
  fold_left (fun acc x => if test x then acc ++ [x] else acc) l init
  = init ++ filter test l.
Proof.
  revert init.
  induction l as [|x l IH]; intros init; simpl.
  - now rewrite app_nil_r.
  - rewrite IH. destruct (test x); simpl; [now rewrite <- app_assoc|reflexivity].
Qed.

(** A loop that pushes zero or more results per element is a [flat_map]. *)
Lemma fold_push_flat_map (f : A -> list B) (l : list A) (init : list B) :
  fold_left (fun acc x => acc ++ f x) l init = init ++ flat_map f l.
Proof.
  revert init.
  induction l as [|x l IH]; intros init; simpl.
  - now rewrite app_nil_r.
  - now rewrite IH, <- app_assoc.
Qed.

End PushLoops.

(** ** The map *)

Section MapFacts.
Variable V : Type.
Implicit Types (m : JsMap.t V) (k : string) (v : V).

Lemma get_set_same k v m : JsMap.get k (JsMap.set k v m) = Some v.
Proof.
  induction m as [|[k' v'] m IH]; simpl.
  - now rewrite String.eqb_refl.
  - destruct (String.eqb k' k) eqn:E; simpl.
    + now rewrite String.eqb_refl.
    + now rewrite E.
Qed.

Lemma get_set_other k k' v m :
  k <> k' -> JsMap.get k' (JsMap.set k v m) = JsMap.get k' m.
Proof.
  intros Hne.
  assert (Hk : String.eqb k k' = false) by now apply String.eqb_neq.
  induction m as [|[k0 v0] m IH]; simpl.
  - now rewrite Hk.
  - destruct (String.eqb k0 k) eqn:E; simpl.
    + apply String.eqb_eq in E. subst k0. now rewrite Hk.
    + now rewrite IH.
Qed.

(** Deleting a list of keys one by one keeps the entries whose key is not
    in the list, in their order. *)
Lemma delete_all (ks : list string) m :
  fold_left (fun m k => JsMap.delete k m) ks m
  = filter (fun kv => negb (existsb (String.eqb (fst kv)) ks)) m.
Proof.
  revert m.
  induction ks as [|k ks IH]; intros m; simpl.
  - induction m as [|kv m IHm]; simpl; [reflexivity|now rewrite <- IHm].
  - rewrite IH. unfold JsMap.delete.
    induction m as [|kv m IHm]; simpl; [reflexivity|].
    destruct (String.eqb (fst kv) k); simpl; [exact IHm|].
    destruct (existsb _ ks); simpl; [exact IHm|now rewrite IHm].
Qed.

Lemma get_filter_keys (keep : string -> bool) k m :
  JsMap.get k (filter (fun kv => keep (fst kv)) m)
  = if keep k then JsMap.get k m else None.
Proof.
  induction m as [|[k' v'] m IH]; simpl.
  - now destruct (keep k).
  - destruct (String.eqb k' k) eqn:E.
    + apply String.eqb_eq in E. subst k'.
      destruct (keep k) eqn:K; simpl.
      * now rewrite String.eqb_refl.
      * rewrite IH, ?K. reflexivity.
    + destruct (keep k') eqn:K'; simpl; [now rewrite E|exact IH].
Qed.

End MapFacts.

(** ** The database: loading, [addVector] and [getVector] *)

Lemma ensureLoaded_loaded s : loaded (VectorDb.ensureLoaded s) = true.
Proof.
  unfold VectorDb.ensureLoaded.
  destruct (loaded s) eqn:E; [exact E|].
  unfold VectorDb.loadDatabase. now destruct (file (adapter s)).
Qed.

Lemma ensureLoaded_idem s :
  VectorDb.ensureLoaded (VectorDb.ensureLoaded s) = VectorDb.ensureLoaded s.
Proof.
  unfold VectorDb.ensureLoaded at 1. now rewrite ensureLoaded_loaded.
Qed.

Lemma saveDatabase_db s : db (snd (VectorDb.saveDatabase s)) = db s.
Proof. unfold VectorDb.saveDatabase. now destruct (writable (adapter s)). Qed.

Lemma saveDatabase_loaded s : loaded (snd (VectorDb.saveDatabase s)) = loaded s.
Proof. unfold VectorDb.saveDatabase. now destruct (writable (adapter s)). Qed.

(** C3.  [getVector(E.id)] after [addVector(E)] returns [E], from every
    state of the database: loaded or not, whatever the file holds, and
    whether the flush of [addVector] succeeds or throws. *)
Theorem addVector_then_getVector (E : VectorEntry) (s : VectorDatabase) :
  fst (VectorDb.getVector (id E) (snd (VectorDb.addVector E s))) = Some E.
Proof.
  unfold VectorDb.getVector, VectorDb.addVector. simpl.
  set (s1 := VectorDb.with_db _ _).
  assert (L : loaded (snd (VectorDb.saveDatabase s1)) = true).
  { rewrite saveDatabase_loaded. unfold s1. simpl. apply ensureLoaded_loaded. }
  unfold VectorDb.ensureLoaded at 1. rewrite L.
  rewrite saveDatabase_db. unfold s1. simpl.
  apply get_set_same.
Qed.

(** ** [removeDeletedNotes] *)

(** The ids pushed onto [toDelete] are the keys that are not live, and
    deleting them keeps the live entries. *)
Lemma removeDeletedNotes_unfold (files : list TFile) (s : VectorDatabase) :
  let s0 := VectorDb.ensureLoaded s in
  let removed := filter (fun k => negb (live files k)) (JsMap.keys (db s0)) in
  let s1 := VectorDb.with_db (filter (fun kv => live files (fst kv)) (db s0)) s0 in
  VectorDb.removeDeletedNotes files s
  = if (0 <? List.length removed)%nat
    then match VectorDb.saveDatabase s1 with
         | (Ok _, s') => (Ok (List.length removed), s')
         | (Threw, s') => (Threw, s')
         end
    else (Ok (List.length removed), s1).
Proof.
  intros s0 removed s1.
  unfold VectorDb.removeDeletedNotes. fold s0.
  rewrite fold_push_filter. simpl.
  change (filter (fun x => negb (VectorDb.setHas (map path files) x)) (JsMap.keys (db s0)))
    with removed.
  rewrite delete_all.
  replace (filter (fun kv => negb (existsb (String.eqb (fst kv)) removed)) (db s0))
    with (filter (fun kv => live files (fst kv)) (db s0)); [reflexivity|].
  apply filter_ext_in. intros [k v] Hin. simpl.
  destruct (existsb (String.eqb k) removed) eqn:X; simpl.
  - apply existsb_exists in X. destruct X as [k' [Hk' Hq]].
    apply String.eqb_eq in Hq. subst k'.
    apply filter_In in Hk'. destruct Hk' as [_ Hk'].
    now apply negb_true_iff in Hk'.
  - destruct (live files k) eqn:L; [reflexivity|]. exfalso.
    assert (Hx : existsb (String.eqb k) removed = true).
    { apply existsb_exists. exists k. split; [|apply String.eqb_refl].
      apply filter_In. split; [|now rewrite L].
      apply in_map_iff. now exists (k, v). }
    rewrite Hx in X. discriminate.
Qed.

(** C6.  [removeDeletedNotes] keeps exactly the entries whose id is the path
    of a live file, untouched and in their order; every other id is gone.
    It returns the number of ids removed, unless the flush throws; and when
    nothing was removed it does not flush: the state is the loaded state,
    with the same file and the same number of flushes. *)
Theorem removeDeletedNotes_spec (files : list TFile) (s : VectorDatabase) :
  let s0 := VectorDb.ensureLoaded s in
  let r := VectorDb.removeDeletedNotes files s in
  let removed := filter (fun k => negb (live files k)) (JsMap.keys (db s0)) in
  db (snd r) = filter (fun kv => live files (fst kv)) (db s0)
  /\ (forall k, JsMap.get k (db (snd r))
                = if live files k then JsMap.get k (db s0) else None)
  /\ fst r = (if (0 <? List.length removed)%nat && negb (writable (adapter s0))
              then Threw else Ok (List.length removed))
  /\ (removed = [] -> r = (Ok 0, s0)).
Proof.
  intros s0 r removed.
  pose proof (removeDeletedNotes_unfold files s) as U. simpl in U.
  fold s0 in U. fold removed in U. fold r in U.
  set (s1 := VectorDb.with_db _ s0) in U.
  assert (Hdb : db (snd r) = filter (fun kv => live files (fst kv)) (db s0)).
  { rewrite U. destruct (0 <? List.length removed)%nat; [|reflexivity].
    pose proof (saveDatabase_db s1) as S.
    destruct (VectorDb.saveDatabase s1) as [[u|] s']; simpl in *; now rewrite S. }
  split; [exact Hdb|].
  split.
  { intros k. rewrite Hdb. apply (get_filter_keys (live files)). }
  split.
  - rewrite U. destruct (0 <? List.length removed)%nat; simpl; [|reflexivity].
    unfold VectorDb.saveDatabase. simpl.
    now destruct (writable (adapter s0)).
  - intros Hnil. rewrite U. rewrite Hnil. simpl.
    unfold s1. f_equal.
    assert (F : filter (fun kv => live files (fst kv)) (db s0) = db s0).
    { apply forallb_filter_id. apply forallb_forall. intros [k v] Hin. simpl.
      destruct (live files k) eqn:L; [reflexivity|]. exfalso.
      assert (Hx : In k removed).
      { apply filter_In. split; [|now rewrite L].
        apply in_map_iff. now exists (k, v). }
      rewrite Hnil in Hx. exact Hx. }
    rewrite F. unfold VectorDb.with_db. now destruct s0.
Qed.

(** ** [getModifiedNotes] *)

(** C8.  [getModifiedNotes] returns the live files, in their order, that
    have no entry in the (loaded) store or whose modification time is
    strictly greater than the [modified] of their entry: every such file and
    no other. *)
Theorem getModifiedNotes_spec (files : list TFile) (s : VectorDatabase) :
  let s0 := VectorDb.ensureLoaded s in
  let r := VectorDb.getModifiedNotes files s in
  snd r = s0
  /\ fst r = filter (VectorDb.newOrModified (db s0)) files
  /\ (forall f, In f (fst r) <->
                In f files /\
                (JsMap.get (path f) (db s0) = None \/
                 exists entry, JsMap.get (path f) (db s0) = Some entry
                               /\ (modified entry < mtime f)%Z)).
Proof.
  intros s0 r.
  assert (E : fst r = filter (VectorDb.newOrModified (db s0)) files).
  { unfold r, VectorDb.getModifiedNotes. simpl. now rewrite fold_push_filter. }
  split; [reflexivity|]. split; [exact E|].
  intros f. rewrite E, filter_In. unfold VectorDb.newOrModified.
  split; intros [Hin H]; (split; [exact Hin|]).
  - destruct (JsMap.get (path f) (db s0)) as [entry|]; [right|now left].
    exists entry. split; [reflexivity|]. now apply Z.ltb_lt.
  - destruct H as [H|[entry [H Hlt]]]; rewrite H; [reflexivity|].
    now apply Z.ltb_lt.
Qed.

(** ** The single-flight guard *)

(** C4.  While an indexing run is in progress, [indexAllNotes] returns 0 at
    once: it does not throw, and the indexer (the store with its file, and
    the flag), and the provider, are as they were. *)
Theorem indexAllNotes_single_flight (P : Type) (embedContent : EmbeddingModel P)
  (app : App) (ix : NoteIndexer) (p : P) :
  isIndexing ix = true ->
  Indexer.indexAllNotes embedContent app ix p = (Ok 0, ix, p).
Proof.
  intros H. unfold Indexer.indexAllNotes. now rewrite H.
Qed.

(** ** Strings and the matcher *)

Section TextFacts.

Import JsString Regex NoteText.
Local Open Scope string_scope.

#[local] Arguments match_at : simpl never.
#[local] Arguments isSpace : simpl never.
#[local] Arguments only : simpl never.

Ltac conj := repeat match goal with |- _ /\ _ => split end.

Lemma append_assoc (a b c : string) : (a ++ b) ++ c = a ++ (b ++ c).
Proof. induction a; simpl; [reflexivity|now rewrite IHa]. Qed.

Lemma append_nil_r (a : string) : a ++ "" = a.
Proof. induction a; simpl; [reflexivity|now rewrite IHa]. Qed.

Lemma length_append (a b : string) :
  String.length (a ++ b) = String.length a + String.length b.
Proof. induction a; simpl; [reflexivity|now rewrite IHa]. Qed.

Lemma drop_append (a b : string) : drop (String.length a) (a ++ b) = b.
Proof. induction a; simpl; [now destruct b|exact IHa]. Qed.

(** What a successful repetition has done: it took a text [u] of the class,
    at least [lo - n] long, and [k] matched what follows. *)
Lemma rep_loop_sound cls lo hi q cap k s :
  forall n acc g r,
    rep_loop cls lo hi q cap k s n acc = Some (g, r) ->
    exists u v g',
      s = u ++ v /\ allIn cls u = true /\ lo <= n + String.length u
      /\ k v = Some (g', r)
      /\ g = (if cap then Some (acc ++ u) else g').
Proof.
  induction s as [|d s IH]; intros n acc g r H.
  - simpl in H.
    assert (S : (if (lo <=? n)%nat
                 then match k "" with
                      | Some (g0, r0) => Some (if cap then Some acc else g0, r0)
                      | None => None
                      end
                 else None) = Some (g, r)).
    { destruct q; [exact H|].
      destruct (lo <=? n)%nat; [|discriminate].
      destruct (k "") as [[g0 r0]|]; [exact H|discriminate]. }
    clear H. destruct (lo <=? n)%nat eqn:L; [|discriminate].
    destruct (k "") as [[g0 r0]|] eqn:K; [|discriminate].
    inversion S; subst. exists "", "", g0.
    rewrite append_nil_r. apply Nat.leb_le in L. simpl.
    conj; rewrite ?append_nil_r; try assumption; try reflexivity; simpl; lia.
  - simpl in H.
    set (stop := if (lo <=? n)%nat
                 then match k (String d s) with
                      | Some (g0, r0) => Some (if cap then Some acc else g0, r0)
                      | None => None
                      end
                 else None) in H.
    set (more := if cls d && below n hi
                 then rep_loop cls lo hi q cap k s (S n) (acc ++ String d "")
                 else None) in H.
    assert (D : more = Some (g, r) \/ stop = Some (g, r)).
    { destruct q.
      - destruct more as [x|]; [left; exact H|right; exact H].
      - destruct stop as [x|]; [right; exact H|left; exact H]. }
    clear H. destruct D as [D|D].
    + unfold more in D. destruct (cls d && below n hi) eqn:C; [|discriminate].
      apply andb_true_iff in C. destruct C as [C _].
      apply IH in D. destruct D as (u & v & g' & -> & Hu & Hlo & Hk & Hg).
      exists (String d u), v, g'. simpl. rewrite C, Hu.
      conj; try assumption; try reflexivity; [lia|].
      rewrite Hg. destruct cap; [|reflexivity].
      now rewrite append_assoc.
    + unfold stop in D. destruct (lo <=? n)%nat eqn:L; [|discriminate].
      destruct (k (String d s)) as [[g0 r0]|] eqn:K; [|discriminate].
      inversion D; subst. exists "", (String d s), g0.
      rewrite append_nil_r. apply Nat.leb_le in L. simpl.
      conj; rewrite ?append_nil_r; try assumption; try reflexivity; simpl; lia.
Qed.

(** *** Collapsing blank lines *)


Lemma match_at_anywhere r prev s :
  anch r = Anywhere -> match_at r prev s = match_here (body r) s.
Proof. intros A. unfold match_at. now rewrite A. Qed.

Lemma replace_all_anywhere r t s :
  anch r = Anywhere ->
  forall prev k, replace_all_from r t prev k s = replace_all_from r t None k s.
Proof.
  intros A. induction s as [|c s IH]; intros prev k.
  - destruct k; simpl; [|reflexivity].
    now rewrite !match_at_anywhere by exact A.
  - destruct k; simpl; [|reflexivity].
    now rewrite !match_at_anywhere by exact A.
Qed.

Lemma collapse_prev prev k s :
  replace_all_from re_blank_lines two_lines prev k s
  = replace_all_from re_blank_lines two_lines None k s.
Proof. now apply replace_all_anywhere. Qed.

Lemma replace_all_from_zero r t prev c s :
  replace_all_from r t prev 0 (String c s)
  = match match_at r prev (String c s) with
    | Some (g, rest) =>
        expand t g ++
        match String.length (String c s) - String.length rest with
        | S k => replace_all_from r t (Some c) k s
        | O => String c (replace_all_from r t (Some c) 0 s)
        end
    | None => String c (replace_all_from r t (Some c) 0 s)
    end.
Proof. reflexivity. Qed.

(** A run of the class that is shorter than the least repetition fails. *)
Lemma rep_loop_short cls lo hi q cap k u :
  forall v n acc,
    allIn cls u = true ->
    (match v with String d _ => cls d | EmptyString => false end) = false ->
    n + String.length u < lo ->
    rep_loop cls lo hi q cap k (u ++ v) n acc = None.
Proof.
  induction u as [|c u IH]; intros v n acc Hu Hv Hlo.
  - simpl in Hlo. assert (L : (lo <=? n)%nat = false) by (apply Nat.leb_gt; lia).
    destruct v as [|d v]; simpl; rewrite ?L, ?Hv; simpl; now destruct q.
  - simpl in Hu, Hlo. apply andb_true_iff in Hu. destruct Hu as [Hc Hu].
    assert (L : (lo <=? n)%nat = false) by (apply Nat.leb_gt; lia).
    simpl. rewrite L, Hc. simpl.
    destruct (below n hi); simpl.
    + rewrite IH by (auto; lia). now destruct q.
    + now destruct q.
Qed.

Lemma blank_lines_short u v :
  allIn (only LF) u = true ->
  (match v with String d _ => only LF d | EmptyString => false end) = false ->
  String.length u < 3 ->
  match_at re_blank_lines None (u ++ v) = None.
Proof.
  intros Hu Hv Hlen. rewrite match_at_anywhere by reflexivity.
  change (match_here (body re_blank_lines) (u ++ v))
    with (rep_loop (only LF) 3 None Greedy false (match_here []) (u ++ v) 0 "").
  apply rep_loop_short; auto.
Qed.

Lemma collapse_keep c s :
  Ascii.eqb LF c = false ->
  replace_all_from re_blank_lines two_lines None 0 (String c s)
  = String c (replace_all_from re_blank_lines two_lines None 0 s).
Proof.
  intros H. rewrite replace_all_from_zero.
  assert (M : match_at re_blank_lines None (String c s) = None).
  { apply (@blank_lines_short "" (String c s)); auto. }
  rewrite M. now rewrite collapse_prev.
Qed.

Lemma collapse_keep_line c s :
  Ascii.eqb LF c = false ->
  replace_all_from re_blank_lines two_lines None 0 (String LF (String c s))
  = String LF (String c (replace_all_from re_blank_lines two_lines None 0 s)).
Proof.
  intros H. rewrite replace_all_from_zero.
  assert (M : match_at re_blank_lines None (String LF (String c s)) = None).
  { apply (@blank_lines_short (String LF "") (String c s)); auto. }
  rewrite M, collapse_prev. now rewrite collapse_keep.
Qed.

Lemma collapse_prefix u v :
  noLineFeed u = true ->
  replace_all_from re_blank_lines two_lines None 0 (u ++ v)
  = u ++ replace_all_from re_blank_lines two_lines None 0 v.
Proof.
  induction u as [|c u IH]; intros H; [reflexivity|].
  simpl in H. apply andb_true_iff in H. destruct H as [Hc Hu].
  apply negb_true_iff in Hc.
  change (String c u ++ v) with (String c (u ++ v)).
  rewrite collapse_keep by exact Hc. now rewrite IH.
Qed.

Lemma match_blank_lines s g r :
  match_here (body re_blank_lines) s = Some (g, r) ->
  exists u, s = u ++ r /\ allIn (only LF) u = true /\ 3 <= String.length u.
Proof.
  intros H. simpl in H. apply rep_loop_sound in H.
  destruct H as (u & v & g' & -> & Hu & Hlo & Hk & _).
  simpl in Hk. inversion Hk; subst. exists u. conj; auto.
Qed.

Lemma hasText_append a b : hasText (a ++ b) = hasText a || hasText b.
Proof.
  induction a as [|c a IH]; simpl; [reflexivity|].
  now rewrite IH, orb_assoc.
Qed.

Lemma hasText_line_feeds u : allIn (only LF) u = true -> hasText u = false.
Proof.
  induction u as [|c u IH]; [reflexivity|].
  cbn [allIn hasText].
  intros H. apply andb_true_iff in H. destruct H as [Hc Hu].
  unfold only in Hc. apply Ascii.eqb_eq in Hc. subst c.
  now rewrite IH.
Qed.

(** Collapsing keeps a text that has one: only line feeds are removed. *)
Lemma hasText_collapse s :
  forall k, hasText (drop k s) = true ->
            hasText (replace_all_from re_blank_lines two_lines None k s) = true.
Proof.
  induction s as [|c s IH]; intros k H.
  - destruct k; discriminate.
  - destruct k as [|k].
    + rewrite replace_all_from_zero, match_at_anywhere by reflexivity.
      rewrite !collapse_prev.
      assert (K : hasText (String c (replace_all_from re_blank_lines two_lines None 0 s))
                  = true).
      { simpl in H. simpl hasText. apply orb_true_iff in H.
        apply orb_true_iff. destruct H as [H|H]; [now left|right].
        apply (IH 0). now destruct s. }
      destruct (match_here (body re_blank_lines) (String c s)) as [[g r]|] eqn:M;
        [|exact K].
      apply match_blank_lines in M. destruct M as (u & E & Hu & Hlen).
      rewrite hasText_append.
      replace (hasText (expand two_lines g)) with false by reflexivity.
      rewrite orb_false_l.
      rewrite E, length_append, Nat.add_sub.
      destruct u as [|d u]; [simpl in Hlen; lia|].
      simpl in E. injection E as Ec Es. simpl String.length.
      cbv beta iota. rewrite (collapse_prev (Some c)).
      apply IH. rewrite Es, drop_append.
      assert (T : hasText (String d u ++ r) = true).
      { change (String d u ++ r) with (String d (u ++ r)).
        rewrite <- Ec, <- Es. exact H. }
      rewrite hasText_append in T. rewrite (hasText_line_feeds _ Hu) in T.
      exact T.
    + change (replace_all_from re_blank_lines two_lines None (S k) (String c s))
        with (replace_all_from re_blank_lines two_lines (Some c) k s).
      rewrite collapse_prev. apply IH. exact H.
Qed.

(** *** Trimming *)

Lemma isEmpty_trimEnd s : isEmpty (trimEnd s) = negb (hasText s).
Proof.
  induction s as [|c s IH]; simpl; [reflexivity|].
  rewrite IH. destruct (isSpace c), (hasText s); reflexivity.
Qed.

Lemma hasText_trimEnd s : hasText (trimEnd s) = hasText s.
Proof.
  induction s as [|c s IH]; simpl; [reflexivity|].
  rewrite isEmpty_trimEnd.
  destruct (isSpace c) eqn:Sp, (hasText s) eqn:T; simpl; rewrite ?Sp, ?IH; reflexivity.
Qed.

Lemma trimEnd_append_text u v :
  hasText v = true -> trimEnd (u ++ v) = u ++ trimEnd v.
Proof.
  intros H. induction u as [|c u IH]; simpl; [reflexivity|].
  rewrite isEmpty_trimEnd, hasText_append, H, orb_true_r. simpl.
  now rewrite andb_false_r, IH.
Qed.

Lemma hasText_endsInText u : endsInText u = true -> hasText u = true.
Proof.
  induction u as [|c u IH]; simpl; [discriminate|].
  destruct u as [|d u].
  - intros ->. reflexivity.
  - intros H. rewrite (IH H). apply orb_true_r.
Qed.

Lemma trimEnd_append_ends u v :
  endsInText u = true -> trimEnd (u ++ v) = u ++ trimEnd v.
Proof.
  induction u as [|c u IH]; [discriminate|].
  intros H. destruct u as [|d u].
  - simpl in *. apply negb_true_iff in H. now rewrite H.
  - change (String c (String d u) ++ v) with (String c (String d u ++ v)).
    change (trimEnd (String c (String d u ++ v)))
      with (let t := trimEnd (String d u ++ v) in
            if isSpace c && isEmpty t then "" else String c t).
    cbv zeta. rewrite IH by exact H.
    change (String d u ++ trimEnd v) with (String d (u ++ trimEnd v)).
    cbn [isEmpty]. now rewrite andb_false_r.
Qed.

Lemma endsInText_append a p : endsInText p = true -> endsInText (a ++ p) = true.
Proof.
  intros H. induction a as [|c a IH]; [exact H|].
  simpl. destruct (a ++ p) eqn:E; [|exact IH].
  destruct a; simpl in E; [subst p; discriminate|discriminate].
Qed.

Lemma prefix_append u v : String.prefix u (u ++ v) = true.
Proof.
  induction u as [|c u IH]; simpl; [now destruct v|].
  destruct (ascii_dec c c); [exact IH|contradiction].
Qed.

Lemma noLineFeed_append a b : noLineFeed (a ++ b) = noLineFeed a && noLineFeed b.
Proof.
  induction a as [|c a IH]; simpl; [reflexivity|].
  now rewrite IH, andb_assoc.
Qed.

(** *** [preprocessContent] *)

(** The text always starts with [Title: ] and goes on with some text. *)
Lemma preprocessContent_title c f :
  exists rest, preprocessContent c f = "Title: " ++ rest /\ hasText rest = true.
Proof.
  unfold preprocessContent, header, replace_all.
  set (text := stripMarkdown c).
  set (X := basename f ++ nl ++ "Path: " ++ path f ++ nl ++ nl ++ text).
  replace (("Title: " ++ basename f ++ nl ++ "Path: " ++ path f) ++ nl ++ nl ++ text)
    with ("Title: " ++ X)
    by (unfold X; now rewrite !append_assoc).
  change [Text (nl ++ nl)] with two_lines.
  rewrite collapse_prefix by reflexivity.
  set (C := replace_all_from re_blank_lines two_lines None 0 X).
  assert (HC : hasText C = true).
  { apply hasText_collapse. change (drop 0 X) with X. unfold X.
    rewrite !hasText_append. apply orb_true_iff. right.
    apply orb_true_iff. right. reflexivity. }
  exists (trimEnd C). split.
  - unfold trim. change (trimStart ("Title: " ++ C)) with ("Title: " ++ C).
    now apply trimEnd_append_text.
  - now rewrite hasText_trimEnd.
Qed.

(** With a plain file name the whole header stays in front. *)
Lemma preprocessContent_plain c f :
  plainName f = true ->
  exists rest, preprocessContent c f = header f ++ rest.
Proof.
  unfold plainName. intros H.
  apply andb_true_iff in H. destruct H as [H He].
  apply andb_true_iff in H. destruct H as [Hb Hp].
  unfold preprocessContent, replace_all.
  set (text := stripMarkdown c).
  change [Text (nl ++ nl)] with two_lines.
  exists (trimEnd (replace_all_from re_blank_lines two_lines None 0 (nl ++ nl ++ text))).
  assert (R : replace_all_from re_blank_lines two_lines None 0
                (header f ++ nl ++ nl ++ text)
              = header f ++
                replace_all_from re_blank_lines two_lines None 0 (nl ++ nl ++ text)).
  { unfold header.
    replace (("Title: " ++ basename f ++ nl ++ "Path: " ++ path f) ++ nl ++ nl ++ text)
      with (("Title: " ++ basename f) ++
            String LF (String "P" (("ath: " ++ path f) ++ nl ++ nl ++ text)))
      by (simpl; now rewrite !append_assoc).
    rewrite collapse_prefix by (rewrite noLineFeed_append, Hb; reflexivity).
    rewrite collapse_keep_line by reflexivity.
    rewrite collapse_prefix by (rewrite noLineFeed_append, Hp; reflexivity).
    simpl. now rewrite !append_assoc. }
  rewrite R. unfold trim.
  assert (T : trimStart (header f ++ replace_all_from re_blank_lines two_lines None 0
                                       (nl ++ nl ++ text))
              = header f ++ replace_all_from re_blank_lines two_lines None 0
                              (nl ++ nl ++ text)) by reflexivity.
  rewrite T. apply trimEnd_append_ends.
  unfold header. rewrite <- !append_assoc. now apply endsInText_append.
Qed.

Lemma preprocessContent_truthy c f : truthy (trim (preprocessContent c f)) = true.
Proof.
  destruct (preprocessContent_title c f) as (rest & -> & Hrest).
  unfold trim. change (trimStart ("Title: " ++ rest)) with ("Title: " ++ rest).
  now rewrite trimEnd_append_text.
Qed.

Lemma readBatch_from app files :
  forall init,
    fold_left
      (fun fileData f =>
         match cachedRead app f with
         | Ok c =>
             let processedContent := preprocessContent c f in
             if truthy (trim processedContent)
             then (fileData ++ [(f, processedContent)])%list
             else fileData
         | Threw => fileData
         end) files init
    = (init ++ readable app files)%list.
Proof.
  induction files as [|f files IH]; intros init.
  - simpl. now rewrite app_nil_r.
  - cbn [fold_left]. rewrite IH. unfold readable. cbn [flat_map].
    destruct (cachedRead app f) as [c|]; [|reflexivity].
    cbv zeta. rewrite preprocessContent_truthy. now rewrite <- app_assoc.
Qed.

(** No file that can be read is dropped from a batch. *)
Lemma readBatch_readable app files : Indexer.readBatch app files = readable app files.
Proof. unfold Indexer.readBatch. now rewrite readBatch_from. Qed.

(** C10, amended.  The text of [preprocessContent] always starts with
    [Title: ] and is not empty, also after [trim]; with a plain file name
    (no line feed in the base name and the path, a path that does not end in
    white space) it starts with the whole header.  So [processBatch] never
    takes the branch that discards a document: every file that can be read
    stays in the batch. *)
Theorem preprocessContent_keeps_every_document :
  (forall c f,
      startsWith "Title: " (preprocessContent c f) = true
      /\ truthy (trim (preprocessContent c f)) = true
      /\ (plainName f = true ->
          startsWith (header f) (preprocessContent c f) = true))
  /\ (forall app files, Indexer.readBatch app files = readable app files).
Proof.
  split.
  - intros c f. split; [|split].
    + destruct (preprocessContent_title c f) as (rest & -> & _).
      apply prefix_append.
    + apply preprocessContent_truthy.
    + intros H. destruct (@preprocessContent_plain c f H) as (rest & ->).
      apply prefix_append.
  - exact readBatch_readable.
Qed.

(** *** Tags *)

Lemma dedupe_from tags :
  forall seen,
    NoDup seen ->
    let r := fold_left
               (fun seen t =>
                  if existsb (String.eqb t) seen then seen else (seen ++ [t])%list)
               tags seen in
    NoDup r /\ (forall x, In x r <-> In x seen \/ In x tags).
Proof.
  induction tags as [|t tags IH]; intros seen Hs; simpl.
  - split; [exact Hs|]. intros x. tauto.
  - destruct (existsb (String.eqb t) seen) eqn:E.
    + destruct (IH seen Hs) as [N I]. split; [exact N|].
      intros x. rewrite I. split; [tauto|].
      intros [H|[H|H]]; auto. subst x. left.
      apply existsb_exists in E. destruct E as [y [Hy Hq]].
      apply String.eqb_eq in Hq. now subst y.
    + assert (Hn : ~ In t seen).
      { intros Hin. assert (X : existsb (String.eqb t) seen = true).
        { apply existsb_exists. exists t. split; [exact Hin|apply String.eqb_refl]. }
        rewrite X in E. discriminate. }
      assert (Hs' : NoDup (seen ++ [t])).
      { apply NoDup_app; [exact Hs|repeat constructor; auto|].
        intros x Hx [Hy|[]]. subst x. contradiction. }
      destruct (IH (seen ++ [t])%list Hs') as [N I]. split; [exact N|].
      intros x. rewrite I, in_app_iff. simpl. tauto.
Qed.

Lemma dedupe_spec tags :
  NoDup (dedupe tags) /\ (forall x, In x (dedupe tags) <-> In x tags).
Proof.
  destruct (@dedupe_from tags [] (NoDup_nil _)) as [N I].
  split; [exact N|]. intros x. rewrite (I x). simpl. tauto.
Qed.

(** [extractTags] has no duplicate and holds the hashtags of the text and
    the tags of its front matter, and nothing else. *)
Lemma extractTags_spec text :
  NoDup (extractTags text)
  /\ (forall x, In x (extractTags text)
                <-> In x (hashtags text) \/ In x (frontmatterTags text)).
Proof.
  unfold extractTags. destruct (dedupe_spec (hashtags text ++ frontmatterTags text)) as [N I].
  split; [exact N|]. intros x. now rewrite I, in_app_iff.
Qed.

(** A pattern anchored at the start of the input matches nowhere else. *)
Lemma exec_from_input_start r c s :
  anch r = InputStart -> exec_from r (Some c) s = None.
Proof.
  intros A. revert c. induction s as [|d s IH]; intros c; simpl.
  - unfold match_at. now rewrite A.
  - unfold match_at. rewrite A. simpl. now rewrite IH.
Qed.

(** The text of [preprocessContent] never starts with a front-matter block:
    [extractTags] finds no front-matter tag in it. *)
Lemma frontmatterTags_preprocessContent c f :
  frontmatterTags (preprocessContent c f) = [].
Proof.
  destruct (preprocessContent_title c f) as (rest & -> & _).
  unfold frontmatterTags, exec.
  change ("Title: " ++ rest) with (String "T" ("itle: " ++ rest)).
  cbn [exec_from]. unfold match_at at 1. cbn.
  now rewrite exec_from_input_start.
Qed.

Lemma extractTags_preprocessContent c f :
  extractTags (preprocessContent c f) = dedupe (hashtags (preprocessContent c f)).
Proof.
  unfold extractTags. now rewrite frontmatterTags_preprocessContent, app_nil_r.
Qed.

(** *** Hashtags *)

(** A greedy repetition without upper bound takes the whole run of the
    class when what follows matches after it. *)
Lemma rep_loop_greedy cls lo cap k u :
  forall v n acc g r,
    allIn cls u = true -> stopsAt cls v = true ->
    lo <= n + String.length u ->
    k v = Some (g, r) ->
    rep_loop cls lo None Greedy cap k (u ++ v) n acc
    = Some (if cap then Some (acc ++ u) else g, r).
Proof.
  induction u as [|c u IH]; intros v n acc g r Hu Hv Hlo Hk.
  - simpl in Hlo. assert (L : (lo <=? n)%nat = true) by (apply Nat.leb_le; lia).
    rewrite append_nil_r.
    destruct v as [|d v]; simpl in *.
    + now rewrite L, Hk.
    + apply negb_true_iff in Hv. now rewrite Hv, L, Hk.
  - simpl in Hu, Hlo. apply andb_true_iff in Hu. destruct Hu as [Hc Hu].
    simpl. rewrite Hc. simpl.
    rewrite (IH v (S n) (acc ++ String c "") g r) by (auto; lia).
    now rewrite append_assoc.
Qed.

Lemma hashtag_here t post :
  t <> "" -> allIn isTagChar t = true -> stopsAt isTagChar post = true ->
  match_here (body re_hashtag) ("#" ++ t ++ post) = Some (None, post).
Proof.
  intros Ht Ha Hp.
  change (match_here (body re_hashtag) ("#" ++ t ++ post))
    with (rep_loop isTagChar 1 None Greedy false (match_here []) (t ++ post) 0 "").
  rewrite (@rep_loop_greedy isTagChar 1 false (match_here []) t post 0 "" None post);
    auto.
  destruct t; [contradiction|simpl; lia].
Qed.

(** A match of the hashtag pattern is [#] and a run of tag characters. *)
Lemma hashtag_match s g r :
  match_here (body re_hashtag) s = Some (g, r) ->
  exists u, s = "#" ++ u ++ r /\ allIn isTagChar u = true.
Proof.
  intros H. destruct s as [|c s]; [discriminate|].
  change (match_here (body re_hashtag) (String c s))
    with (if Ascii.eqb "#" c
          then rep_loop isTagChar 1 None Greedy false (match_here []) s 0 ""
          else None) in H.
  destruct (Ascii.eqb "#" c) eqn:E; [|discriminate].
  apply Ascii.eqb_eq in E. subst c.
  apply rep_loop_sound in H. destruct H as (u & v & g' & -> & Hu & _ & Hk & _).
  simpl in Hk. inversion Hk; subst. now exists u.
Qed.

Lemma match_all_from_zero r prev c s :
  match_all_from r prev 0 (String c s)
  = match match_at r prev (String c s) with
    | Some (_, rest) =>
        matched (String c s) rest ::
        match String.length (String c s) - String.length rest with
        | S k => match_all_from r (Some c) k s
        | O => match_all_from r (Some c) 0 s
        end
    | None => match_all_from r (Some c) 0 s
    end.
Proof. reflexivity. Qed.

Lemma hashtag_length u v :
  String.length ("#" ++ u ++ v) - String.length v = S (String.length u).
Proof.
  change ("#" ++ u ++ v) with (String "#" (u ++ v)).
  cbn [String.length]. rewrite length_append. lia.
Qed.

Lemma take_append u v : take (String.length u) (u ++ v) = u.
Proof. induction u as [|c u IH]; simpl; [now destruct v|now rewrite IH]. Qed.

(** Every hashtag of a text is found: a [#] followed by a run of tag
    characters that ends the text or is followed by another character. *)
Lemma hashtags_found pre t post :
  t <> "" -> allIn isTagChar t = true -> stopsAt isTagChar post = true ->
  In t (hashtags (pre ++ "#" ++ t ++ post)).
Proof.
  intros Ht Ha Hp. unfold hashtags, match_all.
  assert (G : forall prev skip,
             allIn isTagChar (take skip (pre ++ "#" ++ t ++ post)) = true ->
             In t (map (drop 1)
                       (match_all_from re_hashtag prev skip (pre ++ "#" ++ t ++ post)))).
  { induction pre as [|c pre IH]; intros prev skip Hs.
    - destruct skip as [|skip]; [|discriminate].
      change ("" ++ "#" ++ t ++ post) with (String "#" (t ++ post)).
      rewrite match_all_from_zero, match_at_anywhere by reflexivity.
      change (String "#" (t ++ post)) with ("#" ++ t ++ post).
      rewrite (@hashtag_here t post Ht Ha Hp). left.
      unfold matched.
      rewrite (hashtag_length t post).
      replace ("#" ++ t ++ post) with (("#" ++ t) ++ post) by reflexivity.
      change (S (String.length t)) with (String.length ("#" ++ t)).
      now rewrite take_append.
    - change (String c pre ++ "#" ++ t ++ post)
        with (String c (pre ++ "#" ++ t ++ post)) in *.
      destruct skip as [|skip].
      + rewrite match_all_from_zero, match_at_anywhere by reflexivity.
        destruct (match_here (body re_hashtag) (String c (pre ++ "#" ++ t ++ post)))
          as [[g r]|] eqn:M; [|now apply IH].
        apply hashtag_match in M. destruct M as (u & E & Hu).
        right.
        assert (L : String.length (String c (pre ++ "#" ++ t ++ post)) - String.length r
                    = S (String.length u))
          by (rewrite E; apply hashtag_length).
        rewrite L. apply IH.
        change ("#" ++ u ++ r) with (String "#" (u ++ r)) in E.
        injection E as _ E.
        replace (pre ++ "#" ++ t ++ post) with (u ++ r) by (symmetry; exact E).
        now rewrite take_append.
      + simpl in Hs. apply andb_true_iff in Hs.
        change (match_all_from re_hashtag prev (S skip)
                  (String c (pre ++ "#" ++ t ++ post)))
          with (match_all_from re_hashtag (Some c) skip (pre ++ "#" ++ t ++ post)).
        now apply IH. }
  now apply G.
Qed.

(** So [extractTags] holds every hashtag of its text. *)
Lemma extractTags_hashtag pre t post :
  t <> "" -> allIn isTagChar t = true -> stopsAt isTagChar post = true ->
  In t (extractTags (pre ++ "#" ++ t ++ post)).
Proof.
  intros Ht Ha Hp. apply (proj2 (extractTags_spec _)). left.
  exact (@hashtags_found pre t post Ht Ha Hp).
Qed.

End TextFacts.

(** ** Batches and the indexing run *)

Section ArrayFacts.
Variable A : Type.

Lemma batches_nil fuel size : JsArray.batches fuel size (@nil A) = [].
Proof. now destruct fuel. Qed.

(** An array of at most [size] elements, not empty, is one batch. *)
Lemma batchesOf_small size (a : list A) :
  1 <= List.length a <= size -> JsArray.batchesOf size a = [a].
Proof.
  intros [H1 H2]. unfold JsArray.batchesOf.
  destruct a as [|x a]; [simpl in H1; lia|].
  cbn [List.length JsArray.batches].
  rewrite firstn_all2 by exact H2.
  rewrite skipn_all2 by exact H2.
  now rewrite batches_nil.
Qed.

(** No batch is longer than [size]. *)
Lemma batches_length fuel size (a : list A) :
  Forall (fun b => List.length b <= size) (JsArray.batches fuel size a).
Proof.
  revert a. induction fuel as [|fuel IH]; intros a; simpl; [constructor|].
  destruct a as [|x a]; [constructor|].
  constructor; [|apply IH].
  rewrite length_firstn. apply Nat.le_min_l.
Qed.

Lemma fold_left_unchanged (B : Type) (step : B -> A -> B) (l : list A) (init : B) :
  (forall acc x, In x l -> step acc x = acc) -> fold_left step l init = init.
Proof.
  induction l as [|x l IH]; intros H; simpl; [reflexivity|].
  rewrite H by now left. apply IH. intros acc y Hy. apply H. now right.
Qed.

Lemma fold_left_invariant (B : Type) (Inv : B -> Prop) (step : B -> A -> B)
  (l : list A) (init : B) :
  (forall acc x, Inv acc -> Inv (step acc x)) -> Inv init ->
  Inv (fold_left step l init).
Proof.
  intros H. revert init. induction l as [|x l IH]; intros init Hi; simpl; auto.
Qed.

End ArrayFacts.

Section IndexerFacts.
Variable P : Type.
Variable embedContent : EmbeddingModel P.
Variable app : App.

Lemma generateEmbeddings_one_batch texts p :
  1 <= List.length texts <= 5 ->
  Gemini.generateEmbeddings embedContent texts p
  = Gemini.embedBatch embedContent texts p.
Proof.
  intros H. unfold Gemini.generateEmbeddings.
  rewrite batchesOf_small by exact H. simpl.
  now destruct (Gemini.embedBatch embedContent texts p).
Qed.

Lemma embedBatch_rejects texts p :
  batchRejects embedContent texts p = true ->
  fst (Gemini.embedBatch embedContent texts p) = map (fun _ => []) texts.
Proof.
  unfold batchRejects, Gemini.embedBatch.
  destruct (Gemini.issueAll embedContent texts p) as [os p']. simpl.
  now destruct (Gemini.promiseAll os).
Qed.

(** Empty embeddings make no entry. *)
Lemma makeEntries_empty fileData embeddings :
  Forall (fun e => e = []) embeddings ->
  Indexer.makeEntries fileData embeddings = [].
Proof.
  intros H. unfold Indexer.makeEntries.
  apply fold_left_unchanged. intros acc [i [f text]] _.
  destruct (nth_error embeddings i) as [e|] eqn:E; [|reflexivity].
  apply nth_error_In in E. rewrite Forall_forall in H.
  now rewrite (H e E).
Qed.

(** Every entry made has a non-empty embedding. *)
Lemma makeEntries_nonEmpty fileData embeddings :
  Forall (fun entry => embedding entry <> []) (Indexer.makeEntries fileData embeddings).
Proof.
  unfold Indexer.makeEntries. apply fold_left_invariant; [|constructor].
  intros acc [i [f text]] Hacc.
  destruct (nth_error embeddings i) as [e|]; [|exact Hacc].
  destruct e as [|x e]; [exact Hacc|]. simpl.
  apply Forall_app. split; [exact Hacc|].
  constructor; [|constructor]. simpl. discriminate.
Qed.

Lemma processBatch_nonEmpty files p :
  Forall (fun entry => embedding entry <> [])
         (fst (Indexer.processBatch embedContent app files p)).
Proof.
  unfold Indexer.processBatch.
  destruct (Indexer.readBatch app files) as [|fd fileData]; [constructor|].
  destruct (Gemini.generateEmbeddings _ _ _) as [embeddings p'].
  apply makeEntries_nonEmpty.
Qed.

Lemma readBatch_length files :
  List.length (Indexer.readBatch app files) <= List.length files.
Proof.
  rewrite readBatch_readable.
  unfold readable. induction files as [|f files IH]; simpl; [lia|].
  rewrite length_app. destruct (cachedRead app f); simpl; lia.
Qed.

(** A batch of at most 5 files whose requests fail makes no entry. *)
Lemma processBatch_rejects batch p :
  List.length batch <= 5 ->
  batchRejects embedContent (map snd (Indexer.readBatch app batch)) p = true ->
  fst (Indexer.processBatch embedContent app batch p) = [].
Proof.
  intros Hlen Hrej. unfold Indexer.processBatch.
  pose proof (readBatch_length batch) as L.
  destruct (Indexer.readBatch app batch) as [|fd fileData] eqn:E; [reflexivity|].
  rewrite generateEmbeddings_one_batch
    by (rewrite length_map; simpl in *; lia).
  pose proof (embedBatch_rejects _ _ Hrej) as R.
  destruct (Gemini.embedBatch _ _ _) as [embeddings p']. simpl in *. subst embeddings.
  apply makeEntries_empty.
  constructor; [reflexivity|]. apply Forall_map. now apply Forall_forall.
Qed.

Lemma runBatches_from batches :
  forall entries indexed p,
    fold_left
      (fun (st : list VectorEntry * nat * P) batch =>
         let '(entries, indexed, p) := st in
         let (batchEntries, p') := Indexer.processBatch embedContent app batch p in
         ((entries ++ batchEntries)%list, indexed + List.length batchEntries, p'))
      batches (entries, indexed, p)
    = let '(es, n, p') := Indexer.runBatches embedContent app batches p in
      ((entries ++ es)%list, indexed + n, p').
Proof.
  unfold Indexer.runBatches.
  induction batches as [|b batches IH]; intros entries indexed p.
  - simpl. now rewrite app_nil_r, Nat.add_0_r.
  - cbn [fold_left].
    destruct (Indexer.processBatch embedContent app b p) as [es1 p1].
    rewrite (IH (entries ++ es1)%list), (IH ([] ++ es1)%list).
    destruct (fold_left _ batches ([], 0, p1)) as [[es n] p'].
    simpl. rewrite app_assoc. f_equal. f_equal. lia.
Qed.

Lemma runBatches_cons batch batches p :
  Indexer.runBatches embedContent app (batch :: batches) p
  = let (es1, p1) := Indexer.processBatch embedContent app batch p in
    let '(es, n, p') := Indexer.runBatches embedContent app batches p1 in
    ((es1 ++ es)%list, List.length es1 + n, p').
Proof.
  unfold Indexer.runBatches at 1. cbn [fold_left].
  destruct (Indexer.processBatch embedContent app batch p) as [es1 p1].
  now rewrite runBatches_from.
Qed.

Lemma runBatches_app before after p :
  Indexer.runBatches embedContent app (before ++ after) p
  = let '(es1, n1, p1) := Indexer.runBatches embedContent app before p in
    let '(es2, n2, p2) := Indexer.runBatches embedContent app after p1 in
    ((es1 ++ es2)%list, n1 + n2, p2).
Proof.
  revert p. induction before as [|b before IH]; intros p.
  - simpl. now destruct (Indexer.runBatches embedContent app after p) as [[es n] p'].
  - change ((b :: before) ++ after) with (b :: (before ++ after)).
    rewrite !runBatches_cons.
    destruct (Indexer.processBatch embedContent app b p) as [es0 p0].
    rewrite IH.
    destruct (Indexer.runBatches embedContent app before p0) as [[es1 n1] p1].
    destruct (Indexer.runBatches embedContent app after p1) as [[es2 n2] p2].
    rewrite app_assoc. f_equal. f_equal. lia.
Qed.

Lemma runBatches_nonEmpty batches p :
  Forall (fun entry => embedding entry <> [])
         (fst (fst (Indexer.runBatches embedContent app batches p))).
Proof.
  revert p. induction batches as [|b batches IH]; intros p; [constructor|].
  rewrite runBatches_cons.
  pose proof (processBatch_nonEmpty b p) as Hb.
  destruct (Indexer.processBatch embedContent app b p) as [es1 p1].
  specialize (IH p1).
  destruct (Indexer.runBatches embedContent app batches p1) as [[es n] p'].
  simpl in *. apply Forall_app. now split.
Qed.

Lemma ensureLoaded_adapter s : adapter (VectorDb.ensureLoaded s) = adapter s.
Proof.
  unfold VectorDb.ensureLoaded, VectorDb.loadDatabase.
  destruct (loaded s); [reflexivity|]. now destruct (file (adapter s)).
Qed.

Lemma saveDatabase_writable s :
  writable (adapter s) = true ->
  fst (VectorDb.saveDatabase s) = Ok tt
  /\ writable (adapter (snd (VectorDb.saveDatabase s))) = true.
Proof. intros H. unfold VectorDb.saveDatabase. rewrite H. simpl. now split. Qed.

Lemma removeDeletedNotes_writable files s :
  writable (adapter s) = true ->
  (exists n, fst (VectorDb.removeDeletedNotes files s) = Ok n)
  /\ writable (adapter (snd (VectorDb.removeDeletedNotes files s))) = true.
Proof.
  intros H. rewrite removeDeletedNotes_unfold. cbv zeta.
  set (removed := filter _ _). set (s1 := VectorDb.with_db _ _).
  assert (W : writable (adapter s1) = true).
  { unfold s1. simpl. now rewrite ensureLoaded_adapter. }
  destruct (0 <? List.length removed)%nat.
  - destruct (saveDatabase_writable _ W) as [F S].
    destruct (VectorDb.saveDatabase s1) as [[u|] s']; simpl in *; [|discriminate].
    split; [now eexists|exact S].
  - simpl. split; [now eexists|exact W].
Qed.

Lemma addVectors_writable entries s :
  writable (adapter s) = true ->
  fst (VectorDb.addVectors entries s) = Ok tt.
Proof.
  intros H. unfold VectorDb.addVectors. apply saveDatabase_writable.
  simpl. now rewrite ensureLoaded_adapter.
Qed.

(** C5.  A failure of the provider in a batch of [indexAllNotes] is caught:
    the batch makes no entry (A); no entry that a run makes has an empty
    embedding (B); the run goes on with the batches after the failing one,
    and gathers the entries of the batches before and after it (C); and
    with a writable store the run returns the number of entries made and
    commits them all at the end, whatever the provider did (D). *)
Theorem provider_failure_skips_batch :
  (forall batch p,
      List.length batch <= 5 ->
      batchRejects embedContent (map snd (Indexer.readBatch app batch)) p = true ->
      fst (Indexer.processBatch embedContent app batch p) = [])
  /\ (forall batches p,
         Forall (fun entry => embedding entry <> [])
                (fst (fst (Indexer.runBatches embedContent app batches p))))
  /\ (forall files before batch after p,
         JsArray.batchesOf 5 files = before ++ batch :: after ->
         let '(es1, n1, p1) := Indexer.runBatches embedContent app before p in
         batchRejects embedContent (map snd (Indexer.readBatch app batch)) p1 = true ->
         let p2 := snd (Indexer.processBatch embedContent app batch p1) in
         let '(es3, n3, p3) := Indexer.runBatches embedContent app after p2 in
         Indexer.runBatches embedContent app (JsArray.batchesOf 5 files) p
         = (es1 ++ es3, n1 + n3, p3))
  /\ (forall ix p,
         isIndexing ix = false ->
         writable (adapter (vectorDb ix)) = true ->
         let s0 := snd (VectorDb.removeDeletedNotes (markdownFiles app) (vectorDb ix)) in
         let '(entries, indexed, p') :=
           Indexer.runBatches embedContent app
             (JsArray.batchesOf 5 (markdownFiles app)) p in
         Indexer.indexAllNotes embedContent app ix p
         = (Ok indexed,
            Indexer.idle match entries with
                         | [] => s0
                         | _ :: _ => snd (VectorDb.addVectors entries s0)
                         end,
            p')).
Proof.
  split; [exact processBatch_rejects|].
  split; [exact runBatches_nonEmpty|].
  split.
  - intros files before batch after p E.
    rewrite E, runBatches_app.
    destruct (Indexer.runBatches embedContent app before p) as [[es1 n1] p1].
    intros Hrej. cbv zeta.
    rewrite runBatches_cons.
    assert (Hlen : List.length batch <= 5).
    { pose proof (batches_length (List.length files) 5 files) as F.
      fold (JsArray.batchesOf 5 files) in F. rewrite E in F.
      apply Forall_app in F. destruct F as [_ F]. now inversion F. }
    pose proof (processBatch_rejects batch p1 Hlen Hrej) as Z.
    destruct (Indexer.processBatch embedContent app batch p1) as [es2 p2].
    simpl in Z. subst es2. simpl.
    now destruct (Indexer.runBatches embedContent app after p2) as [[es3 n3] p3].
  - intros ix p Hidle Hw. cbv zeta.
    unfold Indexer.indexAllNotes. rewrite Hidle.
    destruct (removeDeletedNotes_writable (markdownFiles app) _ Hw) as [[n Hn] W].
    destruct (VectorDb.removeDeletedNotes (markdownFiles app) (vectorDb ix))
      as [[n'|] s0]; simpl in Hn, W; [|discriminate]. simpl snd.
    destruct (markdownFiles app) as [|f files] eqn:F; [reflexivity|].
    cbn [List.length Nat.eqb].
    destruct (Indexer.runBatches embedContent app (JsArray.batchesOf 5 (f :: files)) p)
      as [[entries indexed] p'].
    destruct entries as [|entry entries]; [reflexivity|].
    cbn [List.length Nat.ltb Nat.leb].
    pose proof (addVectors_writable (entry :: entries) _ W) as A.
    now destruct (VectorDb.addVectors (entry :: entries) s0) as [[u|] s'].
Qed.

End IndexerFacts.

(** ** Binary64 numbers *)

Section FloatFacts.

Local Open Scope float_scope.

(** Multiplication of binary64 numbers is commutative. *)
Lemma SFmul_comm x y : SF64mul x y = SF64mul y x.
Proof.
  unfold SF64mul, SFmul.
  destruct x as [sx|sx| |sx mx ex], y as [sy|sy| |sy my ey];
    try reflexivity; try (now rewrite xorb_comm).
  now rewrite xorb_comm, Pos.mul_comm, Z.add_comm.
Qed.

Lemma mul_comm (x y : float) : x * y = y * x.
Proof. apply Prim2SF_inj. now rewrite !FloatAxioms.mul_spec, SFmul_comm. Qed.

(** A number equal to 0 is one of the two zeros. *)
Lemma eqb_zero (x : float) : (x =? 0) = true -> x = 0 \/ x = (-0).
Proof.
  rewrite FloatAxioms.eqb_spec. intros H.
  assert (Z : exists s, Prim2SF x = S754_zero s).
  { change (Prim2SF 0) with (S754_zero false) in H.
    unfold SFeqb, SFcompare in H.
    destruct (Prim2SF x) as [s|s| |s m e]; try discriminate; [now exists s| |].
    - now destruct s.
    - now destruct s. }
  destruct Z as [s Z].
  destruct s; [right|left]; apply Prim2SF_inj; rewrite Z; reflexivity.
Qed.

Lemma square_zero (x : float) : (x =? 0) = true -> x * x = 0.
Proof. intros H. destruct (@eqb_zero x H) as [-> | ->]; reflexivity. Qed.

End FloatFacts.

Section FloatOrder.

Local Open Scope Z_scope.

Lemma SFcompare_key x y :
  x <> S754_nan -> y <> S754_nan ->
  SFcompare x y = Some (lex3 (SFkey x) (SFkey y)).
Proof.
  intros Hx Hy.
  destruct x as [sx|sx| |sx mx ex], y as [sy|sy| |sy my ey];
    try contradiction; try (now destruct sx); try (now destruct sy);
    try (now destruct sx, sy).
  destruct sx, sy; try reflexivity; unfold SFcompare, SFkey, lex3.
  rewrite Z.compare_refl, (Z.compare_opp ex ey), (Z.compare_antisym ex ey).
  now destruct (ex ?= ey).
Qed.

Lemma lex3_spec a b :
  match lex3 a b with
  | Lt => lt3 a b
  | Eq => a = b
  | Gt => lt3 b a
  end.
Proof.
  destruct a as [[a1 a2] a3], b as [[b1 b2] b3]. unfold lex3, lt3.
  destruct (Z.compare_spec a1 b1); [|lia|lia].
  destruct (Z.compare_spec a2 b2); [|lia|lia].
  destruct (Z.compare_spec a3 b3); [|lia|lia].
  now subst.
Qed.

Lemma lt3_irrefl a : ~ lt3 a a.
Proof. destruct a as [[a1 a2] a3]. unfold lt3. lia. Qed.

Lemma lt3_trans a b c : lt3 a b -> lt3 b c -> lt3 a c.
Proof.
  destruct a as [[a1 a2] a3], b as [[b1 b2] b3], c as [[c1 c2] c3].
  unfold lt3. lia.
Qed.

Lemma lt3_asym a b : lt3 a b -> ~ lt3 b a.
Proof. intros H H'. exact (@lt3_irrefl a (@lt3_trans a b a H H')). Qed.

Local Open Scope float_scope.

Lemma is_nan_spec (x : float) : is_nan x = true <-> Prim2SF x = S754_nan.
Proof.
  unfold is_nan. rewrite FloatAxioms.eqb_spec. unfold SFeqb.
  destruct (Prim2SF x) as [s|s| |s m e]; simpl.
  - split; discriminate.
  - destruct s; split; discriminate.
  - split; reflexivity.
  - destruct s; rewrite Z.compare_refl, Pos.compare_cont_refl; split; discriminate.
Qed.

Lemma not_nan (x : float) : is_nan x = false -> Prim2SF x <> S754_nan.
Proof. intros H E. apply is_nan_spec in E. rewrite E in H. discriminate. Qed.

(** The three comparisons of two numbers: by their keys, and all false when
    one of the two is NaN. *)
Lemma compare_cases (x y : float) :
  (lt3 (key x) (key y)
   /\ (x <? y) = true /\ (x <=? y) = true /\ (x =? y) = false
   /\ is_nan x = false /\ is_nan y = false)
  \/ (key x = key y
      /\ (x <? y) = false /\ (x <=? y) = true /\ (x =? y) = true
      /\ is_nan x = false /\ is_nan y = false)
  \/ (lt3 (key y) (key x)
      /\ (x <? y) = false /\ (x <=? y) = false /\ (x =? y) = false
      /\ is_nan x = false /\ is_nan y = false)
  \/ ((is_nan x = true \/ is_nan y = true)
      /\ (x <? y) = false /\ (x <=? y) = false /\ (x =? y) = false).
Proof.
  rewrite FloatAxioms.ltb_spec, FloatAxioms.leb_spec, FloatAxioms.eqb_spec.
  unfold SFltb, SFleb, SFeqb, key.
  destruct (is_nan x) eqn:Hx.
  { right. right. right. apply is_nan_spec in Hx. rewrite Hx. simpl. auto. }
  destruct (is_nan y) eqn:Hy.
  { right. right. right. apply is_nan_spec in Hy. rewrite Hy.
    destruct (Prim2SF x); simpl; auto. }
  rewrite (@SFcompare_key _ _ (@not_nan x Hx) (@not_nan y Hy)).
  pose proof (lex3_spec (SFkey (Prim2SF x)) (SFkey (Prim2SF y))) as L.
  destruct (lex3 (SFkey (Prim2SF x)) (SFkey (Prim2SF y))); auto 12.
Qed.

Ltac by_keys :=
  unfold lt3 in *;
  repeat match goal with
         | H : (_, _, _) = (_, _, _) |- _ => inversion H; clear H
         end;
  subst; lia.

Ltac cases x y :=
  let K := fresh "K" in
  destruct (compare_cases x y)
    as [(K & ? & ? & ? & ? & ?)|[(K & ? & ? & ? & ? & ?)|
        [(K & ? & ? & ? & ? & ?)|(K & ? & ? & ?)]]];
  try congruence; try (destruct K; congruence).

Lemma leb_trans (x y z : float) :
  (x <=? y) = true -> (y <=? z) = true -> (x <=? z) = true.
Proof.
  intros H1 H2. cases x y; cases y z; cases x z;
    exfalso;
    destruct (key x) as [[x1 x2] x3], (key y) as [[y1 y2] y3],
             (key z) as [[z1 z2] z3]; by_keys.
Qed.

Lemma ltb_leb (x y : float) : (x <? y) = true -> (x <=? y) = true.
Proof. intros H. cases x y. Qed.

Lemma ltb_false_leb (x y : float) :
  is_nan x = false -> is_nan y = false ->
  (x <? y) = false -> (y <=? x) = true.
Proof.
  intros Hx Hy H. cases x y; cases y x;
    exfalso;
    destruct (key x) as [[x1 x2] x3], (key y) as [[y1 y2] y3]; by_keys.
Qed.

(** A number below another is not tied with what the other is tied with. *)
Lemma ltb_tie (x y v : float) :
  (x <? y) = true -> (x =? v) = true -> (y =? v) = false.
Proof.
  intros H1 H2. cases x y; cases x v; cases y v;
    exfalso;
    destruct (key x) as [[x1 x2] x3], (key y) as [[y1 y2] y3],
             (key v) as [[v1 v2] v3]; by_keys.
Qed.

Lemma leb_antisym (x y : float) :
  (x <=? y) = true -> (y <=? x) = true -> (x =? y) = true.
Proof.
  intros H1 H2. cases x y; cases y x; exfalso;
    destruct (key x) as [[x1 x2] x3], (key y) as [[y1 y2] y3]; by_keys.
Qed.

Lemma leb_refl (x : float) : is_nan x = false -> (x <=? x) = true.
Proof.
  intros H. cases x x. exfalso.
  destruct (key x) as [[x1 x2] x3]; by_keys.
Qed.

Lemma eqb_refl (x : float) : is_nan x = false -> (x =? x) = true.
Proof. unfold is_nan. now intros H%negb_false_iff. Qed.

End FloatOrder.

Section SubSign.

Local Open Scope Z_scope.

Lemma digits2_bounds m :
  2 ^ (Zpos (digits2_pos m) - 1) <= Zpos m < 2 ^ Zpos (digits2_pos m).
Proof.
  induction m as [m IH|m IH|]; simpl digits2_pos.
  - rewrite Pos2Z.inj_succ.
    replace (Z.succ (Zpos (digits2_pos m)) - 1) with (Z.succ (Zpos (digits2_pos m) - 1)) by lia.
    rewrite !Z.pow_succ_r by lia. lia.
  - rewrite Pos2Z.inj_succ.
    replace (Z.succ (Zpos (digits2_pos m)) - 1) with (Z.succ (Zpos (digits2_pos m) - 1)) by lia.
    rewrite !Z.pow_succ_r by lia. lia.
  - simpl. lia.
Qed.

Lemma iter_xO m d : Zpos (Pos.iter xO m d) = Zpos m * 2 ^ Zpos d.
Proof.
  induction d as [|d IH] using Pos.peano_ind.
  - simpl. lia.
  - rewrite Pos.iter_succ, Pos2Z.inj_succ, Z.pow_succ_r by lia.
    rewrite Pos2Z.inj_xO, IH. lia.
Qed.

Lemma shl_align_value m e ez :
  ez <= e ->
  Zpos (fst (shl_align m e ez)) = Zpos m * 2 ^ (e - ez).
Proof.
  intros H. unfold shl_align.
  destruct (ez - e) as [|p|p] eqn:E.
  - replace (e - ez) with 0 by lia. simpl. lia.
  - lia.
  - replace (e - ez) with (Zpos p) by lia. simpl fst. apply iter_xO.
Qed.

Lemma bounded_facts m e :
  bounded prec emax m e = true ->
  emin <= e /\ Zpos (digits2_pos m) <= 53
  /\ (emin < e -> Zpos (digits2_pos m) = 53).
Proof.
  unfold bounded, canonical_mantissa, fexp, SpecFloat.emin, prec, emax.
  intros H. apply andb_true_iff in H. destruct H as [H _].
  apply Z.eqb_eq in H. lia.
Qed.

(** Two valid positive numbers, aligned on the smaller exponent, compare as
    their exponents and mantissas do. *)
Lemma aligned_lt mx ex my ey :
  bounded prec emax mx ex = true -> bounded prec emax my ey = true ->
  ex < ey ->
  Zpos mx * 2 ^ (ex - Z.min ex ey) < Zpos my * 2 ^ (ey - Z.min ex ey).
Proof.
  intros Bx By H.
  destruct (bounded_facts _ _ Bx) as (Ex & Dx & _).
  destruct (bounded_facts _ _ By) as (Ey & _ & Dy).
  rewrite Z.min_l by lia. rewrite Z.sub_diag, Z.pow_0_r, Z.mul_1_r.
  pose proof (digits2_bounds mx) as [_ Ux].
  pose proof (digits2_bounds my) as [Ly _].
  rewrite Dy in Ly by lia.
  assert (P1 : Zpos mx < 2 ^ 53).
  { eapply Z.lt_le_trans; [exact Ux|]. apply Z.pow_le_mono_r; lia. }
  assert (P2 : 2 ^ 1 <= 2 ^ (ey - ex)) by (apply Z.pow_le_mono_r; lia).
  change (2 ^ 1) with 2 in P2. change (2 ^ (53 - 1)) with (2 ^ 52) in Ly.
  assert (P3 : 2 ^ 53 = 2 * 2 ^ 52) by reflexivity.
  nia.
Qed.

Lemma iter_pos_nat (A : Type) (f : A -> A) p :
  forall x, iter_pos f p x = Nat.iter (Pos.to_nat p) f x.
Proof.
  induction p as [p IH|p IH|]; intros x; simpl iter_pos.
  - rewrite !IH, Pos2Nat.inj_xI. simpl Nat.iter.
    rewrite <- Nat.iter_succ_r. simpl Nat.iter. f_equal.
    replace (Pos.to_nat p + (Pos.to_nat p + 0))%nat
      with (Pos.to_nat p + Pos.to_nat p)%nat by lia.
    now rewrite Nat.iter_add, <- Nat.iter_succ_r.
  - rewrite !IH, Pos2Nat.inj_xO.
    replace (2 * Pos.to_nat p)%nat with (Pos.to_nat p + Pos.to_nat p)%nat by lia.
    now rewrite Nat.iter_add.
  - reflexivity.
Qed.

(** Shifting a mantissa right by fewer places than it has digits leaves a
    positive mantissa. *)
Lemma iter_shr_1 n :
  forall r m,
    shr_m r = Zpos m ->
    Z.of_nat n < Zpos (digits2_pos m) ->
    exists m', shr_m (Nat.iter n shr_1 r) = Zpos m'
               /\ Zpos (digits2_pos m') = Zpos (digits2_pos m) - Z.of_nat n.
Proof.
  induction n as [|n IH]; intros r m Hr Hn.
  - exists m. simpl. split; [exact Hr|lia].
  - destruct (IH r m Hr) as (m1 & H1 & D1); [lia|].
    simpl Nat.iter. destruct (Nat.iter n shr_1 r) as [m0 r0 s0].
    simpl in H1. subst m0.
    destruct m1 as [q|q|].
    + exists q. split; [reflexivity|].
      simpl digits2_pos in D1. rewrite Pos2Z.inj_succ in D1. lia.
    + exists q. split; [reflexivity|].
      simpl digits2_pos in D1. rewrite Pos2Z.inj_succ in D1. lia.
    + simpl digits2_pos in D1. lia.
Qed.

Lemma shr_record_of_loc_m m l : shr_m (shr_record_of_loc m l) = m.
Proof. now destruct l as [|[]]. Qed.

Lemma shr_fexp_pos m e l :
  emin <= e ->
  exists m', shr_m (fst (shr_fexp prec emax (Zpos m) e l)) = Zpos m'
             /\ emin <= snd (shr_fexp prec emax (Zpos m) e l).
Proof.
  intros He. unfold shr_fexp, shr.
  destruct (fexp prec emax (Zdigits2 (Zpos m) + e) - e) as [|p|p] eqn:N.
  - exists m. simpl. now rewrite shr_record_of_loc_m.
  - simpl fst. simpl snd. rewrite iter_pos_nat.
    destruct (@iter_shr_1 (Pos.to_nat p) (shr_record_of_loc (Zpos m) l) m) as (m' & H & _).
    + apply shr_record_of_loc_m.
    + rewrite positive_nat_Z. revert N.
      unfold fexp, SpecFloat.emin, prec, emax in *. simpl Zdigits2. lia.
    + exists m'. split; [exact H|lia].
  - exists m. simpl. now rewrite shr_record_of_loc_m.
Qed.

Lemma round_nearest_even_pos m l :
  exists m', round_nearest_even (Zpos m) l = Zpos m'.
Proof.
  destruct l as [|[]]; simpl; try (now eexists).
  destruct m; simpl; now eexists.
Qed.

(** Rounding a positive mantissa with an exponent in range gives a positive
    number or plus infinity, never zero. *)
Lemma binary_round_aux_pos m e l :
  emin <= e ->
  SFltb (S754_zero false) (binary_round_aux prec emax false (Zpos m) e l) = true.
Proof.
  intros He. unfold binary_round_aux.
  destruct (shr_fexp_pos m l He) as (m1 & H1 & E1).
  destruct (shr_fexp prec emax (Zpos m) e l) as [mrs' e']. simpl in H1, E1.
  rewrite H1.
  destruct (round_nearest_even_pos m1 (loc_of_shr_record mrs')) as (m2 & ->).
  destruct (shr_fexp_pos m2 loc_Exact E1) as (m3 & H3 & _).
  destruct (shr_fexp prec emax (Zpos m2) e' loc_Exact) as [mrs'' e'']. simpl in H3.
  rewrite H3. now destruct (e'' <=? emax - prec).
Qed.

Lemma binary_round_pos m e :
  emin <= e ->
  SFltb (S754_zero false) (binary_round prec emax false m e) = true.
Proof.
  intros He. unfold binary_round.
  destruct (shl_align m e (fexp prec emax (Zpos (digits2_pos m) + e))) as [mz ez] eqn:S.
  apply binary_round_aux_pos.
  unfold shl_align in S.
  destruct (fexp prec emax (Zpos (digits2_pos m) + e) - e) eqn:N;
    inversion S; subst; try exact He.
  unfold fexp. lia.
Qed.

Lemma binary_round_neg m e :
  SFltb (S754_zero false) (binary_round prec emax true m e) = false.
Proof.
  unfold binary_round, binary_round_aux.
  destruct (shl_align m e _) as [mz ez].
  destruct (shr_fexp prec emax (Zpos mz) ez loc_Exact) as [mrs' e'].
  destruct (shr_fexp prec emax _ e' loc_Exact) as [mrs'' e''].
  destruct (shr_m mrs''); try reflexivity.
  now destruct (e'' <=? emax - prec).
Qed.

(** The sign of a rounded integer is the sign of the integer. *)
Lemma binary_normalize_sign d e :
  emin <= e ->
  SFltb (S754_zero false) (binary_normalize prec emax d e false) = (0 <? d).
Proof.
  intros He. destruct d as [|p|p]; simpl binary_normalize.
  - reflexivity.
  - now apply binary_round_pos.
  - apply binary_round_neg.
Qed.

(** The difference [y - x] of two numbers is positive exactly when
    [x < y]: no difference of two distinct numbers rounds to zero. *)
Lemma SFsub_sign x y :
  valid_binary x = true -> valid_binary y = true ->
  x <> S754_nan -> y <> S754_nan ->
  SFltb (S754_zero false) (SF64sub y x) = SFltb x y.
Proof.
  intros Vx Vy Nx Ny.
  destruct x as [sx|sx| |sx mx ex], y as [sy|sy| |sy my ey];
    try contradiction;
    try (now destruct sx, sy); try (now destruct sx); try (now destruct sy).
  simpl in Vx, Vy.
  destruct (bounded_facts _ _ Vx) as (Ex & _).
  destruct (bounded_facts _ _ Vy) as (Ey & _).
  unfold SF64sub, SFsub.
  rewrite binary_normalize_sign by lia.
  rewrite !shl_align_value by lia.
  pose proof (@aligned_lt mx ex my ey Vx Vy) as Lxy.
  pose proof (@aligned_lt my ey mx ex Vy Vx) as Lyx.
  rewrite (Z.min_comm ex ey) in Lxy.
  set (a := Zpos my * 2 ^ (ey - Z.min ey ex)) in *.
  set (b := Zpos mx * 2 ^ (ex - Z.min ey ex)) in *.
  assert (Ha : 0 < a) by (apply Z.mul_pos_pos; [lia|apply Z.pow_pos_nonneg; lia]).
  assert (Hb : 0 < b) by (apply Z.mul_pos_pos; [lia|apply Z.pow_pos_nonneg; lia]).
  unfold SFltb, SFcompare.
  destruct (Z.compare_spec ex ey) as [E|E|E].
  - assert (Ea : a = Zpos my).
    { unfold a. subst ey. rewrite Z.min_id, Z.sub_diag. simpl. lia. }
    assert (Eb : b = Zpos mx).
    { unfold b. subst ey. rewrite Z.min_id, Z.sub_diag. simpl. lia. }
    rewrite Pos.compare_cont_spec. unfold Pos.switch_Eq.
    destruct sx, sy; simpl cond_Zopp;
      destruct (Pos.compare_spec mx my); simpl;
      try (apply Z.ltb_lt; lia); try (apply Z.ltb_ge; lia).
  - specialize (Lxy E).
    destruct sx, sy; simpl cond_Zopp;
      try (apply Z.ltb_lt; lia); try (apply Z.ltb_ge; lia).
  - specialize (Lyx E).
    destruct sx, sy; simpl cond_Zopp;
      try (apply Z.ltb_lt; lia); try (apply Z.ltb_ge; lia).
Qed.

Local Open Scope float_scope.

Lemma sub_sign (x y : float) :
  is_nan x = false -> is_nan y = false ->
  (0 <? y - x) = (x <? y).
Proof.
  intros Hx Hy.
  rewrite !FloatAxioms.ltb_spec, FloatAxioms.sub_spec.
  change (Prim2SF 0) with (S754_zero false).
  apply SFsub_sign; try apply Prim2SF_valid.
  - unfold is_nan in Hx. rewrite FloatAxioms.eqb_spec in Hx.
    intros E. rewrite E in Hx. discriminate.
  - unfold is_nan in Hy. rewrite FloatAxioms.eqb_spec in Hy.
    intros E. rewrite E in Hy. discriminate.
Qed.

End SubSign.

(** ** Sorting by score *)

Section SortFacts.

Variable A : Type.
Variable score : A -> float.

Local Open Scope float_scope.

Local Abbreviation cmp := (byScore score).
Local Abbreviation desc := (descending score).
Local Abbreviation nums := (numbers score).

Lemma insert_perm x l : Permutation (JsArray.insert cmp x l) (x :: l).
Proof.
  induction l as [|y l IH]; simpl; [reflexivity|].
  destruct (0 <? cmp x y); [|reflexivity].
  rewrite IH. apply perm_swap.
Qed.

Lemma sort_perm l : Permutation (JsArray.sort cmp l) l.
Proof.
  induction l as [|x l IH]; simpl; [reflexivity|].
  rewrite insert_perm. now constructor.
Qed.

Lemma numbers_perm l l' : Permutation l l' -> nums l -> nums l'.
Proof. intros H. unfold numbers. now rewrite H. Qed.

Lemma insert_cons x y l :
  is_nan (score x) = false -> is_nan (score y) = false ->
  JsArray.insert cmp x (y :: l)
  = if score x <? score y then y :: JsArray.insert cmp x l else x :: y :: l.
Proof.
  intros Hx Hy. simpl. unfold byScore. now rewrite (@sub_sign (score x) (score y) Hx Hy).
Qed.

Lemma insert_sorted x l :
  nums (x :: l) -> StronglySorted desc l ->
  StronglySorted desc (JsArray.insert cmp x l).
Proof.
  intros N S. induction l as [|y l IH].
  - simpl. repeat constructor.
  - inversion N as [|? ? Hx N']. inversion N' as [|? ? Hy N'']. subst.
    inversion S as [|? ? S' F]. subst.
    rewrite insert_cons by assumption.
    destruct (score x <? score y) eqn:L.
    + constructor.
      * apply IH; [now constructor|exact S'].
      * apply (Permutation_Forall (Permutation_sym (insert_perm x l))).
        constructor; [|exact F]. unfold descending. now apply ltb_leb.
    + constructor; [exact S|].
      assert (D : desc x y) by (unfold descending; now apply ltb_false_leb).
      constructor; [exact D|].
      apply Forall_forall. intros z Hz. rewrite Forall_forall in F.
      unfold descending in *. apply (@leb_trans (score z) (score y) (score x)); auto.
Qed.

Lemma sort_sorted l :
  nums l -> StronglySorted desc (JsArray.sort cmp l).
Proof.
  induction l as [|x l IH]; intros N; simpl; [constructor|].
  inversion N as [|? ? Hx N']. subst.
  apply insert_sorted; [|now apply IH].
  constructor; [exact Hx|].
  apply (numbers_perm (Permutation_sym (sort_perm l))). exact N'.
Qed.

(** The entries tied at a score keep their order. *)
Lemma insert_stable v x l :
  nums (x :: l) ->
  tiedAt score v (JsArray.insert cmp x l)
  = tiedAt score v (x :: l).
Proof.
  intros N. unfold tiedAt. induction l as [|y l IH]; [reflexivity|].
  inversion N as [|? ? Hx N']. inversion N' as [|? ? Hy N'']. subst.
  rewrite insert_cons by assumption.
  destruct (score x <? score y) eqn:L; [|reflexivity].
  cbn [filter]. rewrite IH by now constructor. cbn [filter].
  destruct (score x =? v) eqn:T; [|reflexivity].
  now rewrite (@ltb_tie (score x) (score y) v L T).
Qed.

Lemma sort_stable v l :
  nums l ->
  tiedAt score v (JsArray.sort cmp l)
  = tiedAt score v l.
Proof.
  induction l as [|x l IH]; intros N; [reflexivity|].
  inversion N as [|? ? Hx N']. subst.
  cbn [JsArray.sort fold_right].
  change (fold_right (JsArray.insert cmp) [] l) with (JsArray.sort cmp l).
  rewrite insert_stable.
  - unfold tiedAt in *. cbn [filter]. now rewrite IH.
  - constructor; [exact Hx|].
    apply (numbers_perm (Permutation_sym (sort_perm l))). exact N'.
Qed.

(** Two rankings of the same elements that are both descending and both
    keep the ties in the same order are the same list. *)
Lemma stable_ranking_unique l1 :
  forall l2,
    nums l1 ->
    Permutation l1 l2 ->
    StronglySorted desc l1 -> StronglySorted desc l2 ->
    (forall v, tiedAt score v l1 = tiedAt score v l2) ->
    l1 = l2.
Proof.
  induction l1 as [|x l1 IH]; intros l2 N P S1 S2 T.
  - now apply Permutation_nil in P.
  - destruct l2 as [|y l2]; [now apply Permutation_sym, Permutation_nil in P|].
    inversion N as [|? ? Nx N1]. subst.
    inversion S1 as [|? ? S1' F1]. inversion S2 as [|? ? S2' F2]. subst.
    assert (Ny : is_nan (score y) = false).
    { assert (Hy : In y (x :: l1))
        by (apply (Permutation_in _ (Permutation_sym P)); now left).
      unfold numbers in N. rewrite Forall_forall in N. now apply N. }
    assert (Lyx : (score y <=? score x) = true).
    { assert (Hy : In y (x :: l1))
        by (apply (Permutation_in _ (Permutation_sym P)); now left).
      destruct Hy as [<-|Hy]; [exact (@leb_refl (score x) Nx)|].
      rewrite Forall_forall in F1. now apply F1. }
    assert (Lxy : (score x <=? score y) = true).
    { assert (Hx : In x (y :: l2)) by (apply (Permutation_in _ P); now left).
      destruct Hx as [<-|Hx]; [exact Lyx|].
      rewrite Forall_forall in F2. now apply F2. }
    assert (E : x = y).
    { pose proof (T (score x)) as Tx. unfold tiedAt in Tx. cbn [filter] in Tx.
      rewrite (@eqb_refl (score x) Nx), (@leb_antisym (score y) (score x) Lyx Lxy) in Tx. now inversion Tx. }
    subst y. f_equal.
    apply IH; auto.
    + now apply Permutation_cons_inv in P.
    + intros v. specialize (T v). unfold tiedAt in *. cbn [filter] in T.
      destruct (score x =? v); [now inversion T|exact T].
Qed.

(** The model of [Array.prototype.sort] is the stable sort: when no score
    is NaN, every descending arrangement of the elements that keeps the
    ties in their order is the result of [sort]. *)
Lemma sort_is_the_stable_sort l l' :
  nums l ->
  Permutation l' l ->
  StronglySorted desc l' ->
  (forall v, tiedAt score v l' = tiedAt score v l) ->
  l' = JsArray.sort cmp l.
Proof.
  intros N P S T. apply stable_ranking_unique.
  - apply (numbers_perm (Permutation_sym P)). exact N.
  - rewrite P. apply Permutation_sym, sort_perm.
  - exact S.
  - now apply sort_sorted.
  - intros v. rewrite T. symmetry. now apply sort_stable.
Qed.

End SortFacts.

Section ListFacts.
Variable A : Type.

Lemma Forall_firstn (Q : A -> Prop) n (l : list A) :
  Forall Q l -> Forall Q (firstn n l).
Proof.
  intros H. rewrite <- (firstn_skipn n l) in H. now apply Forall_app in H.
Qed.

Lemma StronglySorted_firstn (R : A -> A -> Prop) n (l : list A) :
  StronglySorted R l -> StronglySorted R (firstn n l).
Proof.
  revert n. induction l as [|x l IH]; intros n S.
  - now rewrite firstn_nil.
  - destruct n as [|n]; [constructor|]. simpl.
    inversion S as [|? ? S' F]. subst.
    constructor; [now apply IH|now apply Forall_firstn].
Qed.

Lemma filter_firstn (keep : A -> bool) n (l : list A) :
  filter keep l = filter keep (firstn n l) ++ filter keep (skipn n l).
Proof. now rewrite <- filter_app, firstn_skipn. Qed.

Lemma In_firstn n (l : list A) x : In x (firstn n l) -> In x l.
Proof.
  intros H. rewrite <- (firstn_skipn n l). apply in_or_app. now left.
Qed.

End ListFacts.

(** ** Cosine similarity *)

Section SimilarityFacts.

Local Open Scope float_scope.

Lemma sums_swap a :
  forall b d na nb,
    VectorDb.sums b a (d, nb, na)
    = let '(d', na', nb') := VectorDb.sums a b (d, na, nb) in (d', nb', na').
Proof.
  induction a as [|x a IH]; intros b d na nb.
  - now destruct b.
  - destruct b as [|y b]; [reflexivity|].
    cbn [VectorDb.sums]. rewrite IH. now rewrite (mul_comm y x).
Qed.

Lemma cosineSimilarity_sym a b :
  VectorDb.cosineSimilarity a b = VectorDb.cosineSimilarity b a.
Proof.
  unfold VectorDb.cosineSimilarity.
  rewrite (Nat.eqb_sym (List.length b) (List.length a)).
  destruct (List.length a =? List.length b)%nat; [|reflexivity]. simpl negb. cbv iota.
  rewrite (sums_swap a b 0 0 0).
  destruct (VectorDb.sums a b (0, 0, 0)) as [[d na] nb].
  now rewrite (mul_comm (sqrt nb) (sqrt na)), (orb_comm (nb =? 0)).
Qed.

Lemma sums_zero_left a :
  allZero a = true ->
  forall b d nb, snd (fst (VectorDb.sums a b (d, 0, nb))) = 0.
Proof.
  induction a as [|x a IH]; intros Z b d nb; [reflexivity|].
  simpl in Z. apply andb_true_iff in Z. destruct Z as [Zx Za].
  destruct b as [|y b]; [reflexivity|].
  cbn [VectorDb.sums]. rewrite (@square_zero x Zx).
  change (0 + 0) with 0. now apply IH.
Qed.

Lemma cosineSimilarity_zero_left a b :
  allZero a = true -> VectorDb.cosineSimilarity a b = 0.
Proof.
  intros Z. unfold VectorDb.cosineSimilarity.
  destruct (negb (List.length a =? List.length b)%nat); [reflexivity|].
  pose proof (@sums_zero_left a Z b 0 0) as N.
  destruct (VectorDb.sums a b (0, 0, 0)) as [[d na] nb]. simpl in N. subst na.
  reflexivity.
Qed.

Lemma sums_same a :
  forall z, VectorDb.sums a a (z, z, z)
            = (fold_left (fun acc x => acc + x * x) a z,
               fold_left (fun acc x => acc + x * x) a z,
               fold_left (fun acc x => acc + x * x) a z).
Proof.
  induction a as [|x a IH]; intros z; [reflexivity|].
  cbn [VectorDb.sums fold_left]. apply IH.
Qed.

(** C2, amended.  Cosine similarity is symmetric; it is 0 when the two
    vectors have different lengths and when one of them is all zero; and
    the similarity of a vector with itself is the rounded quotient of its
    squared norm [n] by [sqrt n * sqrt n], or 0 when [n] is 0: it is 1 up
    to rounding only, and 0 when the squared norm underflows. *)
Theorem cosineSimilarity_properties :
  (forall a b, VectorDb.cosineSimilarity a b = VectorDb.cosineSimilarity b a)
  /\ (forall a b, List.length a <> List.length b ->
                  VectorDb.cosineSimilarity a b = 0)
  /\ (forall a b, allZero a = true \/ allZero b = true ->
                  VectorDb.cosineSimilarity a b = 0)
  /\ (forall a, VectorDb.cosineSimilarity a a
                = let n := squaredNorm a in
                  if n =? 0 then 0 else n / (sqrt n * sqrt n)).
Proof.
  split; [exact cosineSimilarity_sym|]. split; [|split].
  - intros a b H. unfold VectorDb.cosineSimilarity.
    apply Nat.eqb_neq in H. now rewrite H.
  - intros a b [Z|Z].
    + now apply cosineSimilarity_zero_left.
    + rewrite cosineSimilarity_sym. now apply cosineSimilarity_zero_left.
  - intros a. unfold VectorDb.cosineSimilarity, squaredNorm.
    rewrite Nat.eqb_refl. simpl negb. cbv iota.
    rewrite sums_same. cbv zeta.
    now rewrite orb_diag.
Qed.

End SimilarityFacts.

(** ** [search] *)

Section SearchFacts.

Local Open Scope float_scope.

Lemma fold_push_map_filter (A B : Type) (test : A -> bool) (f : A -> B)
  (l : list A) (init : list B) :
  fold_left (fun acc x => if test x then (acc ++ [f x])%list else acc) l init
  = (init ++ map f (filter test l))%list.
Proof.
  revert init. induction l as [|x l IH]; intros init; simpl.
  - now rewrite app_nil_r.
  - rewrite IH. destruct (test x); simpl; [now rewrite <- app_assoc|reflexivity].
Qed.

(** The candidates: one result for each entry with a non-empty embedding,
    in the order of the entries. *)
Lemma scan_spec q entries :
  VectorDb.scan q entries
  = map (fun entry => {| note := entry;
                         similarity := VectorDb.cosineSimilarity q (embedding entry) |})
        (filter (fun entry => VectorDb.nonEmpty (embedding entry)) entries).
Proof. unfold VectorDb.scan. now rewrite fold_push_map_filter. Qed.

Lemma search_unfold q k s :
  q <> [] ->
  VectorDb.search q k s = (JsArray.slice0 k (ranked q s), VectorDb.ensureLoaded s).
Proof. intros H. unfold VectorDb.search. now destruct q. Qed.

Lemma slice0_prefix (A : Type) k (l : list A) :
  exists n, JsArray.slice0 k l = firstn n l.
Proof. unfold JsArray.slice0. destruct (k <? 0)%Z; now eexists. Qed.

Lemma slice0_length (A : Type) k (l : list A) :
  (0 <= k)%Z -> (Z.of_nat (List.length (JsArray.slice0 k l)) <= k)%Z.
Proof.
  intros H. unfold JsArray.slice0.
  destruct (k <? 0)%Z eqn:E; [apply Z.ltb_lt in E; lia|].
  rewrite length_firstn. lia.
Qed.

(** C1, amended.  For a bound [k] that is not negative, [search] returns at
    most [k] results.  Every result is an entry of the store with a
    non-empty embedding, with its cosine similarity to the query.  When no
    score is NaN the results are in descending order of the scores, and the
    results tied at a score are the first candidates with that score, in the
    order in which the map iterates. *)
Theorem search_spec q k s :
  let s0 := VectorDb.ensureLoaded s in
  let rs := fst (VectorDb.search q k s) in
  ((0 <= k)%Z -> (Z.of_nat (List.length rs) <= k)%Z)
  /\ (forall r, In r rs ->
                embedding (note r) <> []
                /\ In (note r) (JsMap.values (db s0))
                /\ similarity r = VectorDb.cosineSimilarity q (embedding (note r)))
  /\ (numbers similarity (candidates q s) ->
      StronglySorted (descending similarity) rs
      /\ forall v, exists rest,
           tiedAt similarity v (candidates q s) = tiedAt similarity v rs ++ rest).
Proof.
  intros s0 rs.
  destruct q as [|x q].
  { subst rs. simpl. repeat split; try lia; try contradiction; try constructor.
    intros v. now eexists. }
  assert (E : rs = JsArray.slice0 k (ranked (x :: q) s)).
  { unfold rs. now rewrite search_unfold. }
  destruct (slice0_prefix k (ranked (x :: q) s)) as [n P].
  split; [|split].
  - intros H. rewrite E. now apply slice0_length.
  - intros r Hr. rewrite E, P in Hr. apply In_firstn in Hr.
    unfold ranked in Hr.
    apply (Permutation_in _ (sort_perm similarity (candidates (x :: q) s))) in Hr.
    unfold candidates in Hr. rewrite scan_spec in Hr.
    apply in_map_iff in Hr. destruct Hr as (entry & <- & Hin).
    apply filter_In in Hin. destruct Hin as [Hin Hne]. simpl.
    split; [|split; [exact Hin|reflexivity]].
    intros Hnil. rewrite Hnil in Hne. discriminate.
  - intros N. rewrite E, P. split.
    + apply StronglySorted_firstn. unfold ranked.
      now apply (sort_sorted (score := similarity)).
    + intros v. exists (tiedAt similarity v (skipn n (ranked (x :: q) s))).
      unfold tiedAt at 2 3. rewrite <- filter_firstn.
      unfold ranked. symmetry.
      now apply (sort_stable (score := similarity)).
Qed.

(** C7, amended.  With an empty query [search] returns the empty list
    right after loading, whatever the store holds; with [k = 0] it returns
    the empty list; with a negative [k] it returns the ranking without its
    last [-k] results, which is empty only when the ranking has at most
    [-k] results. *)
Theorem search_empty q k s :
  VectorDb.search [] k s = ([], VectorDb.ensureLoaded s)
  /\ fst (VectorDb.search q 0 s) = []
  /\ ((k < 0)%Z -> q <> [] ->
      fst (VectorDb.search q k s)
      = firstn (List.length (ranked q s) - Z.to_nat (- k)) (ranked q s))
  /\ ((k <= 0)%Z -> (List.length (ranked q s) <= Z.to_nat (- k))%nat ->
      fst (VectorDb.search q k s) = []).
Proof.
  split; [reflexivity|]. split; [|split].
  - destruct q; [reflexivity|]. now rewrite search_unfold.
  - intros Hk Hq. rewrite search_unfold by exact Hq. simpl.
    unfold JsArray.slice0. apply Z.ltb_lt in Hk. now rewrite Hk.
  - intros Hk Hlen. destruct q as [|x q]; [reflexivity|].
    rewrite search_unfold by discriminate. simpl. unfold JsArray.slice0.
    destruct (k <? 0)%Z eqn:E.
    + replace (List.length (ranked (x :: q) s) - Z.to_nat (- k))%nat with 0%nat by lia.
      reflexivity.
    + apply Z.ltb_ge in E. replace k with 0%Z by lia. reflexivity.
Qed.

End SearchFacts.

(** ** The text pipeline on examples *)

Section TextExamples.

Import JsString Regex NoteText Examples.
Local Open Scope string_scope.

(** C10, as stated, fails for a file whose name has three line feeds in a
    row: collapsing the blank lines changes the header too. *)
Lemma preprocessContent_header_counterexample :
  startsWith (header oddFile) (preprocessContent "" oddFile) = false.
Proof. vm_compute. reflexivity. Qed.

Lemma preprocessContent_keeps_every_document_witness :
  plainName planFile = true
  /\ startsWith (header planFile) (preprocessContent taggedNote planFile) = true.
Proof.
  split; [reflexivity|].
  exact (proj2 (proj2 (proj1 preprocessContent_keeps_every_document taggedNote planFile))
           eq_refl).
Defined.

(** C9.  The front matter of [taggedNote] declares the tags [project] and
    [draft], and [extractTags] finds them in the raw text; but
    [processBatch] applies it to the preprocessed text, which starts with
    the header, and the entry has the hashtag only. *)
Theorem extractTags_misses_frontmatter_tags :
  extractTags taggedNote = ["roadmap"; "project"; "draft"]%list
  /\ map tags (fst (Indexer.processBatch steadyModel planApp [planFile] tt))
     = [Some ["roadmap"]]%list.
Proof. split; vm_compute; reflexivity. Qed.

End TextExamples.

(** ** The store on examples *)

Section StoreExamples.

Import Examples.
Local Open Scope string_scope.

Lemma indexAllNotes_single_flight_witness :
  isIndexing busyIndexer = true
  /\ Indexer.indexAllNotes steadyModel planApp busyIndexer tt = (Ok 0, busyIndexer, tt).
Proof.
  split; [reflexivity|].
  exact (@indexAllNotes_single_flight unit steadyModel planApp busyIndexer tt eq_refl).
Defined.

(** With both documents alive nothing is removed and nothing is flushed. *)
Lemma removeDeletedNotes_spec_witness :
  VectorDb.removeDeletedNotes [fileOf "a.md" 10; fileOf "b.md" 10] twoNotes
  = (Ok 0, twoNotes).
Proof.
  exact (proj2 (proj2 (proj2
           (removeDeletedNotes_spec [fileOf "a.md" 10; fileOf "b.md" 10] twoNotes)))
           eq_refl).
Defined.

(** The scenario of the specification: entries for [a.md] and [b.md], live
    documents [a.md] and [c.md]. *)
Example removeDeletedNotes_scenario :
  let files := [fileOf "a.md" 10; fileOf "c.md" 10] in
  let r := VectorDb.removeDeletedNotes files twoNotes in
  fst r = Ok 1
  /\ JsMap.keys (db (snd r)) = ["a.md"]
  /\ flushes (adapter (snd r)) = 1
  /\ map path (fst (VectorDb.getModifiedNotes files (snd r))) = ["c.md"].
Proof. vm_compute. repeat split. Qed.

(** C1, as stated, fails for a negative bound: with two entries in the
    store and [k = -1] there is one result, which is more than [k]. *)
Lemma search_bound_counterexample :
  (Z.of_nat (List.length (fst (VectorDb.search [1%float; 0%float] (-1) twoNotes)))
   <=? -1)%Z = false.
Proof. vm_compute. reflexivity. Qed.

(** C7, as stated, fails for a negative bound: with two entries in the
    store and [k = -1] the best match is returned. *)
Lemma search_negative_counterexample :
  map (fun r => id (note r)) (fst (VectorDb.search [1%float; 0%float] (-1) twoNotes))
  = ["a.md"].
Proof. vm_compute. reflexivity. Qed.

Lemma search_spec_witness :
  (Z.of_nat (List.length (fst (VectorDb.search [1%float; 0%float] 1 twoNotes))) <= 1)%Z
  /\ StronglySorted (descending similarity)
                    (fst (VectorDb.search [1%float; 0%float] 1 twoNotes)).
Proof.
  assert (N : numbers similarity (candidates [1%float; 0%float] twoNotes))
    by (vm_compute; repeat constructor).
  split.
  - apply (proj1 (search_spec [1%float; 0%float] 1 twoNotes)). lia.
  - exact (proj1 (proj2 (proj2 (search_spec [1%float; 0%float] 1 twoNotes)) N)).
Defined.

Lemma search_empty_witness :
  fst (VectorDb.search [1%float; 0%float] (-1) twoNotes)
  = firstn (List.length (ranked [1%float; 0%float] twoNotes) - Z.to_nat (- (-1)))
           (ranked [1%float; 0%float] twoNotes).
Proof.
  apply (proj1 (proj2 (proj2 (search_empty [1%float; 0%float] (-1) twoNotes)))).
  - lia.
  - discriminate.
Defined.

(** With a score that is NaN the ranking need not be descending: the
    product of 2 and 1e308 overflows, the similarity of the second entry is
    NaN, and the entry of similarity 1 stays behind the one of similarity
    0.7. *)
Example search_nan_scores :
  let s := {| db := [("c.md", entryOf "c.md" [1; 1] 10);
                     ("a.md", entryOf "a.md" [0x1.1ccf385ebc8ap+1023; 0] 10);
                     ("b.md", entryOf "b.md" [1; 0] 10)]%float;
              loaded := true;
              adapter := {| file := NoFile; writable := true; flushes := 0 |} |} in
  map (fun r => (id (note r), similarity r)) (fst (VectorDb.search [2; 0]%float 5 s))
  = [("c.md", 0x1.6a09e667f3bccp-1); ("a.md", nan); ("b.md", 1)]%float.
Proof. vm_compute. reflexivity. Qed.

(** C2, as stated, fails for the vector [1, 1], which is not zero: its
    squared norm is 2, and 2 divided by the rounded square of the rounded
    square root of 2 is below 1.  It also fails for the vector [1e-200],
    which is not zero either: its squared norm underflows to 0 and the
    similarity is 0. *)
Lemma cosineSimilarity_self_counterexample :
  (allZero [1; 1] = false
   /\ (VectorDb.cosineSimilarity [1; 1] [1; 1] =? 1) = false)%float
  /\ (allZero [0x1.87e92154ef7acp-665] = false
      /\ (VectorDb.cosineSimilarity [0x1.87e92154ef7acp-665] [0x1.87e92154ef7acp-665] =? 0)
         = true)%float.
Proof. repeat split; vm_compute; reflexivity. Qed.

(** The squared norm of a large vector overflows, and its similarity with
    itself is NaN; the one of [3, 4] is exact, and the similarity is 1. *)
Example cosineSimilarity_self_examples :
  is_nan (VectorDb.cosineSimilarity [0x1.4e718d7d7625ap+664] [0x1.4e718d7d7625ap+664])%float
  = true
  /\ VectorDb.cosineSimilarity [3; 4]%float [3; 4]%float = 1%float.
Proof. repeat split; vm_compute; reflexivity. Qed.

Lemma cosineSimilarity_properties_witness :
  allZero [0; 0]%float = true
  /\ VectorDb.cosineSimilarity [0; 0]%float [1; 2]%float = 0%float.
Proof.
  split; [reflexivity|].
  apply (proj1 (proj2 (proj2 cosineSimilarity_properties))).
  left. reflexivity.
Defined.

Lemma provider_failure_skips_batch_witness :
  batchRejects failingModel (map snd (Indexer.readBatch planApp [planFile])) tt = true
  /\ fst (Indexer.processBatch failingModel planApp [planFile] tt) = [].
Proof.
  split; [vm_compute; reflexivity|].
  apply (proj1 (provider_failure_skips_batch failingModel planApp)).
  - simpl. lia.
  - vm_compute. reflexivity.
Defined.

(** A run over three batches whose second batch fails: the first and the
    third batch are indexed, in one flush, and the run returns 6. *)
Example indexAllNotes_flaky_provider :
  let '(r, ix, p) := Indexer.indexAllNotes flakyModel elevenApp idleIndexer 0 in
  r = Ok 6
  /\ JsMap.keys (db (vectorDb ix))
     = ["n0.md"; "n1.md"; "n2.md"; "n3.md"; "n4.md"; "n10.md"]
  /\ flushes (adapter (vectorDb ix)) = 1
  /\ isIndexing ix = false
  /\ p = 11.
Proof. vm_compute. repeat split. Qed.

End StoreExamples.

(** ** The store as a map *)

Section MapMore.
Variable V : Type.
Implicit Types (m : JsMap.t V) (k : string) (v : V).

Lemma get_none_keys k m : JsMap.get k m = None <-> ~ In k (JsMap.keys m).
Proof.
  induction m as [|[k' v'] m IH]; simpl.
  - tauto.
  - destruct (String.eqb k' k) eqn:E.
    + apply String.eqb_eq in E. subst. split; [discriminate|tauto].
    + apply String.eqb_neq in E. rewrite IH. tauto.
Qed.

(** [set] keeps the order of the keys: a key that is present stays where it
    is, a new key goes to the end. *)
Lemma keys_set k v m :
  JsMap.keys (JsMap.set k v m)
  = if JsMap.has k m then JsMap.keys m else JsMap.keys m ++ [k].
Proof.
  unfold JsMap.has.
  induction m as [|[k' v'] m IH]; simpl; [reflexivity|].
  destruct (String.eqb k' k) eqn:E; simpl.
  - apply String.eqb_eq in E. now subst.
  - rewrite IH. now destruct (JsMap.get k m).
Qed.

Lemma get_delete k k' m :
  JsMap.get k' (JsMap.delete k m)
  = if String.eqb k k' then None else JsMap.get k' m.
Proof.
  unfold JsMap.delete.
  rewrite (get_filter_keys (fun x => negb (String.eqb x k)) k' m).
  rewrite (String.eqb_sym k' k). now destruct (String.eqb k k').
Qed.

Lemma keys_delete k m :
  JsMap.keys (JsMap.delete k m)
  = filter (fun x => negb (String.eqb x k)) (JsMap.keys m).
Proof.
  unfold JsMap.delete, JsMap.keys.
  induction m as [|[k' v'] m IH]; simpl; [reflexivity|].
  destruct (String.eqb k' k); simpl; now rewrite IH.
Qed.

End MapMore.

Section StoreMore.

Lemma wellKeyed_empty : wellKeyed JsMap.empty.
Proof. split; constructor. Qed.

Lemma wellKeyed_set entry m :
  wellKeyed m -> wellKeyed (JsMap.set (id entry) entry m).
Proof.
  intros [N F]. split.
  - rewrite keys_set. destruct (JsMap.has (id entry) m) eqn:H; [exact N|].
    apply NoDup_app; [exact N|repeat constructor; auto|].
    intros x Hx [<-|[]]. unfold JsMap.has in H.
    destruct (JsMap.get (id entry) m) eqn:G; [discriminate|].
    now apply get_none_keys in G.
  - clear N. induction m as [|[k' v'] m IH]; simpl.
    + repeat constructor.
    + inversion F as [|? ? F1 F2]. subst.
      destruct (String.eqb k' (id entry)); constructor; auto.
Qed.

Lemma wellKeyed_setAll entries :
  forall m, wellKeyed m -> wellKeyed (setAll entries m).
Proof.
  unfold setAll.
  induction entries as [|e entries IH]; intros m W; simpl; [exact W|].
  apply IH. now apply wellKeyed_set.
Qed.

Lemma wellKeyed_filter (keep : string * VectorEntry -> bool) m :
  wellKeyed m -> wellKeyed (filter keep m).
Proof.
  intros [N F]. split.
  - clear F. unfold JsMap.keys in *.
    induction m as [|kv m IH]; simpl; [constructor|].
    inversion N as [|? ? Hn N']. subst.
    destruct (keep kv); simpl; [|now apply IH].
    constructor; [|now apply IH].
    intros Hin. apply Hn. apply in_map_iff in Hin.
    destruct Hin as (x & E & Hx). apply filter_In in Hx.
    apply in_map_iff. exists x. tauto.
  - apply Forall_forall. intros kv Hin. apply filter_In in Hin.
    rewrite Forall_forall in F. now apply F.
Qed.

Lemma ensureLoaded_wellKeyed s :
  wellKeyed (db s) -> wellKeyed (db (VectorDb.ensureLoaded s)).
Proof.
  intros W. unfold VectorDb.ensureLoaded, VectorDb.loadDatabase.
  destruct (loaded s); [exact W|].
  destruct (file (adapter s)); simpl; [exact W|exact wellKeyed_empty|].
  now apply (wellKeyed_setAll vectors).
Qed.

Lemma getVector_get k s :
  fst (VectorDb.getVector k s) = JsMap.get k (db (VectorDb.ensureLoaded s)).
Proof. reflexivity. Qed.

Lemma getVector_loaded k s :
  loaded s = true -> fst (VectorDb.getVector k s) = JsMap.get k (db s).
Proof. intros H. unfold VectorDb.getVector, VectorDb.ensureLoaded. now rewrite H. Qed.

(** X1.  Every operation of the database keeps at most one entry for an id,
    stored under its id: loading, [addVector], [addVectors], [removeVector],
    [clear] and [removeDeletedNotes], whether or not the flush succeeds. *)
Theorem store_keeps_one_entry_per_id s :
  wellKeyed (db s) ->
  wellKeyed (db (VectorDb.ensureLoaded s))
  /\ (forall entry, wellKeyed (db (snd (VectorDb.addVector entry s))))
  /\ (forall entries, wellKeyed (db (snd (VectorDb.addVectors entries s))))
  /\ (forall k, wellKeyed (db (snd (VectorDb.removeVector k s))))
  /\ wellKeyed (db (snd (VectorDb.clear s)))
  /\ (forall files, wellKeyed (db (snd (VectorDb.removeDeletedNotes files s)))).
Proof.
  intros W. pose proof (ensureLoaded_wellKeyed s W) as W0.
  split; [exact W0|]. split; [|split; [|split; [|split]]].
  - intros entry. unfold VectorDb.addVector. rewrite saveDatabase_db. simpl.
    now apply wellKeyed_set.
  - intros entries. unfold VectorDb.addVectors. rewrite saveDatabase_db. simpl.
    now apply (wellKeyed_setAll entries).
  - intros k. unfold VectorDb.removeVector. rewrite saveDatabase_db. simpl.
    now apply wellKeyed_filter.
  - unfold VectorDb.clear. rewrite saveDatabase_db. exact wellKeyed_empty.
  - intros files. rewrite removeDeletedNotes_unfold. cbv zeta.
    destruct (0 <? List.length _)%nat.
    + set (s1 := VectorDb.with_db _ _).
      pose proof (saveDatabase_db s1) as S.
      destruct (VectorDb.saveDatabase s1) as [[u|] s']; simpl in *; rewrite S;
        now apply wellKeyed_filter.
    + simpl. now apply wellKeyed_filter.
Qed.

Lemma find_append (A : Type) (p : A -> bool) (l1 l2 : list A) :
  find p (l1 ++ l2)
  = match find p l1 with
    | Some y => Some y
    | None => find p l2
    end.
Proof.
  induction l1 as [|y l1 IH]; simpl; [reflexivity|].
  now destruct (p y).
Qed.

(** After setting a list of entries, an id has the last entry of the list
    with this id, or what it had when the list has none. *)
Lemma get_setAll k entries :
  forall m,
    JsMap.get k (setAll entries m)
    = match lastWithId k entries with
      | Some entry => Some entry
      | None => JsMap.get k m
      end.
Proof.
  unfold setAll, lastWithId.
  induction entries as [|e entries IH]; intros m; [reflexivity|].
  cbn [fold_left rev]. rewrite IH, find_append.
  destruct (find _ (rev entries)) as [y|]; [reflexivity|].
  cbn [find].
  destruct (String.eqb (id e) k) eqn:E.
  - apply String.eqb_eq in E. subst k. apply get_set_same.
  - apply String.eqb_neq in E. now apply get_set_other.
Qed.

(** X2.  After [addVectors(entries)], [getVector(k)] returns the last of the
    entries with the id [k], and what it returned before for an id that no
    entry has. *)
Theorem addVectors_then_getVector entries k s :
  fst (VectorDb.getVector k (snd (VectorDb.addVectors entries s)))
  = match lastWithId k entries with
    | Some entry => Some entry
    | None => fst (VectorDb.getVector k s)
    end.
Proof.
  rewrite getVector_loaded.
  - unfold VectorDb.addVectors. rewrite saveDatabase_db. simpl.
    apply (get_setAll k entries).
  - unfold VectorDb.addVectors. rewrite saveDatabase_loaded. simpl.
    apply ensureLoaded_loaded.
Qed.

(** X3.  [addVector] keeps the order of iteration: the ids are the ids of
    before, with the id of the entry at the end when it is new; and every
    other id keeps its entry. *)
Theorem addVector_keeps_order entry s :
  let ids := fst (VectorDb.getAllNoteIds s) in
  fst (VectorDb.getAllNoteIds (snd (VectorDb.addVector entry s)))
  = (if JsMap.has (id entry) (db (VectorDb.ensureLoaded s))
     then ids else ids ++ [id entry])
  /\ (forall k, k <> id entry ->
                fst (VectorDb.getVector k (snd (VectorDb.addVector entry s)))
                = fst (VectorDb.getVector k s)).
Proof.
  assert (L : loaded (snd (VectorDb.addVector entry s)) = true).
  { unfold VectorDb.addVector. rewrite saveDatabase_loaded. simpl.
    apply ensureLoaded_loaded. }
  assert (D : db (snd (VectorDb.addVector entry s))
              = JsMap.set (id entry) entry (db (VectorDb.ensureLoaded s))).
  { unfold VectorDb.addVector. now rewrite saveDatabase_db. }
  split.
  - unfold VectorDb.getAllNoteIds at 1. unfold VectorDb.ensureLoaded at 1.
    rewrite L. simpl fst. rewrite D. apply keys_set.
  - intros k Hk. rewrite (getVector_loaded k _ L), D, getVector_get.
    apply get_set_other. congruence.
Qed.

Lemma delete_absent (V : Type) k (m : JsMap.t V) :
  JsMap.get k m = None -> JsMap.delete k m = m.
Proof.
  unfold JsMap.delete. induction m as [|[k' v'] m IH]; simpl; [reflexivity|].
  destruct (String.eqb k' k); [discriminate|]. intros H. simpl. now rewrite IH.
Qed.

(** X4.  After [removeVector(k)], [getVector(k)] finds nothing and every
    other id keeps its entry.  The call flushes every time, also when the
    id was not in the store and the map is as it was. *)
Theorem removeVector_spec k s :
  let r := VectorDb.removeVector k s in
  fst (VectorDb.getVector k (snd r)) = None
  /\ (forall k', k' <> k ->
                 fst (VectorDb.getVector k' (snd r)) = fst (VectorDb.getVector k' s))
  /\ flushes (adapter (snd r)) = S (flushes (adapter s))
  /\ (fst (VectorDb.getVector k s) = None ->
      db (snd r) = db (VectorDb.ensureLoaded s)).
Proof.
  intros r.
  assert (L : loaded (snd r) = true).
  { unfold r, VectorDb.removeVector. rewrite saveDatabase_loaded. simpl.
    apply ensureLoaded_loaded. }
  assert (D : db (snd r) = JsMap.delete k (db (VectorDb.ensureLoaded s))).
  { unfold r, VectorDb.removeVector. now rewrite saveDatabase_db. }
  split; [|split; [|split]].
  - rewrite (getVector_loaded k _ L), D, get_delete. now rewrite String.eqb_refl.
  - intros k' Hk. rewrite (getVector_loaded k' _ L), D, get_delete, getVector_get.
    assert (E : String.eqb k k' = false) by (apply String.eqb_neq; congruence).
    now rewrite E.
  - unfold r, VectorDb.removeVector, VectorDb.saveDatabase. simpl.
    rewrite ensureLoaded_adapter.
    now destruct (writable (adapter s)).
  - intros H. rewrite D. apply delete_absent. exact H.
Qed.






End StoreMore.

(** ** Statistics, the re-indexing test and more on the search *)

Section StatsFacts.

Lemma latestTime_from entries :
  forall t0,
    let t := fold_left
               (fun latest entry =>
                  if (latest <? modified entry)%Z then modified entry else latest)
               entries t0 in
    (t0 <= t)%Z
    /\ Forall (fun entry => (modified entry <= t)%Z) entries
    /\ (t = t0 \/ exists entry, In entry entries /\ modified entry = t).
Proof.
  induction entries as [|e entries IH]; intros t0; simpl.
  - split; [lia|]. split; [constructor|now left].
  - destruct (IH (if (t0 <? modified e)%Z then modified e else t0)) as (H1 & H2 & H3).
    destruct (t0 <? modified e)%Z eqn:E;
      [apply Z.ltb_lt in E|apply Z.ltb_ge in E].
    + split; [lia|]. split; [constructor; [lia|exact H2]|].
      right. destruct H3 as [H3|(x & Hx & Ex)]; [exists e|exists x]; auto.
    + split; [lia|]. split; [constructor; [lia|exact H2]|].
      destruct H3 as [H3|(x & Hx & Ex)]; [now left|right; exists x; auto].
Qed.

(** X8.  [getStats] counts the entries and reports the greatest [modified]
    of the store: a date is shown exactly when some entry has a positive
    [modified], and it is the date of an entry that no other entry is
    newer than.  It does not change the store beyond loading it. *)
Theorem getStats_spec (toLocaleString : Z -> string) s :
  let s0 := VectorDb.ensureLoaded s in
  let entries := JsMap.values (db s0) in
  let stats := fst (VectorDbStats.getStats toLocaleString s) in
  snd (VectorDbStats.getStats toLocaleString s) = s0
  /\ totalNotes stats = List.length entries
  /\ (lastUpdated stats = None <-> Forall (fun entry => (modified entry <= 0)%Z) entries)
  /\ (forall shown, lastUpdated stats = Some shown ->
        exists entry,
          In entry entries /\ shown = toLocaleString (modified entry)
          /\ (0 < modified entry)%Z
          /\ Forall (fun other => (modified other <= modified entry)%Z) entries).
Proof.
  intros s0 entries stats.
  split; [reflexivity|].
  split; [unfold stats, entries, JsMap.values; simpl; symmetry; apply length_map|].
  unfold stats, VectorDbStats.getStats. fold s0. simpl lastUpdated.
  unfold VectorDbStats.latestTime. fold entries.
  destruct (latestTime_from entries 0) as (H1 & H2 & H3). cbv zeta in *.
  set (t := fold_left _ entries 0%Z) in *.
  assert (Hsize : JsMap.size (db s0) = List.length entries)
    by (unfold entries, JsMap.values, JsMap.size; symmetry; apply length_map).
  rewrite Hsize.
  destruct entries as [|e0 entries'] eqn:En.
  { simpl. split; [split; [constructor|reflexivity]|discriminate]. }
  cbn [List.length Nat.ltb Nat.leb].
  destruct (0 <? t)%Z eqn:E; [apply Z.ltb_lt in E|apply Z.ltb_ge in E].
  - split.
    + split; [discriminate|]. intros F. exfalso.
      destruct H3 as [H3|(x & Hx & Ex)]; [lia|].
      rewrite Forall_forall in F. specialize (F x Hx). lia.
    + intros shown Hs. inversion Hs. subst shown.
      destruct H3 as [H3|(x & Hx & Ex)]; [lia|].
      exists x. rewrite Ex. repeat split; auto.
  - split.
    + split; [|reflexivity]. intros _.
      apply Forall_forall. intros x Hx. rewrite Forall_forall in H2.
      specialize (H2 x Hx). lia.
    + discriminate.
Qed.

Lemma sampleLoop_spec random files m turns :
  files <> [] ->
  exists b,
    VectorDbStats.sampleLoop random files m turns = Ok b
    /\ (b = true -> exists f, In f files /\ VectorDb.newOrModified m f = true)
    /\ ((forall f, In f files -> VectorDb.newOrModified m f = false) -> b = false).
Proof.
  intros Hne. induction turns as [|i turns IH]; simpl.
  - exists false. repeat split; auto; discriminate.
  - assert (Hlt : random i mod List.length files < List.length files).
    { apply Nat.mod_upper_bound. destruct files; [contradiction|discriminate]. }
    destruct (nth_error files (random i mod List.length files)) as [f|] eqn:N.
    + apply nth_error_In in N.
      destruct (VectorDb.newOrModified m f) eqn:M; [|exact IH].
      exists true. split; [reflexivity|]. split.
      * intros _. now exists f.
      * intros H. rewrite (H f N) in M. discriminate.
    + apply nth_error_None in N. lia.
Qed.

(** X9.  [needsReindexing] never throws: every index it draws is in range.
    It answers [true] for an empty store and when the number of files is
    not the number of entries.  It answers [true] only if the store is
    empty, the numbers differ, or some file is new or modified; and when the
    numbers agree and no file is new or modified it answers [false],
    whatever the random draws. *)
Theorem needsReindexing_spec (random : nat -> nat) files s :
  let s0 := VectorDb.ensureLoaded s in
  let r := fst (VectorDbStats.needsReindexing random files s) in
  let size := JsMap.size (db s0) in
  (exists b, r = Ok b)
  /\ (size = 0 \/ List.length files <> size -> r = Ok true)
  /\ (r = Ok true ->
      size = 0 \/ List.length files <> size
      \/ exists f, In f files /\ VectorDb.newOrModified (db s0) f = true)
  /\ (size <> 0 -> List.length files = size ->
      (forall f, In f files -> VectorDb.newOrModified (db s0) f = false) ->
      r = Ok false).
Proof.
  intros s0 r size.
  unfold r, VectorDbStats.needsReindexing. fold s0. fold size.
  destruct (size =? 0) eqn:E0; [apply Nat.eqb_eq in E0|apply Nat.eqb_neq in E0].
  { simpl. split; [now exists true|]. split; [auto|]. split; [auto|]. lia. }
  destruct (List.length files =? size) eqn:E1;
    [apply Nat.eqb_eq in E1|apply Nat.eqb_neq in E1]; cbn [negb fst]; cbv zeta.
  - assert (Hne : files <> []) by (intros ->; simpl in E1; lia).
    destruct (sampleLoop_spec random (db s0)
                (seq 0 (Nat.min 10 (List.length files))) Hne)
      as (b & Hb & Ht & Hf).
    rewrite Hb. split; [now exists b|]. split; [lia|]. split.
    + intros H. inversion H. subst b. right. right. now apply Ht.
    + intros _ _ H. now rewrite (Hf H).
  - split; [now exists true|]. split; [auto|]. split; [auto|]. lia.
Qed.

End StatsFacts.

Section SearchMore.
Local Open Scope float_scope.




End SearchMore.

(** ** The embedding service *)

Section BatchFacts.
Variable A : Type.

Lemma batches_concat (size : nat) :
  0 < size ->
  forall fuel (a : list A),
    List.length a <= fuel -> List.concat (JsArray.batches fuel size a) = a.
Proof.
  intros Hs. induction fuel as [| fuel IH]; intros a Hf.
  - destruct a; [reflexivity | simpl in Hf; lia].
  - destruct a as [| x a]; [reflexivity |].
    cbn [JsArray.batches List.concat]. rewrite IH.
    + apply firstn_skipn.
    + rewrite length_skipn. cbn [List.length] in *. lia.
Qed.

Lemma batches_fuel (size : nat) :
  0 < size ->
  forall fuel fuel' (a : list A),
    List.length a <= fuel -> List.length a <= fuel' ->
    JsArray.batches fuel size a = JsArray.batches fuel' size a.
Proof.
  intros Hs. induction fuel as [| fuel IH]; intros fuel' a Hf Hf'.
  - destruct a; [destruct fuel'; reflexivity | simpl in Hf; lia].
  - destruct a as [| x a]; [destruct fuel'; reflexivity |].
    destruct fuel' as [| fuel']; [simpl in Hf'; lia |].
    cbn [JsArray.batches]. f_equal.
    apply IH; rewrite length_skipn; cbn [List.length] in *; lia.
Qed.

Lemma batches_more (size : nat) (fuel : nat) (a : list A) :
  0 < size -> List.length a <= fuel ->
  JsArray.batches fuel size a = JsArray.batchesOf size a.
Proof.
  intros Hs Hf. apply batches_fuel; [exact Hs | exact Hf | lia].
Qed.

Lemma batchesOf_app (size : nat) (b rest : list A) :
  0 < size -> List.length b = size ->
  JsArray.batchesOf size (b ++ rest) = b :: JsArray.batchesOf size rest.
Proof.
  intros Hs Hb. unfold JsArray.batchesOf at 1.
  destruct b as [| x b]; [simpl in Hb; lia |].
  cbn [app List.length JsArray.batches].
  change (x :: b ++ rest) with ((x :: b) ++ rest).
  rewrite <- Hb at 1 3.
  rewrite firstn_app, firstn_all, Nat.sub_diag, app_nil_r.
  rewrite skipn_app, skipn_all, Nat.sub_diag. cbn [app skipn firstn].
  f_equal.
  apply batches_more; [lia |]. rewrite length_app. lia.
Qed.

End BatchFacts.

Section GeminiFacts.
Variable P : Type.
Variable embedContent : EmbeddingModel P.

Import JsString.

Local Abbreviation step :=
  (fun (st : list (list float) * P) batch =>
     let (embeddings, p) := st in
     let (batchResults, p') := Gemini.embedBatch embedContent batch p in
     ((embeddings ++ batchResults)%list, p')).

Lemma trimStart_text s :
  hasText s = true ->
  exists c r, trimStart s = String c r /\ isSpace c = false.
Proof.
  induction s as [| c s IH]; intros H; [discriminate |].
  cbn [hasText] in H. cbn [trimStart].
  destruct (isSpace c) eqn:E.
  - simpl in H. apply IH, H.
  - exists c, s. auto.
Qed.

Lemma trimStart_blank s : hasText s = false -> trimStart s = EmptyString.
Proof.
  induction s as [| c s IH]; intros H; [reflexivity |].
  cbn [hasText] in H. apply orb_false_iff in H. destruct H as [H1 H2].
  cbn [trimStart]. apply negb_false_iff in H1. rewrite H1. apply IH, H2.
Qed.

Lemma length_take n : forall s, String.length (take n s) <= n.
Proof.
  induction n as [| n IH]; intros [| c s]; simpl; try lia.
  specialize (IH s). lia.
Qed.

Lemma prefix_take n : forall s, String.prefix (take n s) s = true.
Proof.
  induction n as [| n IH]; intros [| c s]; simpl; try reflexivity.
  rewrite IH. destruct (ascii_dec c c); [reflexivity | congruence].
Qed.

Lemma generateEmbedding_cases text p :
  (hasText text = false /\ Gemini.generateEmbedding embedContent text p = (Ok [], p))
  \/ (exists c rest,
        hasText text = true /\ isSpace c = false
        /\ take 10000 (trim text) = String c rest
        /\ Gemini.generateEmbedding embedContent text p
           = embedContent (String c rest) p).
Proof.
  unfold Gemini.generateEmbedding, trim.
  destruct (hasText text) eqn:H.
  - right. destruct (trimStart_text text H) as (c & r & E & Hc).
    rewrite E. cbn [trimEnd]. rewrite Hc. cbn [andb].
    exists c, (take 9999 (trimEnd r)).
    change (take 10000 (String c (trimEnd r)))
      with (String c (take 9999 (trimEnd r))).
    cbn [isEmpty]. auto.
  - left. rewrite (trimStart_blank text H). auto.
Qed.

(** X12.  [generateEmbedding] sends no request for a text that is empty or
    all white space, and answers with the empty embedding.  For any other
    text it sends one request, whose text is a prefix of the trimmed text,
    is not empty, does not start with white space and has at most 10000
    characters; the answer of the provider, or its failure, is the
    result. *)
Theorem generateEmbedding_request (text : string) (p : P) :
  (hasText text = false ->
   Gemini.generateEmbedding embedContent text p = (Ok [], p))
  /\ (hasText text = true ->
      exists c rest,
        isSpace c = false
        /\ String.length (String c rest) <= 10000
        /\ String.prefix (String c rest) (trim text) = true
        /\ Gemini.generateEmbedding embedContent text p
           = embedContent (String c rest) p).
Proof.
  destruct (generateEmbedding_cases text p)
    as [[H E] | (c & rest & H & Hc & Ht & E)]; split; intros H'; try congruence.
  exists c, rest. rewrite <- Ht.
  repeat split; [exact Hc | apply length_take | apply prefix_take |].
  rewrite Ht. exact E.
Qed.

Lemma issueAll_length batch : forall p,
  List.length (fst (Gemini.issueAll embedContent batch p)) = List.length batch.
Proof.
  induction batch as [| t batch IH]; intros p; [reflexivity |].
  cbn [Gemini.issueAll].
  destruct (Gemini.generateEmbedding embedContent t p) as [o p1].
  specialize (IH p1).
  destruct (Gemini.issueAll embedContent batch p1) as [os p2].
  simpl in *. congruence.
Qed.

Lemma promiseAll_length (B : Type) (os : list (Outcome B)) : forall l,
  Gemini.promiseAll os = Ok l -> List.length l = List.length os.
Proof.
  induction os as [| o os IH]; intros l H.
  - inversion H. reflexivity.
  - cbn [Gemini.promiseAll] in H. destruct o as [a |]; [| discriminate].
    destruct (Gemini.promiseAll os) as [l' |]; [| discriminate].
    inversion H. simpl. f_equal. apply IH. reflexivity.
Qed.

Lemma embedBatch_length batch p :
  List.length (fst (Gemini.embedBatch embedContent batch p)) = List.length batch.
Proof.
  unfold Gemini.embedBatch.
  pose proof (issueAll_length batch p) as H.
  destruct (Gemini.issueAll embedContent batch p) as [os p'].
  destruct (Gemini.promiseAll os) as [l |] eqn:E.
  - cbn [fst] in *. rewrite (@promiseAll_length _ os l E). exact H.
  - cbn [fst]. apply length_map.
Qed.

(** The loop of [generateEmbeddings] over a list of batches. *)
Lemma generate_loop bs : forall acc p,
  fold_left step bs (acc, p)
  = ((acc ++ fst (fold_left step bs ([], p)))%list,
     snd (fold_left step bs ([], p))).
Proof.
  induction bs as [| b bs IH]; intros acc p.
  - cbn [fold_left fst snd]. rewrite app_nil_r. reflexivity.
  - cbn [fold_left].
    destruct (Gemini.embedBatch embedContent b p) as [r p1].
    rewrite (IH (acc ++ r)%list p1). cbn [app].
    rewrite (IH r p1). cbn [fst snd]. rewrite app_assoc. reflexivity.
Qed.

Lemma generate_loop_length bs : forall p,
  List.length (fst (fold_left step bs ([], p))) = List.length (List.concat bs).
Proof.
  induction bs as [| b bs IH]; intros p; [reflexivity |].
  cbn [fold_left List.concat].
  pose proof (embedBatch_length b p) as Hb.
  destruct (Gemini.embedBatch embedContent b p) as [r p1].
  cbn [app]. rewrite generate_loop. cbn [fst] in *.
  rewrite !length_app, IH, Hb. reflexivity.
Qed.

(** X13.  [generateEmbeddings] returns one embedding for each text, whatever
    the provider answers and whichever requests fail: position [i] of the
    result belongs to text [i]. *)
Theorem generateEmbeddings_length (texts : list string) (p : P) :
  List.length (fst (Gemini.generateEmbeddings embedContent texts p))
  = List.length texts.
Proof.
  unfold Gemini.generateEmbeddings. rewrite generate_loop_length.
  unfold JsArray.batchesOf. rewrite batches_concat; [reflexivity | lia | lia].
Qed.

Lemma issueAll_app a : forall b p,
  Gemini.issueAll embedContent (a ++ b) p
  = ((fst (Gemini.issueAll embedContent a p)
      ++ fst (Gemini.issueAll embedContent b
                (snd (Gemini.issueAll embedContent a p))))%list,
     snd (Gemini.issueAll embedContent b
            (snd (Gemini.issueAll embedContent a p)))).
Proof.
  induction a as [| t a IH]; intros b p.
  - cbn [app Gemini.issueAll fst snd].
    destruct (Gemini.issueAll embedContent b p); reflexivity.
  - cbn [app Gemini.issueAll].
    destruct (Gemini.generateEmbedding embedContent t p) as [o p1].
    rewrite IH.
    destruct (Gemini.issueAll embedContent a p1) as [os p2]. reflexivity.
Qed.

Lemma promiseAll_app (B : Type) (xs : list (Outcome B)) : forall ys l,
  Gemini.promiseAll (xs ++ ys) = Ok l ->
  exists l1 l2,
    Gemini.promiseAll xs = Ok l1 /\ Gemini.promiseAll ys = Ok l2
    /\ l = (l1 ++ l2)%list.
Proof.
  induction xs as [| x xs IH]; intros ys l H.
  - exists [], l. auto.
  - cbn [app Gemini.promiseAll] in *. destruct x as [a |]; [| discriminate].
    destruct (Gemini.promiseAll (xs ++ ys)) as [l' |] eqn:E; [| discriminate].
    destruct (IH ys l' E) as (l1 & l2 & H1 & H2 & H3).
    rewrite H1. exists (a :: l1), l2. inversion H. subst. auto.
Qed.

Lemma generate_loop_succeeds bs : forall p l,
  Gemini.promiseAll (fst (Gemini.issueAll embedContent (List.concat bs) p)) = Ok l ->
  fold_left step bs ([], p)
  = (l, snd (Gemini.issueAll embedContent (List.concat bs) p)).
Proof.
  induction bs as [| b bs IH]; intros p l H.
  - cbn [List.concat Gemini.issueAll fst snd] in *. inversion H. reflexivity.
  - cbn [List.concat] in *. rewrite issueAll_app in *. cbn [fst snd] in *.
    destruct (@promiseAll_app _ _ _ _ H) as (l1 & l2 & H1 & H2 & ->).
    cbn [fold_left]. unfold Gemini.embedBatch.
    destruct (Gemini.issueAll embedContent b p) as [os p1].
    cbn [fst snd] in *. rewrite H1. cbn [app].
    rewrite generate_loop, (IH p1 l2 H2). reflexivity.
Qed.

(** X14.  When no request fails, batching is invisible: the result of
    [generateEmbeddings] is the list of the answers to the texts, asked one
    after the other in order. *)
Theorem generateEmbeddings_all_succeed (texts : list string) (p : P)
  (l : list (list float)) :
  Gemini.promiseAll (fst (Gemini.issueAll embedContent texts p)) = Ok l ->
  Gemini.generateEmbeddings embedContent texts p
  = (l, snd (Gemini.issueAll embedContent texts p)).
Proof.
  intros H. unfold Gemini.generateEmbeddings.
  assert (E : List.concat (JsArray.batchesOf 5 texts) = texts)
    by (apply batches_concat; lia).
  rewrite <- E in H. rewrite (@generate_loop_succeeds _ p l H), E. reflexivity.
Qed.

Lemma generateEmbeddings_app b rest p :
  List.length b = 5 ->
  Gemini.generateEmbeddings embedContent (b ++ rest) p
  = ((fst (Gemini.embedBatch embedContent b p)
      ++ fst (Gemini.generateEmbeddings embedContent rest
                (snd (Gemini.embedBatch embedContent b p))))%list,
     snd (Gemini.generateEmbeddings embedContent rest
            (snd (Gemini.embedBatch embedContent b p)))).
Proof.
  intros Hb. unfold Gemini.generateEmbeddings.
  rewrite batchesOf_app by (lia || exact Hb). cbn [fold_left].
  destruct (Gemini.embedBatch embedContent b p) as [r p1]. cbn [app fst snd].
  apply generate_loop.
Qed.

(** X15.  A full batch in which a request fails gets five empty
    embeddings, also for the texts whose request succeeded; every request of
    the batch is still sent, and the texts after it are embedded as a call
    that starts with them would embed them. *)
Theorem generateEmbeddings_failing_batch (b rest : list string) (p : P) :
  List.length b = 5 ->
  batchRejects embedContent b p = true ->
  let p' := snd (Gemini.issueAll embedContent b p) in
  Gemini.generateEmbeddings embedContent (b ++ rest) p
  = ((repeat [] 5 ++ fst (Gemini.generateEmbeddings embedContent rest p'))%list,
     snd (Gemini.generateEmbeddings embedContent rest p')).
Proof.
  intros Hb Hr p'. rewrite generateEmbeddings_app by exact Hb.
  unfold batchRejects in Hr. unfold Gemini.embedBatch. subst p'.
  destruct (Gemini.issueAll embedContent b p) as [os p1]. cbn [fst snd] in *.
  destruct (Gemini.promiseAll os); [discriminate |]. cbn [fst snd].
  do 6 (destruct b as [| ? b]; try discriminate). reflexivity.
Qed.

End GeminiFacts.

(** ** The chat *)

Section ChatFacts.

Import GeminiChat.

Variable model : ChatModel.

Lemma slice0_but_last (A : Type) (l : list A) (x : A) :
  JsArray.slice0 (-1) (l ++ [x]) = l.
Proof.
  unfold JsArray.slice0. cbn [Z.ltb Z.compare Z.opp].
  rewrite length_app. cbn [List.length].
  replace (List.length l + 1 - Z.to_nat 1) with (List.length l + 0) by lia.
  rewrite firstn_app_2. cbn [firstn]. apply app_nil_r.
Qed.

Lemma temperatureOrDefault_truthy t :
  (temperatureOrDefault t =? 0)%float = false
  /\ is_nan (temperatureOrDefault t) = false.
Proof.
  destruct t as [x |]; [| split; reflexivity].
  unfold temperatureOrDefault.
  destruct ((x =? 0)%float) eqn:E1; [split; reflexivity |].
  destruct (is_nan x) eqn:E2; [split; reflexivity |].
  cbn [orb]. auto.
Qed.

(** X16.  [chat] throws for an empty list of messages without asking the
    model.  Otherwise the content of the last message is the text sent, and
    the history holds the earlier messages in order, in the format of the
    provider; with a context that is not empty the prompt built from it and
    its acknowledgement come first, and without context nothing is added.
    The temperature passed on is never 0 and never NaN: such a setting is
    replaced by the default. *)
Theorem chat_spec (temperature : option float) (context : list string) :
  chat model temperature [] context = Threw
  /\ (forall earlier lastMessage,
        let prompt :=
          match context with
          | [] => []
          | _ :: _ =>
              [ {| geminiRole := RoleUser; text := systemPrompt context |};
                {| geminiRole := RoleModel; text := acknowledgement |} ]
          end in
        chat model temperature (earlier ++ [lastMessage]) context
        = model (temperatureOrDefault temperature)
            (prompt ++ map formatMessage earlier) (content lastMessage))
  /\ (temperatureOrDefault temperature =? 0)%float = false
  /\ is_nan (temperatureOrDefault temperature) = false.
Proof.
  split; [reflexivity |]. split; [| apply temperatureOrDefault_truthy].
  intros earlier lastMessage prompt. unfold chat.
  rewrite length_app. cbn [List.length].
  replace (List.length earlier + 1 - 1) with (List.length earlier + 0) by lia.
  rewrite nth_error_app2 by lia.
  replace (List.length earlier + 0 - List.length earlier) with 0 by lia.
  cbn [nth_error]. f_equal.
  unfold formattedMessages. rewrite map_app. cbn [map].
  subst prompt. destruct context as [| note context].
  - cbn [List.length Nat.ltb Nat.leb app]. apply slice0_but_last.
  - cbn [List.length Nat.ltb Nat.leb].
    rewrite !app_comm_cons. apply slice0_but_last.
Qed.

End ChatFacts.

(** ** The indexer *)

Section SubseqFacts.
Variables A B : Type.

Lemma Subseq_nil_l (l : list A) : Subseq [] l.
Proof. induction l; constructor; assumption. Qed.

Lemma Subseq_refl (l : list A) : Subseq l l.
Proof. induction l; constructor; assumption. Qed.

Lemma Subseq_app (a b c d : list A) :
  Subseq a b -> Subseq c d -> Subseq (a ++ c) (b ++ d).
Proof.
  intros H1 H2. induction H1; cbn [app]; [exact H2 | |]; constructor; assumption.
Qed.

Lemma Subseq_length (l1 l2 : list A) :
  Subseq l1 l2 -> List.length l1 <= List.length l2.
Proof. induction 1; cbn [List.length]; lia. Qed.

Lemma Subseq_length_eq (l1 l2 : list A) :
  Subseq l1 l2 -> List.length l1 = List.length l2 -> l1 = l2.
Proof.
  induction 1 as [| x l1 l2 H IH | x l1 l2 H IH]; cbn [List.length]; intros E.
  - reflexivity.
  - apply Subseq_length in H. lia.
  - f_equal. apply IH. lia.
Qed.

Lemma Subseq_In (l1 l2 : list A) (x : A) : Subseq l1 l2 -> In x l1 -> In x l2.
Proof.
  induction 1 as [| y l1 l2 H IH | y l1 l2 H IH]; intros Hx.
  - exact Hx.
  - right. apply IH, Hx.
  - destruct Hx as [-> | Hx]; [now left | right; apply IH, Hx].
Qed.

Lemma Subseq_trans (l1 l2 l3 : list A) :
  Subseq l1 l2 -> Subseq l2 l3 -> Subseq l1 l3.
Proof.
  intros H12 H23. revert l1 H12.
  induction H23 as [| x l2 l3 H IH | x l2 l3 H IH]; intros l1 H12.
  - exact H12.
  - constructor. apply IH, H12.
  - inversion H12; subst; constructor; apply IH; assumption.
Qed.

End SubseqFacts.

Section EntryFacts.
Variable P : Type.
Variable embedContent : EmbeddingModel P.
Variable app : App.

Import JsString NoteText.

Lemma nth_error_skipn_head (A : Type) (k : nat) : forall (l : list A),
  nth_error l k = hd_error (skipn k l) /\ skipn (S k) l = tl (skipn k l).
Proof.
  induction k as [| k IH]; intros [| x l]; try (split; reflexivity).
  cbn [nth_error]. change (skipn (S k) (x :: l)) with (skipn k l).
  change (skipn (S (S k)) (x :: l)) with (skipn (S k) l). apply IH.
Qed.

Lemma makeEntries_from embeddings fileData :
  forall k acc,
    fold_left
      (fun entries (ifd : nat * (TFile * string)) =>
         let '(i, (f, text)) := ifd in
         match nth_error embeddings i with
         | Some e =>
             if VectorDb.nonEmpty e
             then (entries ++ [Indexer.makeEntry f text e])%list
             else entries
         | None => entries
         end)
      (combine (seq k (List.length fileData)) fileData) acc
    = (acc ++ entriesOf fileData (skipn k embeddings))%list.
Proof.
  induction fileData as [| [f text] fileData IH]; intros k acc.
  - cbn. now rewrite app_nil_r.
  - cbn [List.length seq combine fold_left]. rewrite IH.
    destruct (nth_error_skipn_head k embeddings) as [E1 E2]. rewrite E1, E2.
    unfold entriesOf.
    destruct (skipn k embeddings) as [| e rest]; cbn [hd_error tl combine flat_map].
    + destruct fileData; reflexivity.
    + destruct (VectorDb.nonEmpty e); [now rewrite <- app_assoc | reflexivity].
Qed.

Lemma makeEntries_entriesOf fileData embeddings :
  Indexer.makeEntries fileData embeddings = entriesOf fileData embeddings.
Proof. unfold Indexer.makeEntries. now rewrite makeEntries_from. Qed.

Lemma processBatch_unfold files p :
  let texts := map snd (readable app files) in
  Indexer.processBatch embedContent app files p
  = match readable app files with
    | [] => ([], p)
    | _ :: _ =>
        (entriesOf (readable app files)
           (fst (Gemini.generateEmbeddings embedContent texts p)),
         snd (Gemini.generateEmbeddings embedContent texts p))
    end.
Proof.
  intros texts. unfold Indexer.processBatch. rewrite readBatch_readable.
  subst texts. destruct (readable app files) as [| fd fileData]; [reflexivity |].
  destruct (Gemini.generateEmbeddings _ _ _) as [embeddings p'].
  now rewrite makeEntries_entriesOf.
Qed.

Lemma entriesOf_keys fileData : forall embeddings,
  Subseq (map entryKey (entriesOf fileData embeddings))
         (map (fun fd => fileKey (fst fd)) fileData).
Proof.
  unfold entriesOf.
  induction fileData as [| [f text] fileData IH]; intros [| e embeddings];
    cbn [combine flat_map map fst]; try apply Subseq_nil_l.
  rewrite map_app. destruct (VectorDb.nonEmpty e); cbn [map List.app].
  - apply Subseq_keep, IH.
  - apply Subseq_skip, IH.
Qed.

Lemma readable_keys files :
  Subseq (map (fun fd => fileKey (fst fd)) (readable app files)) (map fileKey files).
Proof.
  unfold readable. induction files as [| f files IH]; [constructor |].
  cbn [flat_map map]. rewrite map_app.
  destruct (cachedRead app f); cbn [map List.app fst].
  - apply Subseq_keep, IH.
  - apply Subseq_skip, IH.
Qed.

Lemma readable_In files f text :
  In (f, text) (readable app files) ->
  In f files /\ exists c, cachedRead app f = Ok c /\ text = preprocessContent c f.
Proof.
  unfold readable. rewrite in_flat_map. intros (g & Hg & H).
  destruct (cachedRead app g) as [c |] eqn:E; [| destruct H].
  destruct H as [H | []]. inversion H. subst. eauto.
Qed.

Lemma entriesOf_In fileData embeddings entry :
  In entry (entriesOf fileData embeddings) ->
  exists f text,
    In (f, text) fileData
    /\ entry = Indexer.makeEntry f text (embedding entry)
    /\ embedding entry <> [].
Proof.
  unfold entriesOf. rewrite in_flat_map. intros ([[f text] e] & Hin & H).
  destruct e as [| x e]; [destruct H |]. destruct H as [<- | []].
  exists f, text. split; [exact (in_combine_l _ _ _ _ Hin) |].
  split; [reflexivity | discriminate].
Qed.

Lemma processBatch_keys files p :
  Subseq (map entryKey (fst (Indexer.processBatch embedContent app files p)))
         (map fileKey files).
Proof.
  rewrite processBatch_unfold.
  destruct (readable app files) as [| fd fileData] eqn:E;
    [apply Subseq_nil_l |]. cbn [fst]. rewrite <- E.
  eapply Subseq_trans; [apply entriesOf_keys | apply readable_keys].
Qed.

Lemma processBatch_In files p entry :
  In entry (fst (Indexer.processBatch embedContent app files p)) ->
  exists f c,
    In f files /\ cachedRead app f = Ok c
    /\ entry = Indexer.makeEntry f (preprocessContent c f) (embedding entry)
    /\ embedding entry <> [].
Proof.
  rewrite processBatch_unfold.
  destruct (readable app files) as [| fd fileData] eqn:E; [intros [] |].
  cbn [fst]. rewrite <- E. intros H.
  destruct (entriesOf_In _ _ _ H) as (f & text & Hin & He & Hne).
  destruct (readable_In _ _ _ Hin) as (Hf & c & Hc & ->).
  exists f, c. auto.
Qed.

Lemma length_take_le n : forall s, String.length (take n s) <= n.
Proof.
  induction n as [| n IH]; intros [| c s]; simpl; try lia.
  specialize (IH s). lia.
Qed.

(** X17.  The entries of [processBatch] follow the order of the files, at
    most one for each file: their ids, titles and times are the paths, base
    names and [mtime]s of files of the batch, in order.  Each entry belongs
    to a file that could be read, holds the tags and the first 3000
    characters of its preprocessed text, and has an embedding that is not
    empty. *)
Theorem processBatch_entries (files : list TFile) (p : P) :
  let entries := fst (Indexer.processBatch embedContent app files p) in
  Subseq (map entryKey entries) (map fileKey files)
  /\ Forall
       (fun entry =>
          (exists f c,
              In f files /\ cachedRead app f = Ok c
              /\ entry = Indexer.makeEntry f (preprocessContent c f) (embedding entry))
          /\ embedding entry <> []
          /\ String.length (content entry) <= 3000)
       entries.
Proof.
  intros entries. split; [apply processBatch_keys |].
  apply Forall_forall. intros entry H.
  destruct (processBatch_In _ _ _ H) as (f & c & Hf & Hc & He & Hne).
  split; [exists f, c; auto |]. split; [exact Hne |].
  rewrite He. cbn [content Indexer.makeEntry]. apply length_take_le.
Qed.

End EntryFacts.

Section StoreSteps.

Lemma live_In files k : live files k = true <-> In k (map path files).
Proof.
  unfold live, VectorDb.setHas. rewrite existsb_exists. split.
  - intros (x & Hx & E). apply String.eqb_eq in E. now subst.
  - intros H. exists k. split; [exact H | apply String.eqb_refl].
Qed.

Lemma saveDatabase_flushes s :
  flushes (adapter (snd (VectorDb.saveDatabase s))) = S (flushes (adapter s)).
Proof. unfold VectorDb.saveDatabase. now destruct (writable (adapter s)). Qed.

Lemma removeDeletedNotes_state files s :
  let s' := snd (VectorDb.removeDeletedNotes files s) in
  db s' = filter (fun kv => live files (fst kv)) (db (VectorDb.ensureLoaded s))
  /\ loaded s' = true
  /\ flushes (adapter s) <= flushes (adapter s') <= S (flushes (adapter s)).
Proof.
  intros s'. subst s'. rewrite removeDeletedNotes_unfold. cbv zeta.
  set (s1 := VectorDb.with_db _ _).
  assert (L : loaded s1 = true) by apply ensureLoaded_loaded.
  assert (F : flushes (adapter s1) = flushes (adapter s))
    by (unfold s1; cbn [VectorDb.with_db adapter]; now rewrite ensureLoaded_adapter).
  destruct (0 <? _).
  - pose proof (saveDatabase_db s1) as Hd.
    pose proof (saveDatabase_loaded s1) as Hl.
    pose proof (saveDatabase_flushes s1) as Hf.
    destruct (VectorDb.saveDatabase s1) as [[[] |] s2]; cbn [fst snd] in *;
      rewrite Hd, Hl, Hf, F; (split; [reflexivity |]); (split; [exact L | lia]).
  - cbn [snd]. rewrite F. split; [reflexivity |]. split; [exact L | lia].
Qed.

Lemma addVectors_state entries s :
  let s' := snd (VectorDb.addVectors entries s) in
  db s' = setAll entries (db (VectorDb.ensureLoaded s))
  /\ loaded s' = true
  /\ flushes (adapter s') = S (flushes (adapter s)).
Proof.
  intros s'. subst s'. unfold VectorDb.addVectors.
  rewrite saveDatabase_db, saveDatabase_loaded, saveDatabase_flushes.
  cbn [VectorDb.with_db db loaded adapter].
  rewrite ensureLoaded_loaded, ensureLoaded_adapter. auto.
Qed.

Lemma addVector_state entry s :
  let s' := snd (VectorDb.addVector entry s) in
  db s' = JsMap.set (id entry) entry (db (VectorDb.ensureLoaded s))
  /\ loaded s' = true.
Proof.
  intros s'. subst s'. unfold VectorDb.addVector.
  rewrite saveDatabase_db, saveDatabase_loaded.
  cbn [VectorDb.with_db db loaded]. rewrite ensureLoaded_loaded. auto.
Qed.

Lemma ensureLoaded_of_loaded s : loaded s = true -> VectorDb.ensureLoaded s = s.
Proof. intros H. unfold VectorDb.ensureLoaded. now rewrite H. Qed.

Lemma lastWithId_Some k entries entry :
  lastWithId k entries = Some entry -> In entry entries /\ id entry = k.
Proof.
  unfold lastWithId. intros H. apply find_some in H. destruct H as [H E].
  apply in_rev in H. apply String.eqb_eq in E. auto.
Qed.

Lemma lastWithId_None k entries :
  lastWithId k entries = None -> ~ In k (map id entries).
Proof.
  unfold lastWithId. intros H Hin. apply in_map_iff in Hin.
  destruct Hin as (entry & <- & Hin). apply in_rev in Hin.
  pose proof (find_none _ _ H _ Hin) as E. cbn in E.
  now rewrite String.eqb_refl in E.
Qed.

Lemma lastWithId_unique entries entry :
  NoDup (map id entries) -> In entry entries ->
  lastWithId (id entry) entries = Some entry.
Proof.
  intros N Hin.
  destruct (lastWithId (id entry) entries) as [other |] eqn:E.
  - destruct (lastWithId_Some _ _ E) as [Ho Hid]. f_equal.
    clear E. induction entries as [| e entries IH]; [destruct Hin |].
    cbn [map] in N. inversion N as [| ? ? Hn N']. subst.
    destruct Hin as [-> | Hin], Ho as [-> | Ho]; auto.
    + exfalso. apply Hn. rewrite <- Hid. now apply in_map.
    + exfalso. apply Hn. rewrite Hid. now apply in_map.
  - exfalso. apply (lastWithId_None _ _ E). now apply in_map.
Qed.

Lemma keys_In (V : Type) k (m : JsMap.t V) :
  In k (JsMap.keys m) <-> JsMap.get k m <> None.
Proof.
  pose proof (get_none_keys k m) as H.
  destruct (JsMap.get k m) as [v |].
  - split; [discriminate |]. intros _.
    destruct (in_dec string_dec k (JsMap.keys m)) as [Hin | Hn]; [exact Hin |].
    apply H in Hn. discriminate.
  - split; [| congruence]. intros Hin. exfalso. now apply H.
Qed.

Lemma keys_setAll k entries m :
  In k (JsMap.keys (setAll entries m))
  <-> In k (map id entries) \/ In k (JsMap.keys m).
Proof.
  rewrite !keys_In, get_setAll.
  destruct (lastWithId k entries) as [entry |] eqn:E.
  - split; [| discriminate]. intros _. left.
    destruct (lastWithId_Some _ _ E) as [Hin <-]. now apply in_map.
  - split; [now right |]. intros [H | H]; [| exact H].
    now apply lastWithId_None in E.
Qed.

Lemma keys_filter_live files (m : JsMap.t VectorEntry) k :
  In k (JsMap.keys (filter (fun kv => live files (fst kv)) m)) ->
  In k (map path files).
Proof.
  unfold JsMap.keys. rewrite in_map_iff. intros ([k' v] & <- & H).
  apply filter_In in H. destruct H as [_ H]. now apply live_In.
Qed.

End StoreSteps.

Section RunFacts.
Variable P : Type.
Variable embedContent : EmbeddingModel P.
Variable app : App.

Import JsString NoteText.

Local Abbreviation files := (markdownFiles app).

Lemma runBatches_keys batches : forall p,
  Subseq
    (map entryKey (fst (fst (Indexer.runBatches embedContent app batches p))))
    (map fileKey (List.concat batches)).
Proof.
  induction batches as [| batch batches IH]; intros p; [constructor |].
  rewrite runBatches_cons.
  pose proof (processBatch_keys embedContent app batch p) as H1.
  destruct (Indexer.processBatch embedContent app batch p) as [es1 p1].
  specialize (IH p1).
  destruct (Indexer.runBatches embedContent app batches p1) as [[es n] p'].
  cbn [fst List.concat] in *. rewrite !map_app. now apply Subseq_app.
Qed.

Lemma runBatches_count batches : forall p,
  snd (fst (Indexer.runBatches embedContent app batches p))
  = List.length (fst (fst (Indexer.runBatches embedContent app batches p))).
Proof.
  induction batches as [| batch batches IH]; intros p; [reflexivity |].
  rewrite runBatches_cons.
  destruct (Indexer.processBatch embedContent app batch p) as [es1 p1].
  specialize (IH p1).
  destruct (Indexer.runBatches embedContent app batches p1) as [[es n] p'].
  cbn [fst snd] in *. rewrite length_app. lia.
Qed.

Lemma allEntries_keys p :
  Subseq
    (map entryKey
       (fst (fst (Indexer.runBatches embedContent app (JsArray.batchesOf 5 files) p))))
    (map fileKey files).
Proof.
  pose proof (runBatches_keys (JsArray.batchesOf 5 files) p) as H.
  unfold JsArray.batchesOf in H at 2.
  rewrite batches_concat in H; [exact H | lia | lia].
Qed.

Lemma keys_paths (entries : list VectorEntry) (fs : list TFile) k :
  Subseq (map entryKey entries) (map fileKey fs) ->
  In k (map id entries) -> In k (map path fs).
Proof.
  intros S Hin. apply in_map_iff in Hin. destruct Hin as (entry & <- & Hin).
  pose proof (@Subseq_In _ _ _ _ S (in_map entryKey _ _ Hin)) as H.
  apply in_map_iff in H. destruct H as (f & E & Hf).
  unfold fileKey, entryKey in E. injection E as E1 E2 E3.
  rewrite <- E1. now apply in_map.
Qed.

(** The run of [indexAllNotes] from rest. *)
Lemma indexAllNotes_cases ix p :
  isIndexing ix = false ->
  let s0 := snd (VectorDb.removeDeletedNotes files (vectorDb ix)) in
  let entries :=
    fst (fst (Indexer.runBatches embedContent app (JsArray.batchesOf 5 files) p)) in
  let r := Indexer.indexAllNotes embedContent app ix p in
  let s' := vectorDb (snd (fst r)) in
  isIndexing (snd (fst r)) = false
  /\ loaded s' = true
  /\ (db s' = db s0 \/ db s' = setAll entries (db s0))
  /\ flushes (adapter s0) <= flushes (adapter s') <= S (flushes (adapter s0))
  /\ (forall n, fst (fst r) = Ok n ->
        (n = 0 /\ files = []) \/
        (n = List.length entries /\ db s' = setAll entries (db s0))).
Proof.
  intros Hidle s0 entries r s'.
  destruct (removeDeletedNotes_state files (vectorDb ix)) as (_ & L0 & _).
  fold s0 in L0.
  pose proof (runBatches_count (JsArray.batchesOf 5 files) p) as Hc.
  fold entries in Hc.
  subst s' r. unfold Indexer.indexAllNotes. rewrite Hidle. fold s0.
  destruct (VectorDb.removeDeletedNotes files (vectorDb ix)) as [[n0 |] s0'] eqn:E0;
    subst s0; cbn [snd] in *.
  2:{ cbn [fst snd vectorDb isIndexing Indexer.idle].
      repeat split; auto; try lia. discriminate. }
  destruct (List.length files =? 0) eqn:E1.
  { cbn [fst snd vectorDb isIndexing Indexer.idle].
    apply Nat.eqb_eq, length_zero_iff_nil in E1.
    repeat split; auto; try lia. intros n H. inversion H. auto. }
  subst entries.
  destruct (Indexer.runBatches embedContent app (JsArray.batchesOf 5 files) p)
    as [[entries indexed] p'].
  cbn [fst snd] in *. subst indexed.
  destruct (0 <? List.length entries) eqn:E2.
  - destruct (addVectors_state entries s0') as (Hd & Hl & Hf).
    rewrite (@ensureLoaded_of_loaded _ L0) in Hd.
    destruct (VectorDb.addVectors entries s0') as [[[] |] s2];
      cbn [fst snd vectorDb isIndexing Indexer.idle] in *;
      rewrite Hf; repeat split; auto; try lia; try discriminate.
    intros n H. inversion H. auto.
  - cbn [fst snd vectorDb isIndexing Indexer.idle].
    apply Nat.ltb_ge in E2.
    assert (En : entries = []) by (destruct entries; [reflexivity | simpl in E2; lia]).
    subst entries. repeat split; auto; try lia.
    intros n H. inversion H. auto.
Qed.

(** X18.  A run of [indexAllNotes] started at rest ends at rest, whether it
    returns or throws.  Afterwards every id of the store is the path of a
    markdown file: nothing of a deleted note is left, also when a flush
    failed.  The number returned is at most the number of files, and the
    run flushes at most twice, however many batches it has. *)
Theorem indexAllNotes_invariants (ix : NoteIndexer) (p : P) :
  isIndexing ix = false ->
  let r := Indexer.indexAllNotes embedContent app ix p in
  let s' := vectorDb (snd (fst r)) in
  isIndexing (snd (fst r)) = false
  /\ (forall k, In k (fst (VectorDb.getAllNoteIds s')) -> In k (map path files))
  /\ (forall n, fst (fst r) = Ok n -> n <= List.length files)
  /\ flushes (adapter s') <= flushes (adapter (vectorDb ix)) + 2.
Proof.
  intros Hidle r s'.
  destruct (indexAllNotes_cases ix p Hidle) as (H1 & H2 & H3 & H4 & H5).
  fold r in H1, H2, H3, H4, H5. fold s' in H2, H3, H4, H5.
  destruct (removeDeletedNotes_state files (vectorDb ix)) as (D0 & L0 & F0).
  pose proof (allEntries_keys p) as Sub.
  split; [exact H1 |]. split; [| split].
  - intros k. unfold VectorDb.getAllNoteIds. cbn [fst].
    rewrite (@ensureLoaded_of_loaded _ H2).
    destruct H3 as [-> | ->].
    + rewrite D0. apply keys_filter_live.
    + rewrite keys_setAll, D0. intros [H | H].
      * exact (@keys_paths _ _ _ Sub H).
      * exact (@keys_filter_live _ _ _ H).
  - intros n H. destruct (H5 n H) as [[-> _] | [-> _]]; [lia |].
    apply Subseq_length in Sub. now rewrite !length_map in Sub.
  - lia.
Qed.

Lemma getModifiedNotes_filter fs s :
  VectorDb.getModifiedNotes fs s
  = (filter (VectorDb.newOrModified (db (VectorDb.ensureLoaded s))) fs,
     VectorDb.ensureLoaded s).
Proof. unfold VectorDb.getModifiedNotes. now rewrite fold_push_filter. Qed.

Lemma needsReindexing_false random fs s :
  JsMap.size (db (VectorDb.ensureLoaded s)) <> 0 ->
  List.length fs = JsMap.size (db (VectorDb.ensureLoaded s)) ->
  (forall f, In f fs ->
             VectorDb.newOrModified (db (VectorDb.ensureLoaded s)) f = false) ->
  fst (VectorDbStats.needsReindexing random fs s) = Ok false.
Proof.
  intros H0 H1 H. unfold VectorDbStats.needsReindexing.
  apply Nat.eqb_neq in H0. rewrite H0.
  pose proof H1 as H1'. apply Nat.eqb_eq in H1'. rewrite H1'.
  cbn [negb fst]; cbv zeta.
  assert (Hne : fs <> []).
  { intros ->. apply Nat.eqb_neq in H0. simpl in H1. congruence. }
  destruct (@sampleLoop_spec random fs (db (VectorDb.ensureLoaded s))
              (seq 0 (Nat.min 10 (List.length fs))) Hne)
    as (b & Hb & _ & Hf).
  rewrite Hb. now rewrite (Hf H).
Qed.

Lemma In_key (entries : list VectorEntry) (fs : list TFile) (f : TFile) :
  map entryKey entries = map fileKey fs -> In f fs ->
  exists entry, In entry entries /\ entryKey entry = fileKey f.
Proof.
  intros E Hf. apply (in_map fileKey) in Hf. rewrite <- E in Hf.
  apply in_map_iff in Hf. destruct Hf as (entry & He & Hin). eauto.
Qed.

Lemma map_id_path (entries : list VectorEntry) (fs : list TFile) :
  map entryKey entries = map fileKey fs -> map id entries = map path fs.
Proof.
  intros E.
  assert (H : map (fun k : string * string * Z => fst (fst k)) (map entryKey entries)
              = map (fun k : string * string * Z => fst (fst k)) (map fileKey fs))
    by now rewrite E.
  rewrite !map_map in H. exact H.
Qed.

Lemma filter_none (A : Type) (test : A -> bool) (l : list A) :
  (forall x, In x l -> test x = false) -> filter test l = [].
Proof.
  induction l as [| x l IH]; intros H; [reflexivity |].
  cbn [filter]. rewrite (H x) by now left.
  apply IH. intros y Hy. apply H. now right.
Qed.

(** X19.  When [indexAllNotes], started at rest on files with distinct
    paths, returns the number of files, the index is complete: every file
    has an entry of its path with its base name, its [mtime] and an
    embedding that is not empty; [getModifiedNotes] finds nothing to do; the
    ids of the store are the paths of the files, and for a vault that is not
    empty [needsReindexing] answers [false], whatever the random draws. *)
Theorem indexAllNotes_complete (random : nat -> nat) (ix : NoteIndexer) (p : P) :
  isIndexing ix = false ->
  NoDup (map path files) ->
  wellKeyed (db (vectorDb ix)) ->
  fst (fst (Indexer.indexAllNotes embedContent app ix p)) = Ok (List.length files) ->
  let s' := vectorDb (snd (fst (Indexer.indexAllNotes embedContent app ix p))) in
  (forall f, In f files ->
     exists entry,
       fst (VectorDb.getVector (path f) s') = Some entry
       /\ entryKey entry = fileKey f /\ embedding entry <> [])
  /\ fst (VectorDb.getModifiedNotes files s') = []
  /\ Permutation (fst (VectorDb.getAllNoteIds s')) (map path files)
  /\ (files <> [] -> fst (VectorDbStats.needsReindexing random files s') = Ok false).
Proof.
  intros Hidle N W Hok s'.
  destruct (indexAllNotes_cases ix p Hidle) as (_ & L & H3 & _ & H5).
  fold s' in L, H3, H5.
  destruct (removeDeletedNotes_state files (vectorDb ix)) as (D0 & _ & _).
  pose proof (allEntries_keys p) as Sub.
  pose proof (runBatches_nonEmpty embedContent app (JsArray.batchesOf 5 files) p)
    as Hne.
  set (entries :=
         fst (fst (Indexer.runBatches embedContent app
                     (JsArray.batchesOf 5 files) p))) in *.
  set (m0 := db (snd (VectorDb.removeDeletedNotes files (vectorDb ix)))) in *.
  assert (Hdb : db s' = setAll entries m0 /\ map entryKey entries = map fileKey files).
  { destruct (H5 _ Hok) as [[_ E] | [E Hd]].
    - assert (En : entries = []) by (subst entries; now rewrite E).
      rewrite En, E. split; [| reflexivity].
      destruct H3 as [H3 | H3]; rewrite H3; [reflexivity | now rewrite En].
    - split; [exact Hd |]. apply Subseq_length_eq; [exact Sub |].
      rewrite !length_map. now symmetry. }
  destruct Hdb as [Hdb Hkeys].
  pose proof (map_id_path _ _ Hkeys) as Hids.
  assert (Nid : NoDup (map id entries)) by now rewrite Hids.
  assert (Hget : forall f, In f files ->
            exists entry, JsMap.get (path f) (db s') = Some entry
                          /\ In entry entries /\ entryKey entry = fileKey f).
  { intros f Hf. destruct (@In_key entries files f Hkeys Hf) as (entry & Hin & Ek).
    exists entry. split; [| auto].
    rewrite Hdb, get_setAll.
    assert (Eid : id entry = path f)
      by (unfold entryKey, fileKey in Ek; now injection Ek).
    rewrite <- Eid. now rewrite (@lastWithId_unique entries entry Nid Hin). }
  assert (Hnew : forall f, In f files -> VectorDb.newOrModified (db s') f = false).
  { intros f Hf. destruct (Hget f Hf) as (entry & Hg & _ & Ek).
    unfold VectorDb.newOrModified. rewrite Hg.
    unfold entryKey, fileKey in Ek. injection Ek as _ _ Em. rewrite Em.
    apply Z.ltb_irrefl. }
  assert (Hperm : Permutation (JsMap.keys (db s')) (map path files)).
  { apply NoDup_Permutation; [| exact N |].
    - assert (W' : wellKeyed (db s')); [| exact (proj1 W')].
      rewrite Hdb. apply wellKeyed_setAll. rewrite D0.
      apply wellKeyed_filter, ensureLoaded_wellKeyed, W.
    - intros k. rewrite Hdb, keys_setAll, Hids. split; [| now left].
      intros [H | H]; [exact H |]. rewrite D0 in H.
      exact (@keys_filter_live _ _ _ H). }
  split; [| split; [| split]].
  - intros f Hf. destruct (Hget f Hf) as (entry & Hg & Hin & Ek).
    exists entry. rewrite (@getVector_loaded _ _ L).
    split; [exact Hg |]. split; [exact Ek |].
    rewrite Forall_forall in Hne. now apply Hne.
  - rewrite getModifiedNotes_filter. cbn [fst].
    rewrite (@ensureLoaded_of_loaded _ L). now apply filter_none.
  - unfold VectorDb.getAllNoteIds. cbn [fst].
    now rewrite (@ensureLoaded_of_loaded _ L).
  - intros Hfiles. apply Permutation_length in Hperm.
    rewrite length_map in Hperm.
    assert (Hsize : JsMap.size (db s') = List.length files).
    { unfold JsMap.size. unfold JsMap.keys in Hperm.
      now rewrite length_map in Hperm. }
    apply needsReindexing_false; rewrite (@ensureLoaded_of_loaded _ L).
    + rewrite Hsize. destruct files; [congruence | discriminate].
    + now symmetry.
    + exact Hnew.
Qed.

(** The run of [indexModifiedNotes] from rest. *)
Lemma indexModifiedNotes_cases ix p :
  isIndexing ix = false ->
  let s0 := VectorDb.ensureLoaded (vectorDb ix) in
  let modifiedFiles := filter (VectorDb.newOrModified (db s0)) files in
  let entries := fst (Indexer.processBatch embedContent app modifiedFiles p) in
  let r := Indexer.indexModifiedNotes embedContent app ix p in
  let s' := vectorDb (snd (fst r)) in
  isIndexing (snd (fst r)) = false
  /\ loaded s' = true
  /\ (db s' = db s0 \/ db s' = setAll entries (db s0))
  /\ (forall n, fst (fst r) = Ok n ->
        db s' = setAll entries (db s0)
        /\ (n = 0 /\ modifiedFiles = [] \/ n = List.length entries)).
Proof.
  intros Hidle s0 modifiedFiles entries r s'.
  assert (L0 : loaded s0 = true) by apply ensureLoaded_loaded.
  subst s' r. unfold Indexer.indexModifiedNotes.
  rewrite Hidle, getModifiedNotes_filter. fold s0. fold modifiedFiles.
  destruct (List.length modifiedFiles =? 0) eqn:E1.
  { cbn [fst snd vectorDb isIndexing Indexer.idle].
    apply Nat.eqb_eq, length_zero_iff_nil in E1.
    assert (En : entries = []) by (subst entries; now rewrite E1).
    rewrite En. repeat split; auto. inversion H. auto. }
  subst entries.
  destruct (Indexer.processBatch embedContent app modifiedFiles p) as [entries p'].
  cbn [fst snd] in *.
  destruct (0 <? List.length entries) eqn:E2.
  - destruct (addVectors_state entries s0) as (Hd & Hl & _).
    rewrite (@ensureLoaded_of_loaded _ L0) in Hd.
    destruct (VectorDb.addVectors entries s0) as [[[] |] s2];
      cbn [fst snd vectorDb isIndexing Indexer.idle] in *;
      repeat split; auto; try discriminate.
    all: match goal with H : Ok _ = Ok _ |- _ => inversion H; auto end.
  - cbn [fst snd vectorDb isIndexing Indexer.idle].
    apply Nat.ltb_ge in E2.
    assert (En : entries = []) by (destruct entries; [reflexivity | simpl in E2; lia]).
    subst entries. repeat split; auto.
    all: match goal with H : Ok _ = Ok _ |- _ => inversion H; auto end.
Qed.

(** X20.  A run of [indexModifiedNotes] started at rest ends at rest.  When
    no file is new or modified it returns 0 and asks the provider nothing,
    and the store is only loaded.  The entries of ids that are not paths of
    new or modified files stay as they are, those of deleted notes
    included.  The number returned is at most the number of new or modified
    files; when it is that number and the paths are distinct, no file is new
    or modified afterwards. *)
Theorem indexModifiedNotes_spec (ix : NoteIndexer) (p : P) :
  isIndexing ix = false ->
  let s0 := VectorDb.ensureLoaded (vectorDb ix) in
  let modifiedFiles := fst (VectorDb.getModifiedNotes files (vectorDb ix)) in
  let r := Indexer.indexModifiedNotes embedContent app ix p in
  let s' := vectorDb (snd (fst r)) in
  isIndexing (snd (fst r)) = false
  /\ (modifiedFiles = [] -> r = (Ok 0, Indexer.idle s0, p))
  /\ (forall k, ~ In k (map path modifiedFiles) ->
        fst (VectorDb.getVector k s') = fst (VectorDb.getVector k (vectorDb ix)))
  /\ (forall n, fst (fst r) = Ok n -> n <= List.length modifiedFiles)
  /\ (NoDup (map path files) ->
      fst (fst r) = Ok (List.length modifiedFiles) ->
      fst (VectorDb.getModifiedNotes files s') = []).
Proof.
  intros Hidle s0 modifiedFiles r s'.
  destruct (indexModifiedNotes_cases ix p Hidle) as (H1 & L & H3 & H5).
  fold s0 in H3, H5. fold r in H1, L, H3, H5. fold s' in L, H3, H5.
  subst modifiedFiles. rewrite getModifiedNotes_filter. cbn [fst]. fold s0.
  set (modifiedFiles := filter (VectorDb.newOrModified (db s0)) files) in *.
  pose proof (processBatch_keys embedContent app modifiedFiles p) as Sub.
  set (entries := fst (Indexer.processBatch embedContent app modifiedFiles p)) in *.
  split; [exact H1 |]. split; [| split; [| split]].
  - intros E. subst r. unfold Indexer.indexModifiedNotes.
    rewrite Hidle, getModifiedNotes_filter. fold s0. fold modifiedFiles.
    now rewrite E.
  - intros k Hk. rewrite (@getVector_loaded _ _ L), getVector_get. fold s0.
    destruct H3 as [-> | ->]; [reflexivity |].
    rewrite get_setAll.
    destruct (lastWithId k entries) as [entry |] eqn:E; [| reflexivity].
    exfalso. apply Hk. destruct (@lastWithId_Some _ _ _ E) as [Hin <-].
    apply (@keys_paths _ _ _ Sub). now apply in_map.
  - intros n H. destruct (H5 n H) as [_ [[-> _] | ->]]; [lia |].
    apply Subseq_length in Sub. now rewrite !length_map in Sub.
  - intros N Hok. destruct (H5 _ Hok) as [Hdb Hn].
    assert (Hkeys : map entryKey entries = map fileKey modifiedFiles).
    { apply Subseq_length_eq; [exact Sub |]. rewrite !length_map.
      destruct Hn as [[Hn E] | Hn]; [| now symmetry].
      rewrite E in *. apply Subseq_length in Sub. cbn in Sub.
      rewrite length_map in Sub. cbn. lia. }
    pose proof (map_id_path _ _ Hkeys) as Hids.
    assert (Nm : NoDup (map path modifiedFiles)).
    { unfold modifiedFiles. clear - N. induction files as [| f fs IH]; [constructor |].
      cbn [map] in N. inversion N as [| ? ? Hn N']. subst. cbn [filter].
      destruct (VectorDb.newOrModified (db s0) f); [| now apply IH].
      cbn [map]. constructor; [| now apply IH].
      intros Hin. apply Hn. apply in_map_iff in Hin.
      destruct Hin as (g & Eg & Hg). apply filter_In in Hg.
      rewrite <- Eg. apply in_map. tauto. }
    assert (Nid : NoDup (map id entries)) by now rewrite Hids.
    rewrite getModifiedNotes_filter. cbn [fst].
    rewrite (@ensureLoaded_of_loaded _ L). apply filter_none.
    intros f Hf. unfold VectorDb.newOrModified. rewrite Hdb, get_setAll.
    destruct (VectorDb.newOrModified (db s0) f) eqn:Ef.
    + assert (Hm : In f modifiedFiles) by (apply filter_In; auto).
      destruct (@In_key entries modifiedFiles f Hkeys Hm) as (entry & Hin & Ek).
      unfold entryKey, fileKey in Ek. injection Ek as Eid _ Em.
      rewrite <- Eid, (@lastWithId_unique entries entry Nid Hin), Em.
      apply Z.ltb_irrefl.
    + destruct (lastWithId (path f) entries) as [entry |] eqn:E; [| exact Ef].
      exfalso. destruct (@lastWithId_Some _ _ _ E) as [Hin Eid].
      assert (Hp : In (path f) (map path modifiedFiles)).
      { rewrite <- Hids, <- Eid. now apply in_map. }
      apply in_map_iff in Hp. destruct Hp as (g & Eg & Hg).
      apply filter_In in Hg. destruct Hg as [Hg Hnew].
      assert (g = f); [| congruence].
      clear - N Hg Hf Eg. induction files as [| h fs IH]; [destruct Hf |].
      cbn [map] in N. inversion N as [| ? ? Hn N']. subst.
      destruct Hg as [-> | Hg], Hf as [-> | Hf]; auto.
      * exfalso. apply Hn. rewrite Eg. now apply in_map.
      * exfalso. apply Hn. rewrite <- Eg. now apply in_map.
Qed.

(** X21.  When [indexSingleNote] returns [true], [getVector] of the path of
    the file returns an entry made of the preprocessed text of the file, with
    an embedding that is not empty, and the file is no longer modified.
    Entries of other ids are not touched.  A file that cannot be read gives
    [false] with no request and no change; and with a store that can be
    written, [false] means that nothing was stored.  The indexing flag is
    left as it was. *)
Theorem indexSingleNote_spec (f : TFile) (ix : NoteIndexer) (p : P) :
  let r := Indexer.indexSingleNote embedContent app f ix p in
  let s' := vectorDb (snd (fst r)) in
  (fst (fst r) = true ->
     exists entry c,
       fst (VectorDb.getVector (path f) s') = Some entry
       /\ cachedRead app f = Ok c
       /\ entry = Indexer.makeEntry f (preprocessContent c f) (embedding entry)
       /\ embedding entry <> []
       /\ fst (VectorDb.getModifiedNotes [f] s') = [])
  /\ (forall k, k <> path f ->
        fst (VectorDb.getVector k s') = fst (VectorDb.getVector k (vectorDb ix)))
  /\ (cachedRead app f = Threw -> r = (false, ix, p))
  /\ (fst (fst r) = false -> writable (adapter (vectorDb ix)) = true ->
      snd (fst r) = ix)
  /\ isIndexing (snd (fst r)) = isIndexing ix.
Proof.
  intros r s'. subst s' r. unfold Indexer.indexSingleNote.
  pose proof (@processBatch_In _ embedContent app [f] p) as Hin.
  assert (Hread : cachedRead app f = Threw ->
                  Indexer.processBatch embedContent app [f] p = ([], p)).
  { intros E. rewrite processBatch_unfold. unfold readable. cbn [flat_map].
    now rewrite E. }
  destruct (Indexer.processBatch embedContent app [f] p) as [entries p'].
  cbn [fst] in Hin.
  destruct entries as [| entry entries].
  { cbn [fst snd]. split; [discriminate |]. split; [reflexivity |].
    split; [| auto]. intros E. specialize (Hread E). congruence. }
  destruct (Hin entry (or_introl eq_refl)) as (g & c & [<- | []] & Hc & He & Hne).
  assert (Eid : id entry = path f) by (rewrite He; reflexivity).
  assert (Em : modified entry = mtime f) by (rewrite He; reflexivity).
  destruct (addVector_state entry (vectorDb ix)) as (Hd & Hl).
  pose proof (@saveDatabase_writable
                (VectorDb.with_db
                   (JsMap.set (id entry) entry
                      (db (VectorDb.ensureLoaded (vectorDb ix))))
                   (VectorDb.ensureLoaded (vectorDb ix)))) as Hw.
  cbn [VectorDb.with_db adapter] in Hw. rewrite ensureLoaded_adapter in Hw.
  change (VectorDb.saveDatabase _) with (VectorDb.addVector entry (vectorDb ix)) in Hw.
  assert (Hget : JsMap.get (path f)
                   (db (snd (VectorDb.addVector entry (vectorDb ix)))) = Some entry).
  { rewrite Hd, <- Eid. apply get_set_same. }
  assert (Hother : forall k, k <> path f ->
            JsMap.get k (db (snd (VectorDb.addVector entry (vectorDb ix))))
            = fst (VectorDb.getVector k (vectorDb ix))).
  { intros k Hk. rewrite Hd, getVector_get. apply get_set_other. congruence. }
  destruct (VectorDb.addVector entry (vectorDb ix)) as [[[] |] s2];
    cbn [fst snd vectorDb isIndexing] in *.
  - split; [| split; [| split; [| split]]].
    + intros _. exists entry, c. rewrite (@getVector_loaded _ _ Hl).
      repeat split; auto.
      rewrite getModifiedNotes_filter. cbn [fst filter].
      rewrite (@ensureLoaded_of_loaded _ Hl).
      unfold VectorDb.newOrModified. rewrite Hget, Em, Z.ltb_irrefl. reflexivity.
    + intros k Hk. rewrite (@getVector_loaded _ _ Hl). now apply Hother.
    + intros E. congruence.
    + discriminate.
    + reflexivity.
  - split; [discriminate |]. split; [| split; [| split]].
    + intros k Hk. rewrite (@getVector_loaded _ _ Hl). now apply Hother.
    + intros E. congruence.
    + intros _ W. destruct (Hw W) as [Hw1 _]. discriminate.
    + reflexivity.
Qed.

(** X22.  When no request for the texts of the files that can be read fails
    and no answer is empty, [processBatch] makes an entry for each of those
    files, in order, with the answer to its text as embedding; the provider
    is left as after these requests. *)
Theorem processBatch_complete (fs : list TFile) (p : P) (vs : list (list float)) :
  let texts := map snd (readable app fs) in
  Gemini.promiseAll (fst (Gemini.issueAll embedContent texts p)) = Ok vs ->
  Forall (fun v => v <> []) vs ->
  let entries := fst (Indexer.processBatch embedContent app fs p) in
  map entryKey entries
  = map fileKey
      (filter (fun f => match cachedRead app f with Ok _ => true | Threw => false end) fs)
  /\ map embedding entries = vs
  /\ snd (Indexer.processBatch embedContent app fs p)
     = snd (Gemini.issueAll embedContent texts p).
Proof.
  intros texts Hall Hvs entries. subst entries.
  rewrite processBatch_unfold. fold texts.
  assert (Hlen : List.length vs = List.length (readable app fs)).
  { rewrite (@promiseAll_length _ _ _ Hall), issueAll_length.
    unfold texts. apply length_map. }
  assert (Hfilter :
    map (fun fd : TFile * string => fileKey (fst fd)) (readable app fs)
    = map fileKey
        (filter (fun f => match cachedRead app f with Ok _ => true | Threw => false end) fs)).
  { unfold readable. clear. induction fs as [| f fs IH]; [reflexivity |].
    cbn [flat_map filter]. destruct (cachedRead app f); cbn [List.app map fst];
      now rewrite IH. }
  assert (Hgen : Gemini.generateEmbeddings embedContent texts p
                 = (vs, snd (Gemini.issueAll embedContent texts p))).
  { unfold Gemini.generateEmbeddings.
    assert (E : List.concat (JsArray.batchesOf 5 texts) = texts)
      by (apply batches_concat; lia).
    rewrite <- E in Hall.
    rewrite (@generate_loop_succeeds _ embedContent _ p vs Hall), E. reflexivity. }
  rewrite Hgen. cbn [fst snd].
  destruct (readable app fs) as [| fd fileData] eqn:Er.
  { destruct vs; [| discriminate]. rewrite <- Hfilter. repeat split. }
  rewrite <- Er in *. cbn [fst snd]. rewrite <- Hfilter.
  split; [| split; [| reflexivity]].
  - clear - Hlen Hvs. revert vs Hlen Hvs. generalize (readable app fs).
    intros l. unfold entriesOf.
    induction l as [| [f text] l IH]; intros [| v vs] Hlen Hvs;
      try discriminate; [reflexivity |].
    inversion Hvs as [| ? ? Hv Hvs']. subst.
    cbn [combine flat_map]. destruct v as [| x v]; [congruence |].
    cbn [VectorDb.nonEmpty List.app map fst]. f_equal.
    apply IH; [simpl in Hlen; lia | exact Hvs'].
  - clear - Hlen Hvs. revert vs Hlen Hvs. generalize (readable app fs).
    intros l. unfold entriesOf.
    induction l as [| [f text] l IH]; intros [| v vs] Hlen Hvs;
      try discriminate; [reflexivity |].
    inversion Hvs as [| ? ? Hv Hvs']. subst.
    cbn [combine flat_map]. destruct v as [| x v]; [congruence |].
    cbn [VectorDb.nonEmpty List.app map]. f_equal.
    apply IH; [simpl in Hlen; lia | exact Hvs'].
Qed.

End RunFacts.

(** ** Tags and blank lines *)

Section TagFacts.

Import JsString Regex NoteText.
Local Open Scope string_scope.

#[local] Arguments match_at : simpl never.
#[local] Arguments match_here : simpl never.

Lemma hashtag_match_text s g r :
  match_here (body re_hashtag) s = Some (g, r) ->
  exists u, s = "#" ++ u ++ r /\ allIn isTagChar u = true /\ u <> "".
Proof.
  intros H. destruct s as [| c s]; [discriminate |].
  change (match_here (body re_hashtag) (String c s))
    with (if Ascii.eqb "#" c
          then rep_loop isTagChar 1 None Greedy false (match_here []) s 0 ""
          else None) in H.
  destruct (Ascii.eqb "#" c) eqn:E; [| discriminate].
  apply Ascii.eqb_eq in E. subst c.
  apply rep_loop_sound in H. destruct H as (u & v & g' & -> & Hu & Hlo & Hk & _).
  cbv in Hk. inversion Hk; subst. exists u. repeat split; auto.
  intros ->. simpl in Hlo. lia.
Qed.

Lemma match_all_hashtag s : forall prev skip m,
  In m (match_all_from re_hashtag prev skip s) ->
  exists pre u post,
    s = pre ++ "#" ++ u ++ post /\ m = "#" ++ u
    /\ allIn isTagChar u = true /\ u <> "".
Proof.
  induction s as [| c s IH]; intros prev skip m H.
  - destruct skip; [| destruct H].
    cbn [match_all_from] in H. rewrite match_at_anywhere in H by reflexivity.
    destruct H.
  - assert (Hrec : forall prev' k, In m (match_all_from re_hashtag prev' k s) ->
               exists pre u post,
                 String c s = pre ++ "#" ++ u ++ post /\ m = "#" ++ u
                 /\ allIn isTagChar u = true /\ u <> "").
    { intros prev' k Hk. destruct (IH _ _ _ Hk) as (pre & u & post & -> & Hm).
      exists (String c pre), u, post. auto. }
    destruct skip as [| skip].
    + rewrite match_all_from_zero, match_at_anywhere in H by reflexivity.
      destruct (match_here (body re_hashtag) (String c s)) as [[g r] |] eqn:M;
        [| now apply (Hrec (Some c) 0)].
      apply hashtag_match_text in M. destruct M as (u & E & Hu & Hne).
      destruct H as [H | H].
      * exists "", u, r. split; [exact E |]. split; [| auto].
        rewrite <- H, E. unfold matched. rewrite hashtag_length.
        replace ("#" ++ u ++ r) with (("#" ++ u) ++ r) by reflexivity.
        change (S (String.length u)) with (String.length ("#" ++ u)).
        now rewrite take_append.
      * rewrite E, hashtag_length in H. now apply (Hrec (Some c) (String.length u)).
    + change (match_all_from re_hashtag prev (S skip) (String c s))
        with (match_all_from re_hashtag (Some c) skip s) in H.
      now apply (Hrec (Some c) skip).
Qed.

Lemma hashtags_sound text t :
  In t (hashtags text) ->
  t <> "" /\ allIn isTagChar t = true
  /\ exists pre post, text = pre ++ "#" ++ t ++ post.
Proof.
  unfold hashtags, match_all. rewrite in_map_iff. intros (m & <- & H).
  apply match_all_hashtag in H.
  destruct H as (pre & u & post & -> & -> & Hu & Hne).
  change (drop 1 ("#" ++ u)) with u. repeat split; auto.
  now exists pre, post.
Qed.

(** X23.  [extractTags] returns each tag once.  Its tags are the hashtags
    of the text and the tags of a front-matter list at the start of the
    text.  A hashtag is never empty, is made of word characters and hyphens
    and stands in the text after a [#]; and every run of such characters
    that follows a [#] and ends where they end is found. *)
Theorem extractTags_collects (text : string) :
  NoDup (extractTags text)
  /\ (forall t, In t (extractTags text)
                <-> In t (hashtags text) \/ In t (frontmatterTags text))
  /\ (forall t, In t (hashtags text) ->
        t <> "" /\ allIn isTagChar t = true
        /\ exists pre post, text = pre ++ "#" ++ t ++ post)
  /\ (forall pre t post,
        text = pre ++ "#" ++ t ++ post ->
        t <> "" -> allIn isTagChar t = true -> stopsAt isTagChar post = true ->
        In t (extractTags text)).
Proof.
  destruct (extractTags_spec text) as [N M].
  split; [exact N |]. split; [exact M |]. split.
  - intros t. apply hashtags_sound.
  - intros pre t post -> Ht Ha Hp. now apply extractTags_hashtag.
Qed.

End TagFacts.

Section BlankLines.

Import JsString Regex NoteText.
Local Open Scope string_scope.

#[local] Arguments match_at : simpl never.
#[local] Arguments match_here : simpl never.
#[local] Arguments replace_all_from : simpl never.

Local Abbreviation collapse := (replace_all_from re_blank_lines two_lines None 0).

Lemma only_LF c : only LF c = true -> c = LF.
Proof. unfold only. intros H. apply Ascii.eqb_eq in H. now subst. Qed.

(** The line feeds in front of a text, and what follows them. *)
Lemma line_feeds_first s :
  exists u v, s = u ++ v /\ allIn (only LF) u = true /\ stopsAt (only LF) v = true.
Proof.
  induction s as [| c s IH].
  - exists "", "". auto.
  - destruct (only LF c) eqn:E.
    + destruct IH as (u & v & -> & Hu & Hv).
      exists (String c u), v. cbn [allIn append]. rewrite E. auto.
    + exists "", (String c s). cbn [stopsAt]. rewrite E. auto.
Qed.

Lemma stopsAt_head (cls : ascii -> bool) v :
  stopsAt cls v = true ->
  (match v with String d _ => cls d | EmptyString => false end) = false.
Proof. destruct v as [| d v]; [reflexivity |]. cbn. now destruct (cls d). Qed.

Lemma skip_matched u : forall prev v,
  replace_all_from re_blank_lines two_lines prev (String.length u) (u ++ v)
  = collapse v.
Proof.
  induction u as [| c u IH]; intros prev v.
  - apply collapse_prev.
  - change (replace_all_from re_blank_lines two_lines prev
              (String.length (String c u)) (String c u ++ v))
      with (replace_all_from re_blank_lines two_lines (Some c)
              (String.length u) (u ++ v)).
    apply IH.
Qed.

Lemma collapse_long u v :
  allIn (only LF) u = true -> stopsAt (only LF) v = true ->
  3 <= String.length u ->
  collapse (u ++ v) = nl ++ nl ++ collapse v.
Proof.
  intros Hu Hv Hlen. destruct u as [| c u]; [simpl in Hlen; lia |].
  change (String c u ++ v) with (String c (u ++ v)).
  rewrite replace_all_from_zero, match_at_anywhere by reflexivity.
  change (String c (u ++ v)) with (String c u ++ v).
  change (match_here (body re_blank_lines) (String c u ++ v))
    with (rep_loop (only LF) 3 None Greedy false (match_here [])
            (String c u ++ v) 0 "").
  rewrite (@rep_loop_greedy (only LF) 3 false (match_here []) (String c u) v 0 ""
             None v); auto.
  replace (String.length (String c u ++ v) - String.length v)
    with (S (String.length u))
    by (rewrite length_append; cbn [String.length]; lia).
  rewrite skip_matched. reflexivity.
Qed.

Lemma collapse_short u v :
  allIn (only LF) u = true -> stopsAt (only LF) v = true ->
  String.length u < 3 ->
  collapse (u ++ v) = u ++ collapse v.
Proof.
  intros Hu Hv Hlen. apply stopsAt_head in Hv.
  assert (One : collapse (String LF v) = String LF (collapse v)).
  { rewrite replace_all_from_zero.
    assert (M : match_at re_blank_lines None (String LF "" ++ v) = None)
      by (apply blank_lines_short; auto; cbn; lia).
    change (String LF "" ++ v) with (String LF v) in M.
    rewrite M. now rewrite collapse_prev. }
  destruct u as [| a u]; [reflexivity |].
  cbn [allIn] in Hu. apply andb_true_iff in Hu. destruct Hu as [Ha Hu].
  apply only_LF in Ha. subst a.
  destruct u as [| b u]; [exact One |].
  cbn [allIn] in Hu. apply andb_true_iff in Hu. destruct Hu as [Hb Hu].
  apply only_LF in Hb. subst b.
  destruct u as [| ? u]; [| simpl in Hlen; lia].
  change (String LF (String LF "") ++ v) with (String LF (String LF v)).
  rewrite replace_all_from_zero.
  assert (M : match_at re_blank_lines None (String LF (String LF "") ++ v) = None)
    by (apply blank_lines_short; auto; cbn; lia).
  change (String LF (String LF "") ++ v) with (String LF (String LF v)) in M.
  rewrite M, collapse_prev, One. reflexivity.
Qed.

Lemma blankLinesOk_run u c s :
  allIn (only LF) u = true -> String.length u < 3 -> only LF c = false ->
  blankLinesOk 0 (u ++ String c s) = blankLinesOk 0 s.
Proof.
  intros Hu Hlen Hc. unfold only in Hc.
  assert (T : forall n, blankLinesOk n (String c s) = blankLinesOk 0 s)
    by (intros n; cbn [blankLinesOk]; now rewrite Hc).
  destruct u as [| a u]; [apply T |].
  cbn [allIn] in Hu. apply andb_true_iff in Hu. destruct Hu as [Ha Hu].
  apply only_LF in Ha. subst a.
  destruct u as [| b u];
    [cbn [append blankLinesOk]; rewrite Ascii.eqb_refl, Hc; reflexivity |].
  cbn [allIn] in Hu. apply andb_true_iff in Hu. destruct Hu as [Hb Hu].
  apply only_LF in Hb. subst b.
  destruct u as [| ? u]; [| simpl in Hlen; lia].
  cbn [append blankLinesOk]. rewrite !Ascii.eqb_refl, Hc. reflexivity.
Qed.

Lemma blankLinesOk_line_feeds u :
  allIn (only LF) u = true -> String.length u < 3 -> blankLinesOk 0 u = true.
Proof.
  intros Hu Hlen.
  destruct u as [| a u]; [reflexivity |].
  cbn [allIn] in Hu. apply andb_true_iff in Hu. destruct Hu as [Ha Hu].
  apply only_LF in Ha. subst a.
  destruct u as [| b u]; [reflexivity |].
  cbn [allIn] in Hu. apply andb_true_iff in Hu. destruct Hu as [Hb Hu].
  apply only_LF in Hb. subst b.
  destruct u as [| ? u]; [reflexivity | simpl in Hlen; lia].
Qed.

Lemma collapse_run u v :
  allIn (only LF) u = true -> stopsAt (only LF) v = true ->
  exists w, collapse (u ++ v) = w ++ collapse v
            /\ allIn (only LF) w = true /\ String.length w < 3.
Proof.
  intros Hu Hv. destruct (le_lt_dec 3 (String.length u)) as [H | H].
  - exists (nl ++ nl). split; [now apply collapse_long |]. split; [reflexivity |].
    cbn. lia.
  - exists u. split; [now apply collapse_short | auto].
Qed.

Lemma blankLinesOk_collapse n : forall s,
  String.length s <= n -> blankLinesOk 0 (collapse s) = true.
Proof.
  induction n as [| n IH]; intros s Hn.
  - destruct s; [reflexivity | simpl in Hn; lia].
  - destruct (line_feeds_first s) as (u & v & -> & Hu & Hv).
    destruct (collapse_run u v Hu Hv) as (w & -> & Hw & Hlen).
    destruct v as [| c v].
    + change (collapse "") with "". rewrite append_nil_r.
      now apply blankLinesOk_line_feeds.
    + cbn [stopsAt] in Hv. apply negb_true_iff in Hv.
      rewrite collapse_keep by exact Hv.
      rewrite blankLinesOk_run by auto. apply IH.
      rewrite length_append in Hn. cbn [String.length] in Hn. lia.
Qed.

Lemma blankLinesOk_less s : forall n m,
  m <= n -> blankLinesOk n s = true -> blankLinesOk m s = true.
Proof.
  induction s as [| c s IH]; intros n m Hm H; [reflexivity |].
  cbn [blankLinesOk] in *. destruct (Ascii.eqb LF c); [| exact H].
  apply andb_true_iff in H. destruct H as [H1 H2]. apply Nat.ltb_lt in H1.
  apply andb_true_iff. split; [apply Nat.ltb_lt; lia |].
  apply (IH (S n)); [lia | exact H2].
Qed.

Lemma blankLinesOk_part a : forall n s b,
  blankLinesOk n (a ++ s ++ b) = true -> blankLinesOk 0 s = true.
Proof.
  induction a as [| c a IH]; intros n s b H.
  - cbn [append] in H. apply (@blankLinesOk_less _ n 0) ; [lia |].
    clear - H. revert n H. induction s as [| c s IH]; intros n H; [reflexivity |].
    cbn [append blankLinesOk] in *. destruct (Ascii.eqb LF c).
    + apply andb_true_iff in H. destruct H as [H1 H2]. rewrite H1. cbn [andb].
      now apply IH.
    + now apply IH.
  - cbn [append blankLinesOk] in H. destruct (Ascii.eqb LF c).
    + apply andb_true_iff in H. destruct H as [_ H]. now apply IH in H.
    + now apply IH in H.
Qed.

Lemma blankLinesOk_three pre post :
  blankLinesOk 0 (pre ++ nl ++ nl ++ nl ++ post) = false.
Proof.
  destruct (blankLinesOk 0 (pre ++ nl ++ nl ++ nl ++ post)) eqn:E; [| reflexivity].
  replace (pre ++ nl ++ nl ++ nl ++ post) with (pre ++ (nl ++ nl ++ nl) ++ post) in E
    by reflexivity.
  apply blankLinesOk_part in E. discriminate.
Qed.

Lemma trimStart_suffix s : exists a, s = a ++ trimStart s.
Proof.
  induction s as [| c s IH]; [now exists "" |].
  cbn [trimStart]. destruct (isSpace c); [| now exists ""].
  destruct IH as (a & E). exists (String c a). cbn [append]. now rewrite <- E.
Qed.

Lemma trimEnd_prefix s : exists b, s = trimEnd s ++ b.
Proof.
  induction s as [| c s IH]; [now exists "" |].
  cbn [trimEnd]. destruct IH as (b & E).
  destruct (isSpace c && isEmpty (trimEnd s)).
  - now exists (String c s).
  - exists b. cbn [append]. now rewrite <- E.
Qed.

Lemma endsInText_trimEnd s : hasText s = true -> endsInText (trimEnd s) = true.
Proof.
  induction s as [| c s IH]; [discriminate |].
  cbn [hasText trimEnd]. intros H.
  pose proof (isEmpty_trimEnd s) as He.
  destruct (hasText s) eqn:Hs.
  - rewrite He. cbn [negb]. rewrite andb_false_r.
    specialize (IH eq_refl). cbn [endsInText].
    destruct (trimEnd s); [discriminate | exact IH].
  - rewrite orb_false_r in H. apply negb_true_iff in H.
    rewrite H. cbn [andb].
    destruct (trimEnd s); [| discriminate]. cbn. now rewrite H.
Qed.

(** X24.  The text of [preprocessContent] never has three line feeds in a
    row, its last character is not white space, and it is trimmed: trimming
    it again changes nothing. *)
Theorem preprocessContent_shape (c : string) (f : TFile) :
  (forall pre post, preprocessContent c f <> pre ++ nl ++ nl ++ nl ++ post)
  /\ endsInText (preprocessContent c f) = true
  /\ trim (preprocessContent c f) = preprocessContent c f.
Proof.
  assert (Hok : blankLinesOk 0 (preprocessContent c f) = true).
  { unfold preprocessContent, replace_all, trim.
    change [Text (nl ++ nl)] with two_lines.
    set (s := collapse _).
    destruct (trimStart_suffix s) as (a & Ea).
    destruct (trimEnd_prefix (trimStart s)) as (b & Eb).
    assert (H : blankLinesOk 0 s = true)
      by (unfold s; now apply (@blankLinesOk_collapse _ _ (Nat.le_refl _))).
    rewrite Ea, Eb in H. now apply blankLinesOk_part in H. }
  destruct (preprocessContent_title c f) as (rest & E & Hrest).
  assert (Hend : endsInText (preprocessContent c f) = true).
  { pose proof E as E'. unfold preprocessContent, trim in E'.
    unfold preprocessContent, trim. apply endsInText_trimEnd.
    rewrite <- hasText_trimEnd, E'. reflexivity. }
  split; [| split; [exact Hend |]].
  - intros pre post H. rewrite H, blankLinesOk_three in Hok. discriminate.
  - rewrite E. unfold trim.
    change (trimStart ("Title: " ++ rest)) with ("Title: " ++ rest).
    rewrite <- E. clear - Hend. 
    induction (preprocessContent c f) as [| d s IH]; [reflexivity |].
    cbn [trimEnd]. destruct s as [| e s].
    + cbn in Hend. cbn. now rewrite (proj1 (negb_true_iff _) Hend).
    + change (endsInText (String d (String e s))) with (endsInText (String e s)) in Hend.
      rewrite (IH Hend). cbn [isEmpty]. now rewrite andb_false_r.
Qed.

End BlankLines.

(** ** More examples *)

Section MoreExamples.

Import Examples NoteText.
Local Open Scope string_scope.

Lemma wellKeyed_twoNotes : wellKeyed (db twoNotes).
Proof.
  split.
  - repeat constructor; simpl; intuition discriminate.
  - repeat constructor.
Defined.

Lemma store_keeps_one_entry_per_id_witness :
  wellKeyed (db twoNotes)
  /\ wellKeyed
       (db (snd (VectorDb.addVector (entryOf "a.md" [0%float; 1%float] 20) twoNotes))).
Proof.
  split; [exact wellKeyed_twoNotes |].
  exact (proj1 (proj2 (@store_keeps_one_entry_per_id twoNotes wellKeyed_twoNotes))
           (entryOf "a.md" [0%float; 1%float] 20)).
Defined.






Lemma generateEmbeddings_all_succeed_witness :
  Gemini.generateEmbeddings steadyModel ["a"; "b"] tt
  = ([[1%float; 0%float]; [1%float; 0%float]], tt).
Proof.
  exact (@generateEmbeddings_all_succeed unit steadyModel ["a"; "b"] tt
           [[1%float; 0%float]; [1%float; 0%float]] eq_refl).
Defined.

Lemma generateEmbeddings_failing_batch_witness :
  batchRejects failingModel fiveTexts tt = true
  /\ fst (Gemini.generateEmbeddings failingModel (fiveTexts ++ ["six"]) tt)
     = repeat [] 6.
Proof.
  split; [reflexivity |].
  rewrite (@generateEmbeddings_failing_batch unit failingModel fiveTexts ["six"] tt
             eq_refl eq_refl).
  reflexivity.
Defined.

Lemma indexAllNotes_invariants_witness :
  isIndexing idleIndexer = false
  /\ isIndexing (snd (fst (Indexer.indexAllNotes steadyModel planApp idleIndexer tt)))
     = false.
Proof.
  split; [reflexivity |].
  exact (proj1 (@indexAllNotes_invariants unit steadyModel planApp idleIndexer tt
                  eq_refl)).
Defined.

Lemma indexAllNotes_run :
  fst (fst (Indexer.indexAllNotes steadyModel planApp idleIndexer tt))
  = Ok (List.length (markdownFiles planApp)).
Proof. vm_compute. reflexivity. Defined.

Lemma indexAllNotes_complete_witness :
  fst (fst (Indexer.indexAllNotes steadyModel planApp idleIndexer tt)) = Ok 1
  /\ fst (VectorDb.getModifiedNotes (markdownFiles planApp)
            (vectorDb (snd (fst (Indexer.indexAllNotes steadyModel planApp
                                   idleIndexer tt)))))
     = [].
Proof.
  split; [exact indexAllNotes_run |].
  assert (N : NoDup (map path (markdownFiles planApp)))
    by (repeat constructor; simpl; tauto).
  exact (proj1 (proj2 (@indexAllNotes_complete unit steadyModel planApp (fun i => i)
                         idleIndexer tt eq_refl N wellKeyed_empty indexAllNotes_run))).
Defined.

Lemma indexModifiedNotes_spec_witness :
  isIndexing idleIndexer = false
  /\ isIndexing (snd (fst (Indexer.indexModifiedNotes steadyModel planApp idleIndexer tt)))
     = false.
Proof.
  split; [reflexivity |].
  exact (proj1 (@indexModifiedNotes_spec unit steadyModel planApp idleIndexer tt
                  eq_refl)).
Defined.

Lemma processBatch_complete_witness :
  Gemini.promiseAll
    (fst (Gemini.issueAll steadyModel (map snd (readable planApp [planFile])) tt))
  = Ok [[1%float; 0%float]]
  /\ map embedding (fst (Indexer.processBatch steadyModel planApp [planFile] tt))
     = [[1%float; 0%float]].
Proof.
  assert (H : Gemini.promiseAll
                (fst (Gemini.issueAll steadyModel
                        (map snd (readable planApp [planFile])) tt))
              = Ok [[1%float; 0%float]]) by (vm_compute; reflexivity).
  split; [exact H |].
  apply (@processBatch_complete unit steadyModel planApp [planFile] tt
           [[1%float; 0%float]] H).
  repeat constructor. discriminate.
Defined.

Lemma addVector_keeps_order_witness :
  "b.md" <> id (entryOf "a.md" [0%float; 1%float] 20)
  /\ fst (VectorDb.getVector "b.md"
            (snd (VectorDb.addVector (entryOf "a.md" [0%float; 1%float] 20) twoNotes)))
     = fst (VectorDb.getVector "b.md" twoNotes).
Proof.
  assert (H : "b.md" <> id (entryOf "a.md" [0%float; 1%float] 20)) by discriminate.
  split; [exact H |].
  exact (proj2 (@addVector_keeps_order (entryOf "a.md" [0%float; 1%float] 20) twoNotes)
           "b.md" H).
Defined.

Lemma removeVector_spec_witness :
  "b.md" <> "a.md"
  /\ fst (VectorDb.getVector "b.md" (snd (VectorDb.removeVector "a.md" twoNotes)))
     = fst (VectorDb.getVector "b.md" twoNotes).
Proof.
  assert (H : "b.md" <> "a.md") by discriminate.
  split; [exact H |].
  exact (proj1 (proj2 (@removeVector_spec "a.md" twoNotes)) "b.md" H).
Defined.

Lemma getStats_spec_witness :
  lastUpdated (fst (VectorDbStats.getStats (fun _ => "today") twoNotes)) = Some "today"
  /\ exists entry,
       In entry (JsMap.values (db (VectorDb.ensureLoaded twoNotes)))
       /\ "today" = (fun _ : Z => "today") (modified entry)
       /\ (0 < modified entry)%Z
       /\ Forall (fun other => (modified other <= modified entry)%Z)
                 (JsMap.values (db (VectorDb.ensureLoaded twoNotes))).
Proof.
  split; [reflexivity |].
  exact (proj2 (proj2 (proj2 (@getStats_spec (fun _ => "today") twoNotes)))
           "today" eq_refl).
Defined.

Lemma needsReindexing_spec_witness :
  (forall f, In f [fileOf "a.md" 10; fileOf "b.md" 10] ->
             VectorDb.newOrModified (db (VectorDb.ensureLoaded twoNotes)) f = false)
  /\ fst (VectorDbStats.needsReindexing (fun i => 7 * i)
            [fileOf "a.md" 10; fileOf "b.md" 10] twoNotes)
     = Ok false.
Proof.
  assert (H : forall f, In f [fileOf "a.md" 10; fileOf "b.md" 10] ->
                VectorDb.newOrModified (db (VectorDb.ensureLoaded twoNotes)) f = false).
  { intros f [<- | [<- | []]]; reflexivity. }
  split; [exact H |].
  apply (proj2 (proj2 (proj2 (@needsReindexing_spec (fun i => 7 * i)
                                [fileOf "a.md" 10; fileOf "b.md" 10] twoNotes)))).
  - discriminate.
  - reflexivity.
  - exact H.
Defined.

Lemma generateEmbedding_request_witness :
  hasText "  " = false
  /\ Gemini.generateEmbedding failingModel "  " tt = (Ok [], tt).
Proof.
  split; [reflexivity |].
  exact (proj1 (@generateEmbedding_request unit failingModel "  " tt) eq_refl).
Defined.

Lemma indexSingleNote_run :
  fst (fst (Indexer.indexSingleNote steadyModel planApp planFile idleIndexer tt)) = true.
Proof. vm_compute. reflexivity. Defined.

Lemma indexSingleNote_spec_witness :
  fst (fst (Indexer.indexSingleNote steadyModel planApp planFile idleIndexer tt)) = true
  /\ exists entry c,
       fst (VectorDb.getVector (path planFile)
              (vectorDb (snd (fst (Indexer.indexSingleNote steadyModel planApp planFile
                                     idleIndexer tt)))))
       = Some entry
       /\ cachedRead planApp planFile = Ok c
       /\ entry = Indexer.makeEntry planFile (preprocessContent c planFile)
                    (embedding entry)
       /\ embedding entry <> []
       /\ fst (VectorDb.getModifiedNotes [planFile]
                 (vectorDb (snd (fst (Indexer.indexSingleNote steadyModel planApp
                                        planFile idleIndexer tt)))))
          = [].
Proof.
  split; [exact indexSingleNote_run |].
  exact (proj1 (@indexSingleNote_spec unit steadyModel planApp planFile idleIndexer tt)
           indexSingleNote_run).
Defined.

Lemma extractTags_collects_witness :
  allIn isTagChar "todo" = true
  /\ stopsAt isTagChar " now" = true
  /\ In "todo" (extractTags ("see " ++ "#" ++ "todo" ++ " now")).
Proof.
  split; [reflexivity |]. split; [reflexivity |].
  apply (proj2 (proj2 (proj2 (extractTags_collects ("see " ++ "#" ++ "todo" ++ " now"))))
           "see " "todo" " now"); [reflexivity | discriminate | reflexivity | reflexivity].
Defined.

End MoreExamples.
